(** * fogpy: the masking-filter pipeline of [fogpy/filters.py]

    A shallow embedding of the array filters of fogpy (satellite fog and
    low-stratus detection) and the properties of its specification.

    Conventions of the embedding.
    - A numpy float is a value of [fval]: a finite number (a rational, so
      rounding is not part of the model), either infinity, or not-a-number.
    - A 2-D numpy array is a [grid]: the list of its rows.
    - Boolean mask arrays are the only arrays the filters update in place;
      they live in a store ([heap]) and are named by their address, so that
      two names of one array are one address.
    - A filter object is its class, its array [arr] and the keyword
      attributes it was built with.  The channel attributes are plain float
      arrays, the cluster label grid is a masked integer array.
    - [logger] calls append to a log; Python exceptions are values of
      [exn] returned in place of a result.
    - Library routines whose result the filters only consume (histogram
      binning, wavelet peak search, connected components, the sun zenith
      angle, the 1-D cloud model, the completion order of the worker pool)
      are fields of the record [Externals]. *)

From Stdlib Require Import QArith Qabs Lqa ZArith Lia Bool List Permutation.
From stdpp Require Import base option list gmap strings fin_maps.

Set Default Proof Using "Type".
Local Open Scope string_scope.
Local Open Scope list_scope.

(** ** Floating-point values *)

Module Float.

Inductive fval : Type :=
  | Fin (q : Q)
  | PInf
  | NInf
  | NaN.

Definition Qltb (x y : Q) : bool := negb (Qle_bool y x).

Definition is_nan (a : fval) : bool :=
  match a with NaN => true | _ => false end.

Definition fneg (a : fval) : fval :=
  match a with
  | Fin q => Fin (- q)
  | PInf => NInf
  | NInf => PInf
  | NaN => NaN
  end.

Definition fadd (a b : fval) : fval :=
  match a, b with
  | NaN, _ | _, NaN => NaN
  | Fin x, Fin y => Fin (x + y)
  | PInf, NInf | NInf, PInf => NaN
  | PInf, _ | _, PInf => PInf
  | NInf, _ | _, NInf => NInf
  end.

Definition fsub (a b : fval) : fval := fadd a (fneg b).

(** sign of a finite value: -1, 0 or 1 *)
Definition Qsign (x : Q) : Z := Z.sgn (Qnum x).

Definition inf_of_sign (s : Z) : fval :=
  match s with
  | Z0 => NaN
  | Zpos _ => PInf
  | Zneg _ => NInf
  end.

Definition fsign (a : fval) : Z :=
  match a with
  | Fin q => Qsign q
  | PInf => 1
  | NInf => -1
  | NaN => 0
  end.

Definition fmul (a b : fval) : fval :=
  match a, b with
  | NaN, _ | _, NaN => NaN
  | Fin x, Fin y => Fin (x * y)
  | _, _ => inf_of_sign (fsign a * fsign b)
  end.

(** true division of numpy floats: x/0 is an infinity of the sign of x,
    0/0 and inf/inf are not-a-number *)
Definition fdiv (a b : fval) : fval :=
  match a, b with
  | NaN, _ | _, NaN => NaN
  | Fin x, Fin y =>
      if Qeq_bool y 0 then inf_of_sign (Qsign x) else Fin (x / y)
  | Fin _, _ => Fin 0
  | _, Fin y => inf_of_sign (fsign a * (if Qeq_bool y 0 then 1 else Qsign y))
  | _, _ => NaN
  end.

Definition fabs (a : fval) : fval :=
  match a with
  | Fin q => Fin (Qabs q)
  | PInf | NInf => PInf
  | NaN => NaN
  end.

(** comparisons; any comparison with not-a-number is false *)
Definition fleb (a b : fval) : bool :=
  match a, b with
  | NaN, _ | _, NaN => false
  | Fin x, Fin y => Qle_bool x y
  | NInf, _ => true
  | _, PInf => true
  | _, _ => false
  end.

Definition fltb (a b : fval) : bool :=
  match a, b with
  | NaN, _ | _, NaN => false
  | Fin x, Fin y => Qltb x y
  | NInf, NInf | PInf, PInf => false
  | NInf, _ => true
  | _, PInf => true
  | _, _ => false
  end.

Definition fgtb (a b : fval) : bool := fltb b a.
Definition fgeb (a b : fval) : bool := fleb b a.

Definition feqb (a b : fval) : bool :=
  match a, b with
  | Fin x, Fin y => Qeq_bool x y
  | PInf, PInf | NInf, NInf => true
  | _, _ => false
  end.

Definition of_Z (z : Z) : fval := Fin (inject_Z z).

(** [np.mean] of a sequence: not-a-number on the empty sequence *)
Definition fsum (l : list fval) : fval := foldr fadd (Fin 0) l.

Definition fmean (l : list fval) : fval :=
  match l with
  | [] => NaN
  | _ => fdiv (fsum l) (of_Z (Z.of_nat (length l)))
  end.

(** [np.nanmean]: the mean of the entries that are numbers *)
Definition nanmean (l : list fval) : fval :=
  fmean (filter (fun v => is_nan v = false) l).

End Float.
Export Float.

(** ** Grids: 2-D arrays as lists of rows *)

Abbreviation grid A := (list (list A)) (only parsing).

(** the shape of an array, as the lengths of its rows *)
Definition shape {A} (g : grid A) : list nat := map length g.

Definition grid_map {A B} (f : A -> B) (g : grid A) : grid B :=
  map (map f) g.

Definition grid_zip_with {A B C} (f : A -> B -> C)
    (a : grid A) (b : grid B) : grid C :=
  zip_with (zip_with f) a b.

(** the pixel in row [i], column [j] *)
Definition pix {A} (g : grid A) (i j : nat) : option A :=
  g !! i ≫= (.!! j).

(** [a.size] *)
Definition grid_size {A} (g : grid A) : nat := length (concat g).

(** [np.nansum] of a boolean array: the number of true entries *)
Definition count_true (g : grid bool) : nat :=
  length (filter (fun b => b = true) (concat g)).

(** [m[cond] = v]: assignment through a boolean index array *)
Definition assign_where {A} (cond : grid bool) (v : A) (m : grid A) : grid A :=
  grid_zip_with (fun c old => if c : bool then v else old) cond m.

(** ** Exceptions, the log and the store of mask arrays *)

Inductive exn : Type :=
  | NotApplicableError (msg : string)
  | AttributeError (attr : string)
  | TypeError
  | ValueError
  | IndexError
  | KeyError
  | PlotError.

Inductive level : Type := LDebug | LInfo | LWarning.

Inductive message : Type :=
  | MsgText (s : string)
  | MsgThreshold (s : string) (t : Q)
  | MsgStats (name : string) (size num inmask_num new_masked remain : nat).

Definition record : Type := level * message.

(** addresses of mask arrays *)
Abbreviation loc := nat (only parsing).

Record state : Type := mkState {
  heap : list (grid bool);
  log : list record
}.

Inductive outcome (A : Type) : Type :=
  | Ok (a : A)
  | Raise (e : exn).
Arguments Ok {A} a.
Arguments Raise {A} e.

(** computations that read and update the state and may raise *)
Definition M (A : Type) : Type := state -> outcome A * state.

Definition ret {A} (a : A) : M A := fun s => (Ok a, s).

Definition bind {A B} (m : M A) (k : A -> M B) : M B :=
  fun s =>
    match m s with
    | (Ok a, s') => k a s'
    | (Raise e, s') => (Raise e, s')
    end.

Definition raise {A} (e : exn) : M A := fun s => (Raise e, s).

(** stdpp's notations [x ← m; k] and [m;; k] are used for [bind] *)
#[global] Instance M_ret : MRet M := @ret.
#[global] Instance M_bind : MBind M := fun A B k m => bind m k.

Definition logger (l : level) (msg : message) : M unit :=
  fun s => (Ok tt, mkState (heap s) (log s ++ [(l, msg)])).

(** a new array *)
Definition alloc (m : grid bool) : M loc :=
  fun s => (Ok (length (heap s)), mkState (heap s ++ [m]) (log s)).

Definition read (l : loc) : M (grid bool) :=
  fun s =>
    match heap s !! l with
    | Some m => (Ok m, s)
    | None => (Raise TypeError, s)
    end.

(** in-place update of the array at [l] *)
Definition write (l : loc) (m : grid bool) : M unit :=
  fun s => (Ok tt, mkState (<[l := m]> (heap s)) (log s)).

Definition of_option {A} (e : exn) (o : option A) : M A :=
  match o with
  | Some a => ret a
  | None => raise e
  end.

Fixpoint for_each {A} (l : list A) (body : A -> M unit) : M unit :=
  match l with
  | [] => ret tt
  | x :: l' => body x;; for_each l' body
  end.

(** element-wise operation on two arrays.  Arrays of one filter call share
    one shape; on differing shapes numpy broadcasts or raises, which the
    model does not follow: it raises [ValueError]. *)
Definition zip_grids {A B C} (f : A -> B -> C)
    (a : grid A) (b : grid B) : M (grid C) :=
  if decide (shape a = shape b) then ret (grid_zip_with f a b)
  else raise ValueError.

(** ** Values of attributes, library routines and filter objects *)

Inductive value : Type :=
  | VArray (g : grid fval)                 (* float ndarray *)
  | VBool (g : grid bool)                  (* boolean ndarray *)
  | VLabels (g : grid Z) (mask : loc)      (* masked integer array *)
  | VDict (d : list (Z * list fval))       (* dict: label -> observations *)
  | VTime (t : Z)                          (* datetime *)
  | VOther.

(** What the filters take from numpy, scipy, pyorbital, the 1-D cloud
    model and the worker pool.  A routine that may raise returns an
    option, [None] when it raises. *)
Record Externals : Type := mkExternals {
  (* datetime.now() *)
  now : Z;
  (* np.histogram(x, bins='auto'): counts and bin edges *)
  histogram : list fval -> option (list Z * list Q);
  (* scipy.signal.find_peaks_cwt(vector, widths) *)
  find_peaks_cwt : list Z -> list nat -> option (list nat);
  (* pyorbital astronomy.sun_zenith_angle(time, lon, lat) *)
  sun_zenith_angle : Z -> grid fval -> grid fval -> option (grid fval);
  (* 1 / np.cos(np.deg2rad(x)) *)
  sec_deg : fval -> fval;
  (* the number of components found by ndimage.label *)
  ndimage_label : grid bool -> option nat;
  (* ndimage.standard_deviation(input, labels, index), the labels being a
     masked array given by its data and its mask *)
  standard_deviation :
    grid fval -> grid Z -> grid bool -> list Z -> option (list fval);
  (* row <= np.ma.masked, the comparison with the masked constant *)
  le_masked : list fval -> list bool;
  (* np.empty(shape): an array of arbitrary content *)
  np_empty : list nat -> grid fval;
  (* LowWaterCloud(cth, ctt, cwp, cbh=0, reff): false when it raises *)
  lwc_new : fval -> fval -> fval -> fval -> bool;
  (* get_cloud_base_height(-100, 'basin') and get_fog_base_height() of the
     model built from (cth, ctt, cwp, reff); None when the call raises *)
  lwc_cloud_base_height : fval -> fval -> fval -> fval -> option fval;
  lwc_fog_base_height : fval -> fval -> fval -> fval -> option fval;
  (* the order in which the n submitted tasks complete *)
  completion_order : nat -> list nat;
  (* plot_filter: false when plotting raises *)
  plot_filter : bool
}.

Inductive filter_class : Type :=
  | BaseArrayFilter
  | CloudFilter
  | SnowFilter
  | IceCloudFilter
  | CirrusCloudFilter
  | WaterCloudFilter
  | SpatialCloudTopHeightFilter
  | SpatialHomogeneityFilter
  | CloudPhysicsFilter
  | LowCloudFilter.

(** [self.__class__.__name__] *)
Definition class_name (c : filter_class) : string :=
  match c with
  | BaseArrayFilter => "BaseArrayFilter"
  | CloudFilter => "CloudFilter"
  | SnowFilter => "SnowFilter"
  | IceCloudFilter => "IceCloudFilter"
  | CirrusCloudFilter => "CirrusCloudFilter"
  | WaterCloudFilter => "WaterCloudFilter"
  | SpatialCloudTopHeightFilter => "SpatialCloudTopHeightFilter"
  | SpatialHomogeneityFilter => "SpatialHomogeneityFilter"
  | CloudPhysicsFilter => "CloudPhysicsFilter"
  | LowCloudFilter => "LowCloudFilter"
  end.

(** the class attribute [attrlist]; [BaseArrayFilter] declares none *)
Definition attrlist (c : filter_class) : option (list string) :=
  match c with
  | BaseArrayFilter => None
  | CloudFilter => Some ["ir108"; "ir039"]
  | SnowFilter => Some ["vis006"; "vis008"; "nir016"; "ir108"]
  | IceCloudFilter => Some ["ir120"; "ir087"; "ir108"]
  | CirrusCloudFilter => Some ["ir120"; "ir087"; "ir108"; "lat"; "lon"; "time"]
  | WaterCloudFilter => Some ["vis006"; "nir016"; "ir039"; "cloudmask"]
  | SpatialCloudTopHeightFilter => Some ["ir108"; "clusters"; "cluster_z"]
  | SpatialHomogeneityFilter => Some ["ir108"; "clusters"]
  | CloudPhysicsFilter => Some ["reff"; "cot"]
  | LowCloudFilter => Some ["lwp"; "cth"; "ir108"; "clusters"; "reff"; "elev"]
  end.

(** A filter object after [__init__]: [arr] with the address of its mask
    ([inmask]; [None] for a plain ndarray), and the keyword attributes. *)
Record filter_obj : Type := mkFilter {
  cls : filter_class;
  arr : grid fval;
  inmask : option loc;
  attrs : gmap string value;
  plot : bool
}.

(** a masked array: its data and the address of its mask *)
Record marray : Type := mkMarray {
  ma_data : grid fval;
  ma_mask : loc
}.

(** attributes every object has after [__init__], and the methods.
    ([hasattr] finds class attributes such as [lut] as well; no
    [attrlist] names one.) *)
Definition init_attrs : list string :=
  ["arr"; "inmask"; "result"; "mask"; "name"; "time"; "save"; "plot";
   "dir"; "bg_img"; "resize"; "nprocs"; "apply"; "isapplicable";
   "filter_function"; "check_results"; "filter_stats"; "plot_filter"].

Definition hasattr (self : filter_obj) (attr : string) : bool :=
  bool_decide (is_Some (attrs self !! attr)) || bool_decide (attr ∈ init_attrs).

(** ** The filters *)

Section Filters.

Context (E : Externals).

(** *** Reading attributes *)

Definition getattr (self : filter_obj) (attr : string) : M value :=
  of_option (AttributeError attr) (attrs self !! attr).

Definition get_array (self : filter_obj) (attr : string) : M (grid fval) :=
  v ← getattr self attr;
  match v with VArray g => ret g | _ => raise TypeError end.

Definition get_bool (self : filter_obj) (attr : string) : M (grid bool) :=
  v ← getattr self attr;
  match v with VBool g => ret g | _ => raise TypeError end.

Definition get_labels (self : filter_obj) (attr : string) : M (grid Z * loc) :=
  v ← getattr self attr;
  match v with VLabels g m => ret (g, m) | _ => raise TypeError end.

Definition get_dict (self : filter_obj) (attr : string)
    : M (list (Z * list fval)) :=
  v ← getattr self attr;
  match v with VDict d => ret d | _ => raise TypeError end.

(** [self.time]: the keyword [time], else the time of construction *)
Definition get_time (self : filter_obj) : M Z :=
  match attrs self !! "time" with
  | Some (VTime t) => ret t
  | Some _ => raise TypeError
  | None => ret (now E)
  end.

(** *** BaseArrayFilter *)

(** [np.ma.array(self.arr, mask=self.mask)]: the data of [arr] under the
    union of the given mask and the mask of [arr] ([keep_mask] is numpy's
    default).  The mask of the new array is a new array, except for a plain
    [arr], where it is the given mask itself.  A mask of another shape
    than [arr] is reshaped by numpy when the sizes agree and refused
    otherwise; the model raises [ValueError]. *)
Definition ma_array (self : filter_obj) (mask : loc) : M marray :=
  m ← read mask;
  if decide (shape m = shape (arr self)) then
    match inmask self with
    | None => ret (mkMarray (arr self) mask)
    | Some li =>
        im ← read li;
        rm ← zip_grids orb m im;
        l ← alloc rm;
        ret (mkMarray (arr self) l)
    end
  else raise ValueError.

(** the last two statements of every [filter_function]:
    [self.mask = mask; self.result = np.ma.array(self.arr, mask=self.mask)].
    The pair is ([self.result], [self.mask]).  The statements before them
    are given class by class as [<class>_mask]. *)
Definition set_result (self : filter_obj) (mask : loc) : M (marray * loc) :=
  r ← ma_array self mask;
  ret (r, mask).

Definition BaseArrayFilter_mask (self : filter_obj) : M loc :=
  alloc (grid_map (fun _ => true) (arr self)).

Definition isapplicable (self : filter_obj) : M bool :=
  al ← of_option (AttributeError "attrlist") (attrlist (cls self));
  foldr (fun attr rest =>
           if hasattr self attr then rest
           else
             logger LWarning (MsgText ("Missing input attribute: " ++ attr));;
             r ← rest; ret false)
        (ret true) al.

Definition filter_stats (self : filter_obj) (mask : loc) : M unit :=
  m ← read mask;
  let filter_size := grid_size m in
  let filter_num := count_true m in
  match inmask self with
  | None =>
      logger LInfo (MsgStats (class_name (cls self)) filter_size filter_num
                      0 filter_num (filter_size - filter_num))
  | Some li =>
      im ← read li;
      new ← zip_grids (fun i k => negb i && k) im m;
      remain ← zip_grids (fun k i => negb k && negb i) m im;
      logger LInfo (MsgStats (class_name (cls self)) filter_size filter_num
                      (count_true im) (count_true new) (count_true remain))
  end.

Definition check_results (self : filter_obj) (mask : loc) : M bool :=
  filter_stats self mask;;
  (if plot self then
     if plot_filter E then ret tt else raise PlotError
   else ret tt);;
  ret true.

(** *** CloudFilter *)

(** [np.diff] *)
Definition diff (l : list Z) : list Z := zip_with Z.sub (tail l) l.

(** [(cond).nonzero()[0]] *)
Definition nonzero (l : list bool) : list nat :=
  omap (fun p => if snd p : bool then Some (fst p) else None)
       (zip (seq 0 (length l)) l).

(** [(np.diff(np.sign(np.diff(counts))) > 0).nonzero()[0] + 1] *)
Definition localmin (counts : list Z) : list nat :=
  map S (nonzero (map (fun d => Z.ltb 0 d) (diff (map Z.sgn (diff counts))))).

(** [a[idx]] with an array of indices *)
Definition take_idx {A} (a : list A) (idx : list nat) : option (list A) :=
  mapM (fun i => a !! i) idx.

(** [np.max], [np.min] of a sequence of numbers; [None] when it is empty *)
Definition Qmaxb (x y : Q) : Q := if Qle_bool x y then y else x.
Definition Qminb (x y : Q) : Q := if Qle_bool x y then x else y.

Definition np_max (l : list Q) : option Q :=
  match l with
  | [] => None
  | x :: l' => Some (foldl Qmaxb x l')
  end.

Definition np_min (l : list Q) : option Q :=
  match l with
  | [] => None
  | x :: l' => Some (foldl Qminb x l')
  end.

(** [np.arange(1, len(edges) / 10)], with Python 2's integer division *)
Definition peak_widths (edges : list Q) : list nat :=
  seq 1 (length edges / 10 - 1).

(** [hist[1][peakind]] restricted to [-10, 10) *)
Definition peakrange (counts : list Z) (edges : list Q) : option (list Q) :=
  peakind ← find_peaks_cwt E counts (peak_widths edges);
  pe ← take_idx edges peakind;
  Some (filter (fun e => Qle_bool (-10) e && Qltb e 10 = true) pe).

(** [thres_index]: the local minima whose bin edge lies between the peaks
    and below 0.5 *)
Definition thres_index (counts : list Z) (edges : list Q)
    (minpeak maxpeak : Q) : option (list nat) :=
  le ← take_idx edges (localmin counts);
  Some (map fst
          (filter (fun p => Qle_bool (snd p) maxpeak && Qle_bool minpeak (snd p)
                              && Qltb (snd p) (1 # 2) = true)
                  (zip (localmin counts) le))).

(** [hist[1][thres_index]]: the bin edges the threshold is chosen from *)
Definition candidates (counts : list Z) (edges : list Q) : option (list Q) :=
  pr ← peakrange counts edges;
  minpeak ← np_min pr;
  maxpeak ← np_max pr;
  ti ← thres_index counts edges minpeak maxpeak;
  take_idx edges ti.

Definition CloudFilter_mask (self : filter_obj) : M loc :=
  logger LInfo (MsgText "Applying Cloud Filter");;
  ir108 ← get_array self "ir108";
  ir039 ← get_array self "ir039";
  cm_diff ← zip_grids fsub ir108 ir039;
  hist ← of_option ValueError (histogram E (concat cm_diff));
  pr ← of_option IndexError (peakrange (fst hist) (snd hist));
  minpeak ← of_option ValueError (np_min pr);
  maxpeak ← of_option ValueError (np_max pr);
  logger LDebug (MsgText "Histogram range for cloudy/clear sky pixels");;
  ti ← of_option IndexError (thres_index (fst hist) (snd hist) minpeak maxpeak);
  cand ← of_option IndexError (take_idx (snd hist) ti);
  thres ← of_option ValueError (np_max cand);
  (if Qltb 0 thres || Qltb thres (-5) then
     logger LWarning
       (MsgThreshold "Cloud maks difference threshold outside normal range (from -5 to 0)" thres)
   else
     logger LDebug (MsgThreshold "Cloud mask difference threshold set to" thres));;
  alloc (grid_map (fun d => fgtb d (Fin thres)) cm_diff).

(** *** SnowFilter *)

Definition SnowFilter_mask (self : filter_obj) : M loc :=
  logger LInfo (MsgText "Applying Snow Filter");;
  vis006 ← get_array self "vis006";
  nir016 ← get_array self "nir016";
  num ← zip_grids fsub vis006 nir016;
  den ← zip_grids fadd vis006 nir016;
  ndsi ← zip_grids fdiv num den;
  vis008 ← get_array self "vis008";
  ir108 ← get_array self "ir108";
  temp_thres ← zip_grids andb
    (grid_map (fun v => fgeb (fdiv v (of_Z 100)) (Fin 0.11)) vis008)
    (grid_map (fun v => fgeb v (of_Z 256)) ir108);
  let ndsi_thres := grid_map (fun v => fgeb v (Fin 0.4)) ndsi in
  m ← zip_grids andb temp_thres ndsi_thres;
  alloc m.

(** *** IceCloudFilter *)

Definition IceCloudFilter_mask (self : filter_obj) : M loc :=
  logger LInfo (MsgText "Applying Snow Filter");;
  ir120 ← get_array self "ir120";
  ir087 ← get_array self "ir087";
  ir108 ← get_array self "ir108";
  ic_diff ← zip_grids fsub ir120 ir087;
  ice_mask ← zip_grids orb
    (grid_map (fun v => fltb v (Fin 2.5)) ic_diff)
    (grid_map (fun v => fltb v (of_Z 250)) ir108);
  alloc ice_mask.

(** *** CirrusCloudFilter *)

(** [np.argmin]: the index of the first least entry; not-a-number counts
    as least *)
Fixpoint argmin_from (best_i : nat) (best : fval) (i : nat) (l : list fval)
    : nat :=
  match l with
  | [] => best_i
  | x :: l' =>
      if negb (is_nan best) && (is_nan x || fltb x best)
      then argmin_from i x (S i) l'
      else argmin_from best_i best (S i) l'
  end.

Definition argmin (l : list fval) : option nat :=
  match l with
  | [] => None
  | x :: l' => Some (argmin_from 0 x 1 l')
  end.

Definition sza_opt : list Q := [1.0%Q; 1.25%Q; 1.50%Q; 1.75%Q; 2.0%Q].
Definition bt_opt : list Z := [260; 270; 280; 290; 300; 310]%Z.

Definition find_nearest_lut_sza (sza : fval) : option Q :=
  sza_idx ← argmin (map (fun i => fabs (fsub sza (Fin i))) sza_opt);
  sza_opt !! sza_idx.

Definition find_nearest_lut_bt (bt : fval) : option Z :=
  bt_idx ← argmin (map (fun i => fabs (fsub bt (of_Z i))) bt_opt);
  bt_opt !! bt_idx.

(** the lookup table: brightness temperature, then sec(sun zenith angle) *)
Definition lut : list (Z * list (Q * Q)) :=
  [(260%Z, [(1.0%Q, 0.55%Q); (1.25%Q, 0.60%Q); (1.50%Q, 0.65%Q);
            (1.75%Q, 0.90%Q); (2.0%Q, 1.10%Q)]);
   (270%Z, [(1.0%Q, 0.58%Q); (1.25%Q, 0.63%Q); (1.50%Q, 0.81%Q);
            (1.75%Q, 1.03%Q); (2.0%Q, 1.13%Q)]);
   (280%Z, [(1.0%Q, 1.30%Q); (1.25%Q, 1.61%Q); (1.50%Q, 1.88%Q);
            (1.75%Q, 2.14%Q); (2.0%Q, 2.30%Q)]);
   (290%Z, [(1.0%Q, 3.06%Q); (1.25%Q, 3.72%Q); (1.50%Q, 3.95%Q);
            (1.75%Q, 4.27%Q); (2.0%Q, 4.73%Q)]);
   (300%Z, [(1.0%Q, 5.77%Q); (1.25%Q, 6.92%Q); (1.50%Q, 7.00%Q);
            (1.75%Q, 7.42%Q); (2.0%Q, 8.43%Q)]);
   (310%Z, [(1.0%Q, 9.41%Q); (1.25%Q, 11.22%Q); (1.50%Q, 11.03%Q);
            (1.75%Q, 11.60%Q); (2.0%Q, 13.39%Q)])].

(** [d[key]] of a dict given as its items; [None] is a [KeyError] *)
Fixpoint dict_get {K V} (eqb : K -> K -> bool) (key : K) (d : list (K * V))
    : option V :=
  match d with
  | [] => None
  | (k, v) :: d' => if eqb k key then Some v else dict_get eqb key d'
  end.

(** [self.lut[bt][sza]] *)
Definition apply_lut (sza : Q) (bt : Z) : option Q :=
  row ← dict_get Z.eqb bt lut;
  dict_get Qeq_bool sza row.

(** the threshold of one pixel: the three vectorized calls in a row *)
Definition bt_thres_at (secsza bt : fval) : option Q :=
  ks ← find_nearest_lut_sza secsza;
  kb ← find_nearest_lut_bt bt;
  apply_lut ks kb.

(** a function applied entry by entry, as [np.vectorize] does *)
Definition grid_mapM {A B} (f : A -> option B) (g : grid A) : option (grid B) :=
  mapM (mapM f) g.

(** [np.min] and [np.max] raise on an array without entries *)
Definition require_entries {A} (g : grid A) : M unit :=
  match concat g with
  | [] => raise ValueError
  | _ => ret tt
  end.

Definition CirrusCloudFilter_mask (self : filter_obj) : M loc :=
  logger LInfo (MsgText "Applying Cirrus Filter");;
  ir108 ← get_array self "ir108";
  ir120 ← get_array self "ir120";
  bt_diff ← zip_grids fsub ir108 ir120;
  time ← get_time self;
  lon ← get_array self "lon";
  lat ← get_array self "lat";
  sza ← of_option ValueError (sun_zenith_angle E time lon lat);
  require_entries sza;;
  logger LDebug (MsgText "Found solar zenith angles");;
  let secsza := grid_map (sec_deg E) sza in
  secsza_lut ← of_option IndexError (grid_mapM find_nearest_lut_sza secsza);
  chn108_ma_lut ← of_option IndexError (grid_mapM find_nearest_lut_bt ir108);
  keys ← zip_grids pair secsza_lut chn108_ma_lut;
  bt_thres ← of_option KeyError
    (grid_mapM (fun k => apply_lut (fst k) (snd k)) keys);
  require_entries bt_thres;;
  logger LDebug (MsgText "Set BT difference thresholds for cirrus");;
  bt_ci_mask ← zip_grids (fun d t => fgtb d (Fin t)) bt_diff bt_thres;
  ir087 ← get_array self "ir087";
  strong_ci_diff ← zip_grids fsub ir087 ir108;
  let strong_ci_mask := grid_map (fun d => fgtb d (Fin 0)) strong_ci_diff in
  cirrus_mask ← zip_grids orb bt_ci_mask strong_ci_mask;
  alloc cirrus_mask.

(** *** WaterCloudFilter *)

(** the mean of the unmasked entries of a row; [None] is numpy's masked
    constant, the mean of a row without unmasked entries *)
Definition ma_mean (l : list (option fval)) : option fval :=
  match omap id l with
  | [] => None
  | vals => Some (fmean vals)
  end.

(** [find_watercloud(lat, thres)] at row number [line]; [glob] is
    [np.mean(self.lat_cloudfree)] *)
Definition find_watercloud (lat_cloudfree : list (option fval))
    (lat : list fval) (line : nat) : M (list bool) :=
  match lat with
  | [] => ret []
  | _ =>
      t ← of_option IndexError (lat_cloudfree !! line);
      match t with
      | None =>
          match ma_mean lat_cloudfree with
          | None => ret (le_masked E lat)
          | Some glob => ret (map (fun v => fleb v glob) lat)
          end
      | Some thres => ret (map (fun v => fleb v thres) lat)
      end
  end.

(** [np.apply_along_axis(self.find_watercloud, 1, ir039, lat_cloudfree)];
    the counter [self.line] is passed from row to row *)
Fixpoint apply_rows (lat_cloudfree : list (option fval))
    (rows : grid fval) (line : nat) : M (grid bool) :=
  match rows with
  | [] => ret []
  | lat :: rows' =>
      res ← find_watercloud lat_cloudfree lat line;
      rest ← apply_rows lat_cloudfree rows' (S line);
      ret (res :: rest)
  end.

Definition WaterCloudFilter_mask (self : filter_obj) : M loc :=
  logger LInfo (MsgText "Applying Water Cloud Filter");;
  vis006 ← get_array self "vis006";
  nir016 ← get_array self "nir016";
  num ← zip_grids fsub vis006 nir016;
  den ← zip_grids fadd vis006 nir016;
  ndsi_ci ← zip_grids fdiv num den;
  let water_mask := grid_map (fun v => fgtb v (Fin 0.1)) ndsi_ci in
  cloudmask ← get_bool self "cloudmask";
  ir039 ← get_array self "ir039";
  cloud_free_ma ← zip_grids (fun c v => if c : bool then Some v else None)
                             cloudmask ir039;
  let lat_cloudfree := map ma_mean cloud_free_ma in
  logger LDebug (MsgText "Mean latitudinal threshold for cloudfree areas");;
  (match ir039 with [] => raise ValueError | _ => ret tt end);;
  drop_mask ← apply_rows lat_cloudfree ir039 0;
  m ← zip_grids orb water_mask drop_mask;
  alloc m.

(** *** The cluster filters *)

(** [clusters == key] for the masked label array: true at the unmasked
    entries that carry the label.  (A masked entry compares unequal to any
    label other than the fill value 0.) *)
Definition label_eq (labels : grid Z) (mask : grid bool) (key : Z)
    : M (grid bool) :=
  zip_grids (fun l m => negb m && Z.eqb l key) labels mask.

(** [any([c > 2000 for c in item])] *)
Definition too_high (item : list fval) : bool :=
  existsb (fun c => fgtb c (of_Z 2000)) item.

(** SpatialCloudTopHeightFilter.  [cluster_mask] is the mask of the label
    array itself and is updated in place.  The additional map
    [self.cluster_cth], a copy of the labels that receives [np.mean(item)]
    for the clusters that pass, is not part of the result and is left out;
    that mean is not-a-number for a cluster without observations, for
    which the results below make no statement. *)
Definition SpatialCloudTopHeightFilter_mask (self : filter_obj) : M loc :=
  logger LInfo (MsgText "Applying Spatial Clustering Cloud Top Height Filter");;
  c ← get_labels self "clusters";
  let '(clusters, cluster_mask) := c in
  cluster_z ← get_dict self "cluster_z";
  for_each cluster_z (fun kv =>
    if too_high (snd kv) then
      cm ← read cluster_mask;
      cond ← label_eq clusters cm (fst kv);
      write cluster_mask (assign_where cond true cm)
    else ret tt);;
  ret cluster_mask.

(** [np.arange(1, nlbl+1)] *)
Definition label_range (nlbl : nat) : list Z :=
  map Z.of_nat (seq 1 nlbl).

(** SpatialHomogeneityFilter.  [cluster_mask] is [self.inmask], the mask of
    [arr], and is updated in place.  For a plain [arr] it is [None]: the
    assignment through it raises [TypeError], and without any cluster the
    statistics of [apply()] raise on the mask [None]; the model raises at
    the first statement. *)
Definition SpatialHomogeneityFilter_mask (self : filter_obj) : M loc :=
  logger LInfo (MsgText "Applying Spatial Clustering Inhomogeneity Filter");;
  cluster_mask ← of_option TypeError (inmask self);
  c ← get_labels self "clusters";
  let '(clusters, clmask_loc) := c in
  clmask ← read clmask_loc;
  nlbl ← of_option ValueError (ndimage_label E (grid_map negb clmask));
  im ← read cluster_mask;
  (* cluster_ma = np.ma.masked_where(self.inmask, self.clusters) *)
  cluster_ma_mask ← zip_grids orb im clmask;
  ir108 ← get_array self "ir108";
  cluster_sd ← of_option ValueError
    (standard_deviation E ir108 clusters cluster_ma_mask (label_range nlbl));
  let sd_mask := map (fun sd => fgtb sd (Fin 2.5)) cluster_sd in
  cluster_dict ← of_option IndexError
    (mapM (fun key => b ← sd_mask !! (Z.to_nat key - 1); Some (key, b))
          (label_range nlbl));
  for_each (label_range nlbl) (fun val =>
    b ← of_option KeyError (dict_get Z.eqb val cluster_dict);
    cm ← read cluster_mask;
    cond ← label_eq clusters cluster_ma_mask val;
    write cluster_mask (assign_where cond b cm));;
  ret cluster_mask.

(** *** CloudPhysicsFilter *)

Definition CloudPhysicsFilter_mask (self : filter_obj) : M loc :=
  logger LInfo (MsgText "Applying Spatial Clustering Inhomogenity Filter");;
  cot ← get_array self "cot";
  reff ← get_array self "reff";
  cpp_mask ← zip_grids orb
    (grid_map (fun v => fgtb v (of_Z 30)) cot)
    (grid_map (fun v => fgtb v (Fin 20e-6)) reff);
  alloc cpp_mask.

(** *** LowCloudFilter *)

(** correction factor for 3.7 um LWP retrievals *)
Definition lwp_corr : fval := Fin 0.88.

(** [result[key].append(val)] on the dict of lists; a new key goes last *)
Fixpoint dict_append (key : Z) (val : fval) (d : list (Z * list fval))
    : list (Z * list fval) :=
  match d with
  | [] => [(key, [val])]
  | (k, vs) :: d' =>
      if Z.eqb k key then (k, vs ++ [val]) :: d'
      else (k, vs) :: dict_append key val d'
  end.

(** the body of the loop of [get_cluster_mean] for one array entry *)
Definition cluster_entry (exclude : list fval) (noneg : bool)
    (result : list (Z * list fval)) (kv : Z * fval) : list (Z * list fval) :=
  let '(key, val) := kv in
  if Z.eqb key 0 then result
  else
    let val :=
      if existsb (feqb val) exclude then NaN
      else if fltb val (Fin 0) && noneg then NaN
      else val in
    dict_append key val result.

(** [get_cluster_mean(clusters, values, exclude, noneg)]; [clusters] is
    the label array with its masked entries filled with 0.  The dict is
    given by its items, in the order in which the labels first occur. *)
Definition get_cluster_mean (clusters : grid Z) (values : grid fval)
    (exclude : list fval) (noneg : bool) : M (list (Z * fval)) :=
  entries ← zip_grids pair clusters values;
  let result := foldl (cluster_entry exclude noneg) [] (concat entries) in
  ret (map (fun kv => (fst kv, nanmean (snd kv))) result).

(** [get_fog_base_height(cwp, cth, ctt, reff)]: [None] when building the
    model raises (outside the [try]), else the pair of heights, both
    not-a-number when either call of the model raises *)
Definition get_fog_base_height (cwp cth ctt reff : fval)
    : option (fval * fval) :=
  let cwp' := fmul cwp lwp_corr in
  if lwc_new E cth ctt cwp' reff then
    match lwc_cloud_base_height E cth ctt cwp' reff,
          lwc_fog_base_height E cth ctt cwp' reff with
    | Some cbh, Some fbh => Some (cbh, fbh)
    | _, _ => Some (NaN, NaN)
    end
  else None.

(** the units of work handed to the pool, one for each key of
    [lwp_cluster] in the order of [keys()] *)
Definition workinputs (lwp_cluster cth_cluster ctt_cluster reff_cluster
    : list (Z * fval)) : M (list (fval * fval * fval * fval)) :=
  of_option KeyError
    (mapM (fun key =>
             lwp ← dict_get Z.eqb key lwp_cluster;
             cth ← dict_get Z.eqb key cth_cluster;
             ctt ← dict_get Z.eqb key ctt_cluster;
             reff ← dict_get Z.eqb key reff_cluster;
             Some (lwp, cth, ctt, reff))
          (map fst lwp_cluster)).

(** [self.result_list] after [pool.join()]: [log_result] has appended the
    result of every task that returned one, in the order of completion *)
Definition result_list (tasks : list (fval * fval * fval * fval))
    : list (fval * fval) :=
  omap (fun i =>
          w ← tasks !! i;
          let '(lwp, cth, ctt, reff) := w in
          get_fog_base_height lwp cth ctt reff)
       (completion_order E (length tasks)).

(** the loop over [enumerate(self.result_list)], from index [i] *)
Fixpoint write_results (self : filter_obj) (clusters : grid Z) (fog_mask : loc)
    (keys : list Z) (i : nat) (results : list (fval * fval))
    (cbh fbh : grid fval) : M (grid fval * grid fval) :=
  match results with
  | [] => ret (cbh, fbh)
  | res :: results' =>
      key ← of_option IndexError (keys !! i);
      cm ← read fog_mask;
      cond ← label_eq clusters cm key;
      cbh' ← zip_grids (fun c old => if c : bool then fst res else old) cond cbh;
      fbh' ← zip_grids (fun c old => if c : bool then snd res else old) cond fbh;
      elev ← get_array self "elev";
      above ← zip_grids (fun f e => fgtb (fsub f e) (Fin 0)) fbh' elev;
      cond2 ← zip_grids andb cond above;
      write fog_mask (assign_where cond2 true cm);;
      write_results self clusters fog_mask keys (S i) results' cbh' fbh'
  end.

(** the body of [LowCloudFilter.filter_function] up to the mask:
    [self.cbh], [self.fbh] and [self.fog_mask], which is the mask of the
    label array itself *)
Definition LowCloudFilter_heights (self : filter_obj)
    : M (grid fval * grid fval * loc) :=
  logger LInfo (MsgText "Applying Low Cloud Filter");;
  c ← get_labels self "clusters";
  let '(clusters, fog_mask) := c in
  let cbh := np_empty E (shape clusters) in
  let fbh := np_empty E (shape clusters) in
  lwp ← get_array self "lwp";
  cth ← get_array self "cth";
  ir108 ← get_array self "ir108";
  reff ← get_array self "reff";
  cm ← read fog_mask;
  filled ← zip_grids (fun l m => if m : bool then 0%Z else l) clusters cm;
  lwp_cluster ← get_cluster_mean filled
    (grid_map (fun v => fmul v (of_Z 1000)) lwp) [of_Z 0] true;
  cth_cluster ← get_cluster_mean filled cth [of_Z 0] true;
  ctt_cluster ← get_cluster_mean filled ir108 [of_Z 0] true;
  reff_cluster ← get_cluster_mean filled reff [] false;
  logger LInfo (MsgText "Run low cloud models");;
  tasks ← workinputs lwp_cluster cth_cluster ctt_cluster reff_cluster;
  let results := result_list tasks in
  let keys := map fst lwp_cluster in
  hs ← write_results self clusters fog_mask keys 0 results cbh fbh;
  ret (fst hs, snd hs, fog_mask).

Definition LowCloudFilter_mask (self : filter_obj) : M loc :=
  r ← LowCloudFilter_heights self;
  ret (snd r).

(** *** Dispatch on the class, and [apply] *)

(** the statements of [filter_function] that compute [self.mask] *)
Definition filter_mask (self : filter_obj) : M loc :=
  match cls self with
  | BaseArrayFilter => BaseArrayFilter_mask self
  | CloudFilter => CloudFilter_mask self
  | SnowFilter => SnowFilter_mask self
  | IceCloudFilter => IceCloudFilter_mask self
  | CirrusCloudFilter => CirrusCloudFilter_mask self
  | WaterCloudFilter => WaterCloudFilter_mask self
  | SpatialCloudTopHeightFilter => SpatialCloudTopHeightFilter_mask self
  | SpatialHomogeneityFilter => SpatialHomogeneityFilter_mask self
  | CloudPhysicsFilter => CloudPhysicsFilter_mask self
  | LowCloudFilter => LowCloudFilter_mask self
  end.

(** [filter_function()] of the class of [self]; every class ends it with
    [self.mask = mask; self.result = np.ma.array(self.arr, mask=self.mask)] *)
Definition filter_function (self : filter_obj) : M (marray * loc) :=
  mask ← filter_mask self;
  set_result self mask.

(** [apply()]: the pair ([self.result], [self.mask]) *)
Definition apply (self : filter_obj) : M (marray * loc) :=
  ok ← isapplicable self;
  if ok : bool then
    r ← filter_function self;
    check_results self (snd r);;
    ret r
  else
    raise (NotApplicableError
             ("Array filter <" ++ class_name (cls self) ++ "> is not applicable")).

End Filters.

(** ** A sample environment

    Values of the library routines on the small inputs on which the model
    is run below: one component, standard deviation 0 (the sample clusters
    are connected and of constant brightness temperature), a sun zenith
    angle handed over in the latitude array and already as its secant, a
    cloud model that returns the cluster's mean cloud top height as cloud
    base and the corrected water path as fog base and fails on an
    undefined water path, arrays created empty filled with zeros, and
    tasks that complete in the order of submission. *)
Definition sample_externals : Externals := {|
  now := 0;
  histogram := fun _ => Some ([], []);
  find_peaks_cwt := fun _ _ => Some [];
  sun_zenith_angle := fun _ _ lat => Some lat;
  sec_deg := fun x => x;
  ndimage_label := fun _ => Some 1;
  standard_deviation := fun _ _ _ index => Some (map (fun _ => Fin 0) index);
  le_masked := fun row => map (fun _ => false) row;
  np_empty := fun sh => map (fun n => replicate n (Fin 0)) sh;
  lwc_new := fun _ _ _ _ => true;
  lwc_cloud_base_height := fun cth _ cwp _ =>
    if is_nan cwp then None else Some cth;
  lwc_fog_base_height := fun _ _ cwp _ => Some cwp;
  completion_order := fun n => seq 0 n;
  plot_filter := true
|}.

(** the same, with the tasks completing in reverse order *)
Definition reversed_externals : Externals := {|
  now := now sample_externals;
  histogram := histogram sample_externals;
  find_peaks_cwt := find_peaks_cwt sample_externals;
  sun_zenith_angle := sun_zenith_angle sample_externals;
  sec_deg := sec_deg sample_externals;
  ndimage_label := ndimage_label sample_externals;
  standard_deviation := standard_deviation sample_externals;
  le_masked := le_masked sample_externals;
  np_empty := np_empty sample_externals;
  lwc_new := lwc_new sample_externals;
  lwc_cloud_base_height := lwc_cloud_base_height sample_externals;
  lwc_fog_base_height := lwc_fog_base_height sample_externals;
  completion_order := fun n => rev (seq 0 n);
  plot_filter := plot_filter sample_externals
|}.

(** the same, with a histogram of six bins between -6 and 0 whose peaks
    are found in the first and the last but one bin *)
Definition sample_cloud_externals : Externals := {|
  now := now sample_externals;
  histogram := fun _ =>
    Some ([5; 3; 4; 2; 1; 6]%Z,
          [(-6)%Q; (-5)%Q; (-4)%Q; (-3)%Q; (-2)%Q; (-1)%Q; 0%Q]);
  find_peaks_cwt := fun _ _ => Some [0; 5];
  sun_zenith_angle := sun_zenith_angle sample_externals;
  sec_deg := sec_deg sample_externals;
  ndimage_label := ndimage_label sample_externals;
  standard_deviation := standard_deviation sample_externals;
  le_masked := le_masked sample_externals;
  np_empty := np_empty sample_externals;
  lwc_new := lwc_new sample_externals;
  lwc_cloud_base_height := lwc_cloud_base_height sample_externals;
  lwc_fog_base_height := lwc_fog_base_height sample_externals;
  completion_order := completion_order sample_externals;
  plot_filter := plot_filter sample_externals
|}.

(** a filter object built from a class, [arr] and keyword attributes *)
Definition new_filter (c : filter_class) (a : grid fval) (m : option loc)
    (kwargs : list (string * value)) : filter_obj :=
  mkFilter c a m (list_to_map kwargs) false.

(** ** Sample inputs

    Small scenes on which the filters are run in the examples below.  The
    store of each is given next to it. *)


(** two pixels with channel differences -3 and 1 *)
Definition sample_cloud : filter_obj :=
  new_filter CloudFilter [[Fin 270; Fin 280]] None
    [("ir108", VArray [[Fin 270; Fin 280]]);
     ("ir039", VArray [[Fin 273; Fin 279]])].






(** one pixel that passes both ice cloud tests *)
Definition sample_ice : filter_obj :=
  new_filter IceCloudFilter [[Fin 1]] (Some 0)
    [("ir120", VArray [[Fin 10]]); ("ir087", VArray [[Fin 0]]);
     ("ir108", VArray [[Fin 280]])].

(** the store holds the mask of [arr], whose only pixel is masked *)
Definition sample_ice_state : state := mkState [[[true]]] [].

(** a snow filter built without [vis008] and [nir016] *)
Definition sample_snow_missing : filter_obj :=
  new_filter SnowFilter [[Fin 1]] None
    [("vis006", VArray [[Fin 0.5]]); ("ir108", VArray [[Fin 280]])].

(** a snow filter whose inputs have three different shapes *)
Definition sample_snow_mismatched : filter_obj :=
  new_filter SnowFilter [[Fin 1]] None
    [("vis006", VArray [[Fin 0.5]]);
     ("vis008", VArray [[Fin 20; Fin 30]]);
     ("nir016", VArray [[Fin 0.1]; [Fin 0.2]; [Fin 0.3]]);
     ("ir108", VArray [[Fin 280]])].

(** two clusters of one pixel each, labels 1 and 2 *)
Definition sample_lowcloud (lwp : grid fval) : filter_obj :=
  new_filter LowCloudFilter [[Fin 280; Fin 281]] None
    [("lwp", VArray lwp);
     ("cth", VArray [[of_Z 300; of_Z 400]]);
     ("ir108", VArray [[Fin 280; Fin 281]]);
     ("clusters", VLabels [[1; 2]]%Z 0);
     ("reff", VArray [[Fin 1e-5; Fin 1e-5]]);
     ("elev", VArray [[of_Z 50; of_Z 50]])].

(** the store holds the mask of the label grid, without masked entry *)
Definition sample_lowcloud_state : state := mkState [[[false; false]]] [].

(** ** Vocabulary of the properties *)

(** the mask of [arr], when it has one, is in the store and has the shape
    of [arr] *)
Definition inmask_ok (self : filter_obj) (h : list (grid bool)) : Prop :=
  forall li, inmask self = Some li ->
    exists im, h !! li = Some im /\ shape im = shape (arr self).

(** the new entries of the log written by a computation *)
Definition new_log (s s' : state) : list record :=
  drop (length (log s)) (log s').






(** a mask array that only gained masked pixels *)
Definition grows (g g1 : grid bool) : Prop :=
  shape g1 = shape g /\
  forall i j, pix g i j = Some true -> pix g1 i j = Some true.

(** the store after a filter that returns the mask array [m]: every other
    array is as before, and [m], if it existed, only gained masked pixels *)
Definition evolves (m : loc) (h h1 : list (grid bool)) : Prop :=
  length h <= length h1 /\
  (forall l g, l <> m -> h !! l = Some g -> h1 !! l = Some g) /\
  (forall g, h !! m = Some g -> exists g1, h1 !! m = Some g1 /\ grows g g1).

(** computations that leave the store as it is *)
Definition heap_pure {A} (c : M A) : Prop :=
  forall s a s', c s = (Ok a, s') -> heap s' = heap s.

(** computations that return a new array and leave the others as they are *)
Definition allocates (c : M loc) : Prop :=
  forall s l s', c s = (Ok l, s') ->
    l = length (heap s) /\ exists m, heap s' = heap s ++ [m].

(** computations after which the store has evolved around the array [m] *)
Definition updates {A} (m : loc) (c : M A) : Prop :=
  forall s a s', c s = (Ok a, s') -> evolves m (heap s) (heap s').

(** what a computation returns, whatever the state *)
Definition returns {A} (c : M A) (Q : A -> Prop) : Prop :=
  forall s a s', c s = (Ok a, s') -> Q a.

(** the warnings logged for the attributes of a list that are missing *)
Definition missing_warnings (self : filter_obj) (al : list string)
    : list record :=
  map (fun attr => (LWarning, MsgText ("Missing input attribute: " ++ attr)))
      (filter (fun attr => hasattr self attr = false) al).

(** the entries of a grid of heights are the given numbers *)
Definition heights_are (g : grid fval) (expected : grid fval) : bool :=
  bool_decide (shape g = shape expected) &&
  forallb (fun p => feqb (fst p) (snd p) || (is_nan (fst p) && is_nan (snd p)))
          (concat (grid_zip_with pair g expected)).

(** ** Further sample inputs and vocabulary *)



(** what [get_cluster_mean] does to one value before it enters the mean:
    an excluded value and, with [noneg], a negative value become
    not-a-number *)
Definition cleaned (exclude : list fval) (noneg : bool) (v : fval) : fval :=
  if existsb (feqb v) exclude then NaN
  else if fltb v (Fin 0) && noneg then NaN
  else v.

(** the values at the pixels that carry the label [k], row by row *)
Definition cluster_values (clusters : grid Z) (values : grid fval) (k : Z)
    : list fval :=
  map snd (filter (fun e => fst e = k)
             (concat (grid_zip_with pair clusters values))).

(** the labels other than 0 of a sequence, each once, in the order in which
    they first occur *)
Definition add_key (acc : list Z) (k : Z) : list Z :=
  if Z.eqb k 0 then acc
  else if bool_decide (k ∈ acc) then acc
  else acc ++ [k].

Definition first_labels (labels : list Z) : list Z :=
  foldl add_key [] labels.







(** ** The satellite algorithms of [fogpy/algorithms.py]

    An algorithm object is built from keyword arguments only.  It keeps
    their names in [self.attributes], the shape of the last array among
    them in [self.shape], and the union of the masks of the masked arrays
    among them in [self.inmask].  The keyword names are names of inputs:
    the names of the object's own attributes and methods ([own_names],
    [shape]) are not among them.  A keyword dict has every name once and is
    given by its items in the order of iteration. *)

Module Algorithms.

Inductive algorithm_class : Type :=
  | BaseSatelliteAlgorithm
  | FogLowStratusAlgorithm.

Definition class_name (c : algorithm_class) : string :=
  match c with
  | BaseSatelliteAlgorithm => "BaseSatelliteAlgorithm"
  | FogLowStratusAlgorithm => "FogLowStratusAlgorithm"
  end.

(** the exceptions that leave an algorithm: its own
    [NotProcessibleError], the [ImportError] of a filter built on something
    that is no array, and the exceptions of the filters *)
Inductive aexn : Type :=
  | NotProcessibleError (msg : string)
  | ImportError
  | Exn (e : exn).

Inductive aoutcome (A : Type) : Type :=
  | AOk (a : A)
  | ARaise (e : aexn).
Arguments AOk {A} a.
Arguments ARaise {A} e.

Definition MA (A : Type) : Type := state -> aoutcome A * state.

Definition aret {A} (a : A) : MA A := fun s => (AOk a, s).

Definition abind {A B} (m : MA A) (k : A -> MA B) : MA B :=
  fun s =>
    match m s with
    | (AOk a, s') => k a s'
    | (ARaise e, s') => (ARaise e, s')
    end.

Definition araise {A} (e : aexn) : MA A := fun s => (ARaise e, s).

#[global] Instance MA_ret : MRet MA := @aret.
#[global] Instance MA_bind : MBind MA := fun A B k m => abind m k.

(** a computation of the filters run inside an algorithm *)
Definition lift {A} (m : M A) : MA A :=
  fun s =>
    match m s with
    | (Ok a, s') => (AOk a, s')
    | (Raise e, s') => (ARaise (Exn e), s')
    end.

Definition of_opt {A} (e : aexn) (o : option A) : MA A :=
  match o with
  | Some a => aret a
  | None => araise e
  end.

Record algorithm_obj : Type := mkAlgorithm {
  acls : algorithm_class;
  ainmask : option loc;
  ashape : option (list nat);
  attributes : list string;
  aattrs : gmap string value
}.

(** attributes and methods every algorithm object has *)
Definition own_names : list string :=
  ["inmask"; "mask"; "result"; "attributes"; "run"; "isprocessible";
   "procedure"; "check_results"; "set_mask"; "get_kwargs"; "plot_result"].

Definition hasattr (self : algorithm_obj) (attr : string) : bool :=
  bool_decide (is_Some (aattrs self !! attr))
  || bool_decide (attr ∈ own_names)
  || (bool_decide (attr = "shape") && bool_decide (is_Some (ashape self))).

(** [set_mask(mask)]: the first mask is taken as it is, every further one
    is combined with [self.inmask] into a new array *)
Definition set_mask (self : algorithm_obj) (mask : loc) : M algorithm_obj :=
  match ainmask self with
  | Some li =>
      a ← read li;
      b ← read mask;
      c ← zip_grids orb a b;
      l ← alloc c;
      ret (mkAlgorithm (acls self) (Some l) (ashape self) (attributes self)
             (aattrs self))
  | None =>
      ret (mkAlgorithm (acls self) (Some mask) (ashape self) (attributes self)
             (aattrs self))
  end.

Definition with_shape (self : algorithm_obj) (sh : list nat) : algorithm_obj :=
  mkAlgorithm (acls self) (ainmask self) (Some sh) (attributes self)
    (aattrs self).

(** the body of the loop of [__init__] for one keyword argument *)
Definition init_step (self : algorithm_obj) (kv : string * value)
    : M algorithm_obj :=
  let self1 :=
    mkAlgorithm (acls self) (ainmask self) (ashape self)
      (attributes self ++ [fst kv]) (aattrs self) in
  self2 ← match snd kv with
          | VLabels g m => set_mask (with_shape self1 (shape g)) m
          | VArray g => ret (with_shape self1 (shape g))
          | VBool g => ret (with_shape self1 (shape g))
          | _ => ret self1
          end;
  ret (mkAlgorithm (acls self2) (ainmask self2) (ashape self2)
         (attributes self2) (<[fst kv := snd kv]> (aattrs self2))).

Fixpoint init_loop (self : algorithm_obj) (kwargs : list (string * value))
    : M algorithm_obj :=
  match kwargs with
  | [] => ret self
  | kv :: rest => self' ← init_step self kv; init_loop self' rest
  end.

(** [__init__] with the keyword arguments [kwargs] *)
Definition init (c : algorithm_class) (kwargs : list (string * value))
    : M algorithm_obj :=
  init_loop (mkAlgorithm c None None [] ∅) kwargs.

(** [get_kwargs(keys)]: the dict of the keyword arguments whose name is in
    [keys]; [None] when reading an attribute raises *)
Definition get_kwargs (self : algorithm_obj) (keys : list string)
    : option (list (string * value)) :=
  mapM (fun key => v ← aattrs self !! key; Some (key, v))
       (filter (fun key => key ∈ keys) (attributes self)).

(** [d[key]] *)
Definition dict_lookup (key : string) (d : list (string * value))
    : option value :=
  (list_to_map d : gmap string value) !! key.

Definition fls_attrlist : list string :=
  ["ir108"; "ir039"; "vis008"; "nir016"; "vis006"; "ir087"; "ir120"; "lat";
   "lon"; "time"].

Definition isprocessible (self : algorithm_obj) : M bool :=
  match acls self with
  | BaseSatelliteAlgorithm => ret true
  | FogLowStratusAlgorithm =>
      foldr (fun attr rest =>
               if hasattr self attr then rest
               else
                 logger LWarning
                   (MsgText ("Missing input attribute: " ++ attr));;
                 r ← rest; ret false)
            (ret true) fls_attrlist
  end.

(** [np.ones(shape)] and [np.ones(shape) == 1] *)
Definition np_ones (sh : list nat) : grid fval :=
  map (fun n => replicate n (Fin 1)) sh.

Definition all_true (sh : list nat) : grid bool :=
  map (fun n => replicate n true) sh.

(** the array and the mask a filter is built on: a masked array, a plain
    array, or something that is no array ([None], an [ImportError]) *)
Definition as_array (v : value) : option (grid fval * option loc) :=
  match v with
  | VArray g => Some (g, None)
  | VBool g => Some (grid_map (fun b : bool => if b then Fin 1 else Fin 0) g, None)
  | VLabels g m => Some (grid_map of_Z g, Some m)
  | _ => None
  end.

(** [BaseArrayFilter.__init__(arr, **kwargs)] as the algorithm calls it:
    without a keyword [time] the time of construction is taken and logged *)
Definition init_filter (c : filter_class) (a : grid fval) (m : option loc)
    (kwargs : list (string * value)) : M filter_obj :=
  (if bool_decide ("time" ∈ map fst kwargs) then ret tt
   else logger LDebug
          (MsgText "Setting filter reference time to current time"));;
  ret (new_filter c a m kwargs).

Section Procedures.

Context (E : Externals).

(** [BaseSatelliteAlgorithm.procedure]: the pair ([self.result],
    [self.mask]) *)
Definition base_procedure (self : algorithm_obj) : MA (marray * loc) :=
  sh ← of_opt (Exn (AttributeError "shape")) (ashape self);
  mask ← lift (alloc (all_true sh));
  aret (mkMarray (np_ones sh) mask, mask).

(** one filter of the chain: built on the result array of the filter
    before it and applied *)
Definition next_filter (c : filter_class) (prev : marray)
    (kwargs : list (string * value)) : MA (marray * loc) :=
  f ← lift (init_filter c (ma_data prev) (Some (ma_mask prev)) kwargs);
  lift (apply E f).

(** [FogLowStratusAlgorithm.procedure] *)
Definition fls_procedure (self : algorithm_obj) : MA (marray * loc) :=
  lift (logger LInfo
          (MsgText "Starting fog and low cloud detection algorithm"));;
  cloud_input ← of_opt (Exn (AttributeError "attributes"))
                  (get_kwargs self ["ir108"; "ir039"]);
  v ← of_opt (Exn KeyError) (dict_lookup "ir108" cloud_input);
  a ← of_opt ImportError (as_array v);
  cloudfilter ← lift (init_filter CloudFilter (fst a) (snd a) cloud_input);
  r1 ← lift (apply E cloudfilter);
  snow_input ← of_opt (Exn (AttributeError "attributes"))
                 (get_kwargs self ["ir108"; "vis008"; "nir016"; "vis006"]);
  r2 ← next_filter SnowFilter (fst r1) snow_input;
  ice_input ← of_opt (Exn (AttributeError "attributes"))
                (get_kwargs self ["ir120"; "ir087"; "ir108"]);
  r3 ← next_filter IceCloudFilter (fst r2) ice_input;
  cirrus_input ← of_opt (Exn (AttributeError "attributes"))
                   (get_kwargs self
                      ["ir120"; "ir087"; "ir108"; "lat"; "lon"; "time"]);
  r4 ← next_filter CirrusCloudFilter (fst r3) cirrus_input;
  aret (fst r4, snd r4).

Definition procedure (self : algorithm_obj) : MA (marray * loc) :=
  match acls self with
  | BaseSatelliteAlgorithm => base_procedure self
  | FogLowStratusAlgorithm => fls_procedure self
  end.

(** [run()]: the pair ([self.result], [self.mask]); [check_results] of
    both classes only returns [True] *)
Definition run (self : algorithm_obj) : MA (marray * loc) :=
  ok ← lift (isprocessible self);
  if ok : bool then procedure self
  else
    araise (NotProcessibleError
              ("Satellite algorithm <" ++ class_name (acls self)
               ++ "> is not processible")).

End Procedures.

End Algorithms.

(** the masks and the shapes of the arrays among keyword arguments, in the
    order of iteration *)
Definition value_mask (v : value) : option loc :=
  match v with VLabels _ m => Some m | _ => None end.

Definition value_shape (v : value) : option (list nat) :=
  match v with
  | VArray g => Some (shape g)
  | VBool g => Some (shape g)
  | VLabels g _ => Some (shape g)
  | _ => None
  end.

Definition kwargs_masks (kwargs : list (string * value)) : list loc :=
  omap (fun kv => value_mask (snd kv)) kwargs.

Definition kwargs_shapes (kwargs : list (string * value)) : list (list nat) :=
  omap (fun kv => value_shape (snd kv)) kwargs.

(** [self.shape] after one more keyword argument *)
Definition final_shape (acc : option (list nat)) (kv : string * value)
    : option (list nat) :=
  match value_shape (snd kv) with
  | Some sh => Some sh
  | None => acc
  end.

(** the union of mask arrays of one shape *)
Definition mask_union (g : grid bool) (gs : list (grid bool)) : grid bool :=
  foldl (grid_zip_with orb) g gs.

(** the inputs of a list that an algorithm object lacks *)
Definition missing_inputs (self : Algorithms.algorithm_obj)
    (al : list string) : list string :=
  filter (fun attr => Algorithms.hasattr self attr = false) al.

(** a scene of one row and two pixels for the fog and low stratus
    algorithm *)
Definition sample_scene : list (string * value) :=
  [("ir108", VArray [[Fin 270; Fin 280]]);
   ("ir039", VArray [[Fin 273; Fin 279]]);
   ("vis008", VArray [[Fin 20; Fin 20]]);
   ("nir016", VArray [[Fin 0.2; Fin 0.5]]);
   ("vis006", VArray [[Fin 0.6; Fin 0.5]]);
   ("ir087", VArray [[Fin 265; Fin 270]]);
   ("ir120", VArray [[Fin 269; Fin 279]]);
   ("lat", VArray [[Fin 1.0; Fin 1.0]]);
   ("lon", VArray [[Fin 10; Fin 10]]);
   ("time", VTime 0)].

(** the filter of class [c] that the algorithm object [self] builds on the
    data [a] with the inbound mask [inm] and its inputs named in [keys]
    computes, in the store [h], the mask [g] as a new array *)
Definition computes_mask (E : Externals) (self : Algorithms.algorithm_obj)
    (c : filter_class) (keys : list string) (a : grid fval)
    (inm : option loc) (h : list (grid bool)) (g : grid bool) : Prop :=
  exists inputs s s',
    Algorithms.get_kwargs self keys = Some inputs /\
    heap s = h /\
    filter_mask E (new_filter c a inm inputs) s = (Ok (length h), s') /\
    heap s' = h ++ [g].

(** the algorithm object built from the sample scene *)
Definition sample_algorithm : Algorithms.algorithm_obj :=
  match
    Algorithms.init Algorithms.FogLowStratusAlgorithm sample_scene
      (mkState [] [])
  with
  | (Ok obj, _) => obj
  | (Raise _, _) =>
      Algorithms.mkAlgorithm Algorithms.FogLowStratusAlgorithm None None [] ∅
  end.

(** * Properties *)

(** ** Numbers *)

Lemma Qltb_lt x y : Qltb x y = true <-> (x < y)%Q.
Proof.
  unfold Qltb. rewrite negb_true_iff.
  destruct (Qle_bool y x) eqn:E.
  - apply Qle_bool_iff in E. split; [discriminate|].
    intros H. exfalso. apply (Qlt_not_le _ _ H E).
  - split; [intros _|reflexivity].
    apply Qnot_le_lt. intros H. apply Qle_bool_iff in H. congruence.
Qed.

Lemma fgtb_nan_l b : fgtb NaN b = false.
Proof. destruct b; reflexivity. Qed.

Lemma fsub_nan_l b : fsub NaN b = NaN.
Proof. destruct b; reflexivity. Qed.

Lemma Qle_bool_false x y : Qle_bool x y = false -> (y < x)%Q.
Proof.
  intros H. apply Qnot_le_lt. intros Hle.
  apply Qle_bool_iff in Hle. congruence.
Qed.


(** ** Lists and grids *)

Lemma lookup_map {A B} (f : A -> B) (l : list A) (i : nat) :
  map f l !! i = f <$> (l !! i).
Proof.
  revert i. induction l as [|x l IH]; intros [|i]; simpl; auto.
Qed.

Lemma shape_grid_map {A B} (f : A -> B) (g : grid A) :
  shape (grid_map f g) = shape g.
Proof.
  unfold shape, grid_map. induction g as [|r g IH]; simpl; [done|].
  rewrite IH. f_equal. apply length_map.
Qed.

Lemma shape_grid_zip_with {A B C} (f : A -> B -> C) (a : grid A) (b : grid B) :
  shape a = shape b -> shape (grid_zip_with f a b) = shape a.
Proof.
  unfold shape, grid_zip_with. revert b.
  induction a as [|r a IH]; intros [|r' b] H; simpl in *; try done.
  injection H as Hr Hab. rewrite (IH b Hab). f_equal.
  rewrite length_zip_with. lia.
Qed.

Lemma pix_grid_map {A B} (f : A -> B) (g : grid A) i j :
  pix (grid_map f g) i j = f <$> pix g i j.
Proof.
  unfold pix, grid_map. rewrite lookup_map.
  destruct (g !! i) as [r|]; simpl; [apply lookup_map|done].
Qed.

Lemma pix_grid_zip_with {A B C} (f : A -> B -> C) (a : grid A) (b : grid B)
    i j x y :
  pix a i j = Some x -> pix b i j = Some y ->
  pix (grid_zip_with f a b) i j = Some (f x y).
Proof.
  unfold pix, grid_zip_with. intros Ha Hb.
  rewrite lookup_zip_with.
  destruct (a !! i) as [ra|]; simpl in *; [|done].
  destruct (b !! i) as [rb|]; simpl in *; [|done].
  rewrite lookup_zip_with, Ha. simpl. rewrite Hb. done.
Qed.

Lemma pix_grid_zip_with_inv {A B C} (f : A -> B -> C) (a : grid A) (b : grid B)
    i j z :
  pix (grid_zip_with f a b) i j = Some z ->
  exists x y, pix a i j = Some x /\ pix b i j = Some y /\ z = f x y.
Proof.
  unfold pix, grid_zip_with. rewrite lookup_zip_with.
  destruct (a !! i) as [ra|]; simpl; [|done].
  destruct (b !! i) as [rb|]; simpl; [|done].
  rewrite lookup_zip_with.
  destruct (ra !! j) as [x|]; simpl; [|done].
  destruct (rb !! j) as [y|]; simpl; [|done].
  intros [= <-]. eauto.
Qed.

Lemma pix_same_shape {A B} (a : grid A) (b : grid B) i j :
  shape a = shape b -> is_Some (pix a i j) -> is_Some (pix b i j).
Proof.
  unfold shape, pix. intros Hs [x Hx].
  destruct (a !! i) as [ra|] eqn:Hra; simpl in Hx; [|done].
  assert (Hl : map length a !! i = Some (length ra))
    by (rewrite lookup_map, Hra; done).
  rewrite Hs, lookup_map in Hl.
  destruct (b !! i) as [rb|]; simpl in *; [|done].
  injection Hl as Hl.
  apply lookup_lt_is_Some. rewrite Hl. eapply lookup_lt_Some; eauto.
Qed.

(** ** The cirrus lookup table *)

Lemma argmin_from_bound (l : list fval) bi b i :
  bi < i -> argmin_from bi b i l < i + length l.
Proof.
  revert bi b i. induction l as [|x l IH]; intros bi b i Hlt; simpl; [lia|].
  destruct (negb (is_nan b) && (is_nan x || fltb x b)).
  - specialize (IH i x (S i)). lia.
  - specialize (IH bi b (S i)). lia.
Qed.

Lemma find_nearest_lut_sza_total (sza : fval) :
  exists k, find_nearest_lut_sza sza = Some k /\ In k sza_opt.
Proof.
  unfold find_nearest_lut_sza, sza_opt, argmin. cbn [map mbind option_bind].
  match goal with |- context [argmin_from 0 ?b 1 ?l] =>
    pose proof (argmin_from_bound l 0 b 1 ltac:(lia)) as Hb;
    set (r := argmin_from 0 b 1 l) in *
  end.
  simpl in Hb.
  destruct r as [|[|[|[|[|r]]]]]; simpl; try lia; eexists; split; eauto;
    simpl; tauto.
Qed.

Lemma find_nearest_lut_bt_total (bt : fval) :
  exists k, find_nearest_lut_bt bt = Some k /\ In k bt_opt.
Proof.
  unfold find_nearest_lut_bt, bt_opt, argmin. cbn [map mbind option_bind].
  match goal with |- context [argmin_from 0 ?b 1 ?l] =>
    pose proof (argmin_from_bound l 0 b 1 ltac:(lia)) as Hb;
    set (r := argmin_from 0 b 1 l) in *
  end.
  simpl in Hb.
  destruct r as [|[|[|[|[|[|r]]]]]]; simpl; try lia; eexists; split; eauto;
    simpl; tauto.
Qed.

Lemma apply_lut_total (ks : Q) (kb : Z) :
  In ks sza_opt -> In kb bt_opt -> exists t, apply_lut ks kb = Some t.
Proof.
  unfold sza_opt, bt_opt. simpl.
  intros Hs Hb.
  repeat (destruct Hs as [<-|Hs]; [|]); try done;
    repeat (destruct Hb as [<-|Hb]; [|]); try done;
    vm_compute; eauto.
Qed.








Lemma grid_mapM_Some {A B} (f : A -> option B) (g : grid A) (g' : grid B) :
  grid_mapM f g = Some g' ->
  shape g' = shape g /\
  forall i j x, pix g i j = Some x ->
    exists y, f x = Some y /\ pix g' i j = Some y.
Proof.
  unfold grid_mapM. intros H. apply mapM_Some_1 in H. split.
  - unfold shape. induction H as [|r r' g g' Hr _ IH]; simpl; [done|].
    apply length_mapM in Hr. congruence.
  - intros i j x Hx. unfold pix in *.
    destruct (g !! i) as [r|] eqn:Hr; simpl in Hx; [|done].
    destruct (Forall2_lookup_l _ _ _ _ _ H Hr) as (r' & Hr' & Hm).
    apply mapM_Some_1 in Hm.
    destruct (Forall2_lookup_l _ _ _ _ _ Hm Hx) as (y & Hy & Hf).
    exists y. rewrite Hr'. simpl. done.
Qed.

Lemma grid_mapM_is_Some {A B} (f : A -> option B) (g : grid A) :
  (forall i j x, pix g i j = Some x -> is_Some (f x)) ->
  is_Some (grid_mapM f g).
Proof.
  intros H. unfold grid_mapM. apply mapM_is_Some_2.
  apply Forall_lookup_2. intros i r Hr. simpl.
  apply mapM_is_Some_2. apply Forall_lookup_2. intros j x Hx.
  apply (H i j). unfold pix. rewrite Hr. done.
Qed.

(** ** Running the computations *)

Lemma bind_unfold {A B} (m : M A) (k : A -> M B) (s : state) :
  (m ≫= k) s =
  match m s with
  | (Ok a, s') => k a s'
  | (Raise e, s') => (Raise e, s')
  end.
Proof. reflexivity. Qed.

Lemma bind_ok {A B} (m : M A) (k : A -> M B) (s s' : state) (a : A) :
  m s = (Ok a, s') -> (m ≫= k) s = k a s'.
Proof. intros H. rewrite bind_unfold, H. done. Qed.

Lemma bind_Ok_inv {A B} (m : M A) (k : A -> M B) (s s' : state) (b : B) :
  (m ≫= k) s = (Ok b, s') ->
  exists a s1, m s = (Ok a, s1) /\ k a s1 = (Ok b, s').
Proof.
  rewrite bind_unfold. destruct (m s) as [[a|e] s1]; [eauto|done].
Qed.

Lemma of_option_Some {A} (e : exn) (a : A) (s : state) :
  of_option e (Some a) s = (Ok a, s).
Proof. reflexivity. Qed.

Lemma of_option_Ok_inv {A} (e : exn) (o : option A) (a : A) (s s' : state) :
  of_option e o s = (Ok a, s') -> o = Some a /\ s' = s.
Proof. destruct o; simpl; [intros [= -> ->]; done|done]. Qed.

Lemma zip_grids_ok {A B C} (f : A -> B -> C) (a : grid A) (b : grid B) s :
  shape a = shape b -> zip_grids f a b s = (Ok (grid_zip_with f a b), s).
Proof. intros H. unfold zip_grids. rewrite decide_True by done. done. Qed.

Lemma zip_grids_Ok_inv {A B C} (f : A -> B -> C) (a : grid A) (b : grid B)
    (c : grid C) s s' :
  zip_grids f a b s = (Ok c, s') ->
  shape a = shape b /\ c = grid_zip_with f a b /\ s' = s.
Proof.
  unfold zip_grids. destruct (decide _); [|done]. intros [= <- <-]. done.
Qed.

Lemma read_ok (l : loc) (m : grid bool) (s : state) :
  heap s !! l = Some m -> read l s = (Ok m, s).
Proof. intros H. unfold read. rewrite H. done. Qed.

Lemma read_Ok_inv (l : loc) (m : grid bool) (s s' : state) :
  read l s = (Ok m, s') -> heap s !! l = Some m /\ s' = s.
Proof.
  unfold read. destruct (heap s !! l); [intros [= -> ->]; done|done].
Qed.

Section FilterFacts.

Context (E : Externals).

Lemma getattr_ok self attr v s :
  attrs self !! attr = Some v -> getattr self attr s = (Ok v, s).
Proof. intros H. unfold getattr. rewrite H. done. Qed.

Lemma get_array_ok self attr g s :
  attrs self !! attr = Some (VArray g) -> get_array self attr s = (Ok g, s).
Proof.
  intros H. unfold get_array. rewrite (bind_ok _ _ _ _ _ (getattr_ok _ _ _ _ H)).
  done.
Qed.

Lemma get_bool_ok self attr g s :
  attrs self !! attr = Some (VBool g) -> get_bool self attr s = (Ok g, s).
Proof.
  intros H. unfold get_bool. rewrite (bind_ok _ _ _ _ _ (getattr_ok _ _ _ _ H)).
  done.
Qed.

Lemma get_labels_ok self attr g m s :
  attrs self !! attr = Some (VLabels g m) ->
  get_labels self attr s = (Ok (g, m), s).
Proof.
  intros H. unfold get_labels.
  rewrite (bind_ok _ _ _ _ _ (getattr_ok _ _ _ _ H)). done.
Qed.

Lemma get_dict_ok self attr d s :
  attrs self !! attr = Some (VDict d) -> get_dict self attr s = (Ok d, s).
Proof.
  intros H. unfold get_dict. rewrite (bind_ok _ _ _ _ _ (getattr_ok _ _ _ _ H)).
  done.
Qed.

End FilterFacts.

(** steps of a computation whose parts are known to return *)
Ltac shape_tac :=
  repeat first
    [ rewrite shape_grid_map
    | rewrite shape_grid_zip_with by shape_tac ];
  try congruence.

Ltac mstep :=
  first
    [ erewrite bind_ok by (eapply get_array_ok; eassumption)
    | erewrite bind_ok by (eapply get_bool_ok; eassumption)
    | erewrite bind_ok by (eapply get_labels_ok; eassumption)
    | erewrite bind_ok by (eapply get_dict_ok; eassumption)
    | erewrite bind_ok by (apply zip_grids_ok; shape_tac)
    | erewrite bind_ok by (eapply read_ok; eassumption)
    | erewrite bind_ok by (apply of_option_Some)
    | erewrite bind_ok by reflexivity ];
  cbv beta iota.

Section CirrusFacts.

Context (E : Externals).

Lemma bt_thres_at_total (x a : fval) :
  exists ks kb t,
    find_nearest_lut_sza x = Some ks /\ find_nearest_lut_bt a = Some kb /\
    apply_lut ks kb = Some t /\ bt_thres_at x a = Some t.
Proof.
  destruct (find_nearest_lut_sza_total x) as (ks & Hks & Hins).
  destruct (find_nearest_lut_bt_total a) as (kb & Hkb & Hinb).
  destruct (apply_lut_total ks kb Hins Hinb) as (t & Ht).
  exists ks, kb, t. unfold bt_thres_at. rewrite Hks, Hkb. simpl. done.
Qed.

Lemma concat_nonempty_shape {A B} (a : grid A) (b : grid B) :
  shape a = shape b -> concat a <> [] -> concat b <> [].
Proof.
  unfold shape. revert b.
  induction a as [|r a IH]; intros [|r' b] Hs Ha; simpl in *; try done.
  injection Hs as Hr Hab.
  destruct r as [|x r]; destruct r' as [|x' r']; simpl in *; try done.
  eauto.
Qed.

Lemma require_entries_ok {A} (g : grid A) s :
  concat g <> [] -> require_entries g s = (Ok tt, s).
Proof. unfold require_entries. destruct (concat g); done. Qed.

Lemma get_time_ok self t s :
  attrs self !! "time" = Some (VTime t) \/
  (attrs self !! "time" = None /\ t = now E) ->
  get_time E self s = (Ok t, s).
Proof.
  unfold get_time. intros [->|[-> ->]]; done.
Qed.

(** the mask array computed by the cirrus filter, pixel by pixel *)
Lemma CirrusCloudFilter_mask_run self s ir108 ir120 ir087 lon lat t sza :
  attrs self !! "ir108" = Some (VArray ir108) ->
  attrs self !! "ir120" = Some (VArray ir120) ->
  attrs self !! "ir087" = Some (VArray ir087) ->
  attrs self !! "lon" = Some (VArray lon) ->
  attrs self !! "lat" = Some (VArray lat) ->
  (attrs self !! "time" = Some (VTime t) \/
   (attrs self !! "time" = None /\ t = now E)) ->
  shape ir120 = shape ir108 ->
  shape ir087 = shape ir108 ->
  sun_zenith_angle E t lon lat = Some sza ->
  shape sza = shape ir108 ->
  concat ir108 <> [] ->
  exists m s',
    CirrusCloudFilter_mask E self s = (Ok (length (heap s)), s') /\
    heap s' = heap s ++ [m] /\
    shape m = shape ir108 /\
    forall i j a b c z,
      pix ir108 i j = Some a -> pix ir120 i j = Some b ->
      pix ir087 i j = Some c ->
      pix sza i j = Some z ->
      exists thr,
        bt_thres_at (sec_deg E z) a = Some thr /\
        pix m i j =
          Some (fgtb (fsub a b) (Fin thr) || fgtb (fsub c a) (Fin 0)).
Proof.
  intros H108 H120 H087 Hlon Hlat Htime S120 S087 Hsza Ssza Hne.
  set (secsza := grid_map (sec_deg E) sza).
  destruct (grid_mapM find_nearest_lut_sza secsza) as [secsza_lut|] eqn:Hsl.
  2:{ destruct (grid_mapM_is_Some find_nearest_lut_sza secsza) as [? Hx];
        [|congruence].
      intros i j x _. destruct (find_nearest_lut_sza_total x) as (k & -> & _).
      done. }
  destruct (grid_mapM find_nearest_lut_bt ir108) as [bt_lut|] eqn:Hbl.
  2:{ destruct (grid_mapM_is_Some find_nearest_lut_bt ir108) as [? Hx];
        [|congruence].
      intros i j x _. destruct (find_nearest_lut_bt_total x) as (k & -> & _).
      done. }
  destruct (grid_mapM_Some _ _ _ Hsl) as (Ssl & Psl).
  destruct (grid_mapM_Some _ _ _ Hbl) as (Sbl & Pbl).
  assert (Sss : shape secsza = shape ir108)
    by (unfold secsza; rewrite shape_grid_map; done).
  set (keys := grid_zip_with pair secsza_lut bt_lut).
  assert (Skeys : shape keys = shape ir108)
    by (unfold keys; rewrite shape_grid_zip_with; congruence).
  destruct (grid_mapM (fun k => apply_lut (fst k) (snd k)) keys)
    as [bt_thres|] eqn:Hth.
  2:{ destruct (grid_mapM_is_Some (fun k => apply_lut (fst k) (snd k)) keys)
        as [? Hx]; [|congruence].
      intros i j [ks kb] Hk. simpl.
      apply pix_grid_zip_with_inv in Hk as (ks' & kb' & Hks & Hkb & [= -> ->]).
      assert (is_Some (pix secsza i j)) as [x Hx].
      { apply (pix_same_shape secsza_lut); [congruence|eauto]. }
      assert (is_Some (pix ir108 i j)) as [a Ha].
      { apply (pix_same_shape bt_lut); [congruence|eauto]. }
      destruct (Psl _ _ _ Hx) as (ks & Hfs & Hps).
      destruct (Pbl _ _ _ Ha) as (kb & Hfb & Hpb).
      assert (ks = ks') by congruence. assert (kb = kb') by congruence.
      subst ks' kb'.
      destruct (find_nearest_lut_sza_total x) as (k1 & Hk1 & Hin1).
      destruct (find_nearest_lut_bt_total a) as (k2 & Hk2 & Hin2).
      assert (k1 = ks) by congruence. assert (k2 = kb) by congruence. subst.
      destruct (apply_lut_total ks kb Hin1 Hin2) as (thr & ->). done. }
  destruct (grid_mapM_Some _ _ _ Hth) as (Sth & Pth).
  eexists _, _. split; [|split; [|split]].
  - unfold CirrusCloudFilter_mask.
    do 4 mstep.
    rewrite (bind_ok _ _ _ _ _ (get_time_ok _ _ _ Htime)).
    do 2 mstep. rewrite Hsza. mstep.
    erewrite bind_ok
      by (apply require_entries_ok;
          apply (concat_nonempty_shape ir108); [symmetry; exact Ssza|done]).
    mstep. fold secsza. rewrite Hsl, Hbl.
    do 3 mstep. fold keys. rewrite Hth. mstep.
    erewrite bind_ok
      by (apply require_entries_ok;
          apply (concat_nonempty_shape ir108); [congruence|done]).
    do 5 mstep. reflexivity.
  - reflexivity.
  - shape_tac.
  - intros i j a b c z Ha Hb Hc Hz.
    assert (Hx : pix secsza i j = Some (sec_deg E z))
      by (unfold secsza; rewrite pix_grid_map, Hz; done).
    destruct (Psl _ _ _ Hx) as (ks & Hfs & Hps).
    destruct (Pbl _ _ _ Ha) as (kb & Hfb & Hpb).
    assert (Hk : pix keys i j = Some (ks, kb))
      by (apply pix_grid_zip_with; done).
    destruct (Pth _ _ _ Hk) as (thr & Hthr & Hpt). simpl in Hthr.
    exists thr. split.
    + unfold bt_thres_at. rewrite Hfs, Hfb. done.
    + erewrite pix_grid_zip_with; [reflexivity| |].
      * erewrite pix_grid_zip_with; [reflexivity| |eassumption].
        erewrite pix_grid_zip_with; [reflexivity|eassumption|eassumption].
      * rewrite pix_grid_map. erewrite pix_grid_zip_with; [reflexivity|eassumption|eassumption].
Qed.

End CirrusFacts.

(** ** The common tail of the filter functions *)

Lemma set_result_Ok_inv self mask s r m' s' :
  set_result self mask s = (Ok (r, m'), s') ->
  m' = mask /\ ma_data r = arr self /\ log s' = log s /\
  exists m, heap s !! mask = Some m /\ shape m = shape (arr self) /\
    match inmask self with
    | None => ma_mask r = mask /\ heap s' = heap s
    | Some li =>
        exists im, heap s !! li = Some im /\ shape m = shape im /\
          ma_mask r = length (heap s) /\
          heap s' = heap s ++ [grid_zip_with orb m im]
    end.
Proof.
  unfold set_result, ma_array. intros H.
  apply bind_Ok_inv in H as (r0 & s1 & H & Hret).
  injection Hret as -> -> ->.
  apply bind_Ok_inv in H as (m & s2 & Hm & H).
  apply read_Ok_inv in Hm as (Hm & ->).
  destruct (decide (shape m = shape (arr self))) as [Hs|]; [|done].
  destruct (inmask self) as [li|].
  - apply bind_Ok_inv in H as (im & s2 & Him & H).
    apply read_Ok_inv in Him as (Him & ->).
    apply bind_Ok_inv in H as (rm & s2 & Hz & H).
    apply zip_grids_Ok_inv in Hz as (Hsh & -> & ->).
    apply bind_Ok_inv in H as (l & s2 & Hal & H).
    injection Hal as <- <-. injection H as <- <-. simpl.
    repeat split; eauto 10.
  - injection H as <- <-. repeat split; eauto 10.
Qed.

Lemma ma_array_run self mask s m :
  heap s !! mask = Some m -> shape m = shape (arr self) ->
  inmask_ok self (heap s) ->
  exists r s',
    ma_array self mask s = (Ok r, s') /\
    log s' = log s /\
    forall l g, heap s !! l = Some g -> heap s' !! l = Some g.
Proof.
  intros Hm Hs Hok. unfold ma_array.
  destruct (inmask self) as [li|] eqn:Hli.
  - destruct (Hok li Hli) as (im & Him & Hsi).
    eexists _, _. split; [|split].
    + mstep. rewrite decide_True by done. do 3 mstep. reflexivity.
    + reflexivity.
    + intros l g Hl. simpl. apply lookup_app_l_Some. done.
  - eexists _, _. split; [|split].
    + mstep. rewrite decide_True by done. reflexivity.
    + reflexivity.
    + done.
Qed.

Lemma set_result_run self mask s m :
  heap s !! mask = Some m -> shape m = shape (arr self) ->
  inmask_ok self (heap s) ->
  exists r s',
    set_result self mask s = (Ok (r, mask), s') /\
    log s' = log s /\
    forall l g, heap s !! l = Some g -> heap s' !! l = Some g.
Proof.
  intros Hm Hs Hok.
  destruct (ma_array_run self mask s m Hm Hs Hok) as (r & s' & Hr & Hl & Hh).
  exists r, s'. split; [|done].
  unfold set_result. rewrite (bind_ok _ _ _ _ _ Hr). done.
Qed.

(** ** The cirrus filter: claims C10 and C6 *)

(** C10: for every secant-of-zenith input and every brightness-temperature
    input, the nearest-key functions return a member of the key sets
    {1.0, 1.25, 1.50, 1.75, 2.0} and {260, 270, 280, 290, 300, 310}, and
    the nested lookup in the table finds an entry for the two keys. *)
Theorem cirrus_lut_lookup_total (secsza bt : fval) :
  exists (ks : Q) (kb : Z) (thr : Q),
    find_nearest_lut_sza secsza = Some ks /\
    In ks [1.0%Q; 1.25%Q; 1.50%Q; 1.75%Q; 2.0%Q] /\
    find_nearest_lut_bt bt = Some kb /\
    In kb [260; 270; 280; 290; 300; 310]%Z /\
    apply_lut ks kb = Some thr /\
    bt_thres_at secsza bt = Some thr.
Proof.
  destruct (find_nearest_lut_sza_total secsza) as (ks & Hks & Hins).
  destruct (find_nearest_lut_bt_total bt) as (kb & Hkb & Hinb).
  destruct (apply_lut_total ks kb Hins Hinb) as (thr & Hthr).
  exists ks, kb, thr. unfold bt_thres_at. rewrite Hks, Hkb. simpl.
  repeat split; done.
Qed.

Section CirrusClaim.

Context (E : Externals).


End CirrusClaim.


(** ** The cloud filter: claim C3 *)


Lemma foldl_Qminb_spec (l : list Q) (x : Q) :
  In (foldl Qminb x l) (x :: l) /\
  forall y, In y (x :: l) -> (foldl Qminb x l <= y)%Q.
Proof.
  revert x. induction l as [|a l IH]; intros x; simpl.
  - split; [auto|]. intros y [<-|[]]. apply Qle_refl.
  - destruct (IH (Qminb x a)) as (Hin & Hle). split.
    + destruct Hin as [Hin|Hin]; [|auto].
      rewrite <- Hin. unfold Qminb. destruct (Qle_bool x a); simpl; auto.
    + assert (Hx : (Qminb x a <= x)%Q /\ (Qminb x a <= a)%Q).
      { unfold Qminb. destruct (Qle_bool x a) eqn:Hxa.
        - apply Qle_bool_iff in Hxa. split; [apply Qle_refl|done].
        - apply Qle_bool_false in Hxa.
          split; [apply Qlt_le_weak; done|apply Qle_refl]. }
      destruct Hx as (Hx & Ha).
      intros y [<-|[<-|Hy]].
      * eapply Qle_trans; [|exact Hx]. apply Hle. simpl; auto.
      * eapply Qle_trans; [|exact Ha]. apply Hle. simpl; auto.
      * apply Hle. simpl; auto.
Qed.


Lemma np_min_spec (l : list Q) (m : Q) :
  np_min l = Some m -> In m l /\ forall y, In y l -> (m <= y)%Q.
Proof.
  destruct l as [|x l]; [done|]. intros [= <-]. apply foldl_Qminb_spec.
Qed.


Lemma take_idx_elem {A} (a : list A) (idx : list nat) (l : list A) (x : A) :
  take_idx a idx = Some l ->
  (In x l <-> exists i, In i idx /\ a !! i = Some x).
Proof.
  unfold take_idx. intros H. apply mapM_Some_1 in H.
  rewrite <- !list_elem_of_In. split.
  - intros Hx. apply list_elem_of_lookup_1 in Hx as (n & Hn).
    destruct (Forall2_lookup_r _ _ _ _ _ H Hn) as (i & Hi & Hai).
    exists i. split; [|done].
    apply list_elem_of_In. eapply list_elem_of_lookup_2; eauto.
  - intros (i & Hi & Hai). apply list_elem_of_In in Hi.
    apply list_elem_of_lookup_1 in Hi as (n & Hn).
    destruct (Forall2_lookup_l _ _ _ _ _ H Hn) as (y & Hy & Hay).
    assert (y = x) by congruence. subst y.
    eapply list_elem_of_lookup_2; eauto.
Qed.

(** the local minima selected by [thres_index] *)
Lemma thres_index_spec counts edges minpeak maxpeak ti idx :
  thres_index counts edges minpeak maxpeak = Some ti ->
  (In idx ti <->
   In idx (localmin counts) /\
   exists e, edges !! idx = Some e /\
     (minpeak <= e)%Q /\ (e <= maxpeak)%Q /\ (e < 1 # 2)%Q).
Proof.
  unfold thres_index.
  destruct (take_idx edges (localmin counts)) as [le|] eqn:Hle; [|done].
  simpl. intros [= <-].
  unfold take_idx in Hle. apply mapM_Some_1 in Hle.
  set (P := fun p : nat * Q =>
    Qle_bool (snd p) maxpeak && Qle_bool minpeak (snd p)
      && Qltb (snd p) (1 # 2) = true).
  assert (HP : forall i e, P (i, e) <->
    (minpeak <= e)%Q /\ (e <= maxpeak)%Q /\ (e < 1 # 2)%Q).
  { intros i e. unfold P. simpl.
    rewrite !andb_true_iff, !Qle_bool_iff, Qltb_lt. tauto. }
  rewrite in_map_iff. split.
  - intros ([i e] & Hfst & Hin). simpl in Hfst. subst i.
    apply list_elem_of_In, list_elem_of_filter in Hin as (Hp & Hin).
    apply list_elem_of_lookup_1 in Hin as (n & Hn).
    apply lookup_zip_with_Some in Hn as (i & e' & [= <- <-] & Hi & He).
    destruct (Forall2_lookup_l _ _ _ _ _ Hle Hi) as (y & Hy & Hey).
    assert (y = e) by congruence. subst y. split.
    + apply list_elem_of_In. eapply list_elem_of_lookup_2; eauto.
    + exists e. split; [done|]. apply (HP idx). done.
  - intros (Hin & e & He & Hc).
    apply list_elem_of_In, list_elem_of_lookup_1 in Hin as (n & Hn).
    destruct (Forall2_lookup_l _ _ _ _ _ Hle Hn) as (y & Hy & Hey).
    assert (y = e) by congruence. subst y.
    exists (idx, e). split; [done|].
    apply list_elem_of_In, list_elem_of_filter. split.
    + apply HP. done.
    + apply (list_elem_of_lookup_2 _ n).
      apply lookup_zip_with_Some. eauto.
Qed.

Section CloudFacts.

Context (E : Externals).

(** the edges the threshold is chosen from are the bin edges at the local
    minima that lie between the least and the greatest peak and below 0.5 *)
Lemma candidates_spec counts edges cands :
  candidates E counts edges = Some cands ->
  exists pr minpeak maxpeak ti,
    peakrange E counts edges = Some pr /\
    np_min pr = Some minpeak /\ np_max pr = Some maxpeak /\
    thres_index counts edges minpeak maxpeak = Some ti /\
    take_idx edges ti = Some cands /\
    forall e, In e cands <->
      exists idx, In idx (localmin counts) /\ edges !! idx = Some e /\
        (minpeak <= e)%Q /\ (e <= maxpeak)%Q /\ (e < 1 # 2)%Q.
Proof.
  unfold candidates.
  destruct (peakrange E counts edges) as [pr|]; [|done]. simpl.
  destruct (np_min pr) as [minpeak|] eqn:Hmin; [|done]. simpl.
  destruct (np_max pr) as [maxpeak|] eqn:Hmax; [|done]. simpl.
  destruct (thres_index _ _ _ _) as [ti|] eqn:Hti; [|done]. simpl.
  intros Hc. exists pr, minpeak, maxpeak, ti.
  do 5 (split; [done|]). intros e. split.
  - intros He. apply (take_idx_elem _ _ _ e Hc) in He as (idx & Hidx & Hed).
    apply (thres_index_spec _ _ _ _ _ _ Hti) in Hidx as (Hlm & e' & He' & Hc').
    assert (e' = e) by congruence. subst e'. eauto.
  - intros (idx & Hlm & Hed & Hc').
    apply (take_idx_elem _ _ _ e Hc). exists idx. split; [|done].
    apply (thres_index_spec _ _ _ _ _ _ Hti). eauto.
Qed.


End CloudFacts.


Section CloudClaim.

Context (E : Externals).


End CloudClaim.


(** ** The water cloud filter: claim C7 *)

Section WaterFacts.

Context (E : Externals).






End WaterFacts.

Section WaterClaim.

Context (E : Externals).


End WaterClaim.



(** ** The cluster filters: the arrays they compute *)

Lemma shape_assign_where {A} (cond : grid bool) (v : A) (m : grid A) :
  shape cond = shape m -> shape (assign_where cond v m) = shape m.
Proof.
  intros H. unfold assign_where. rewrite shape_grid_zip_with; done.
Qed.














Lemma mapM_map {A B} (f : A -> option B) (g : A -> B) (l : list A) :
  (forall x, In x l -> f x = Some (g x)) -> mapM f l = Some (map g l).
Proof.
  induction l as [|x l IH]; intros H; [done|].
  cbn [mapM map]. rewrite (H x) by (simpl; auto). simpl.
  rewrite IH by (intros y Hy; apply H; simpl; auto). done.
Qed.


Section HomogeneityFacts.

Context (E : Externals).


End HomogeneityFacts.



(** ** Cluster atomicity: claim C5 *)

Section ClusterClaim.

Context (E : Externals).


End ClusterClaim.



(** ** What the filters do to the store *)

Lemma grows_refl g : grows g g.
Proof. split; done. Qed.

Lemma grows_trans g1 g2 g3 : grows g1 g2 -> grows g2 g3 -> grows g1 g3.
Proof. intros [S1 P1] [S2 P2]. split; [congruence|auto]. Qed.

Lemma evolves_refl m h : evolves m h h.
Proof.
  split; [done|]. split; [done|]. intros g Hg. exists g.
  split; [done|apply grows_refl].
Qed.

Lemma evolves_trans m h1 h2 h3 :
  evolves m h1 h2 -> evolves m h2 h3 -> evolves m h1 h3.
Proof.
  intros (L1 & O1 & M1) (L2 & O2 & M2). split; [lia|]. split.
  - intros l g Hne Hl. eauto.
  - intros g Hg. destruct (M1 g Hg) as (g2 & Hg2 & G12).
    destruct (M2 g2 Hg2) as (g3 & Hg3 & G23).
    exists g3. split; [done|]. eapply grows_trans; eauto.
Qed.

Lemma evolves_eq m h h1 : h1 = h -> evolves m h h1.
Proof. intros ->. apply evolves_refl. Qed.

Lemma evolves_alloc h x : evolves (length h) h (h ++ [x]).
Proof.
  split; [rewrite length_app; lia|]. split.
  - intros l g _ Hl. apply lookup_app_l_Some. done.
  - intros g Hg. apply lookup_lt_Some in Hg. lia.
Qed.


Lemma grows_assign_true cond cm :
  shape cond = shape cm -> grows cm (assign_where cond true cm).
Proof.
  intros Hs. split; [apply shape_assign_where; done|].
  intros i j Hb. unfold assign_where.
  destruct (pix_same_shape cm cond i j) as [c Hc]; [done|eauto|].
  erewrite pix_grid_zip_with by eassumption. destruct c; done.
Qed.

Lemma evolves_insert m h cm cm' :
  h !! m = Some cm -> grows cm cm' -> evolves m h (<[m := cm']> h).
Proof.
  intros Hm G. split; [rewrite length_insert; done|]. split.
  - intros l g Hne Hl. rewrite list_lookup_insert_ne by done. done.
  - intros g Hg. assert (g = cm) by congruence. subst g.
    exists cm'. split; [|done].
    apply list_lookup_insert_eq. eapply lookup_lt_Some; eauto.
Qed.

Lemma heap_pure_ret {A} (a : A) : heap_pure (mret a).
Proof. intros s a' s' [= <- <-]. done. Qed.

Lemma heap_pure_raise {A} (e : exn) : heap_pure (@raise A e).
Proof. intros s a' s' H. discriminate H. Qed.

Lemma heap_pure_bind {A B} (c : M A) (k : A -> M B) :
  heap_pure c -> (forall a, heap_pure (k a)) -> heap_pure (c ≫= k).
Proof.
  intros Hc Hk s b s' H. apply bind_Ok_inv in H as (a & s1 & H1 & H2).
  rewrite (Hk a _ _ _ H2). eauto.
Qed.

Lemma heap_pure_logger l msg : heap_pure (logger l msg).
Proof. intros s a s' [= <- <-]. done. Qed.

Lemma heap_pure_of_option {A} e (o : option A) : heap_pure (of_option e o).
Proof. intros s a s' H. apply of_option_Ok_inv in H as (_ & ->). done. Qed.

Lemma heap_pure_read l : heap_pure (read l).
Proof. intros s a s' H. apply read_Ok_inv in H as (_ & ->). done. Qed.

Lemma heap_pure_zip_grids {A B C} (f : A -> B -> C) a b :
  heap_pure (zip_grids f a b).
Proof.
  intros s c s' H. apply zip_grids_Ok_inv in H as (_ & _ & ->). done.
Qed.

Ltac heap_pure_tac :=
  repeat first
    [ apply heap_pure_ret
    | apply heap_pure_raise
    | apply heap_pure_logger
    | apply heap_pure_of_option
    | apply heap_pure_read
    | apply heap_pure_zip_grids
    | assumption
    | apply heap_pure_bind; [|intro]
    | match goal with
      | |- heap_pure (match ?x with _ => _ end) => destruct x
      end ].

Lemma heap_pure_getattr self attr : heap_pure (getattr self attr).
Proof. unfold getattr. heap_pure_tac. Qed.

Lemma heap_pure_get_array self attr : heap_pure (get_array self attr).
Proof.
  unfold get_array. apply heap_pure_bind; [apply heap_pure_getattr|].
  intros v. heap_pure_tac.
Qed.

Lemma heap_pure_get_bool self attr : heap_pure (get_bool self attr).
Proof.
  unfold get_bool. apply heap_pure_bind; [apply heap_pure_getattr|].
  intros v. heap_pure_tac.
Qed.

Lemma heap_pure_get_labels self attr : heap_pure (get_labels self attr).
Proof.
  unfold get_labels. apply heap_pure_bind; [apply heap_pure_getattr|].
  intros v. heap_pure_tac.
Qed.

Lemma heap_pure_get_dict self attr : heap_pure (get_dict self attr).
Proof.
  unfold get_dict. apply heap_pure_bind; [apply heap_pure_getattr|].
  intros v. heap_pure_tac.
Qed.

Lemma heap_pure_get_time E self : heap_pure (get_time E self).
Proof. unfold get_time. heap_pure_tac. Qed.

Lemma heap_pure_require_entries {A} (g : grid A) :
  heap_pure (require_entries g).
Proof. unfold require_entries. heap_pure_tac. Qed.

Lemma heap_pure_label_eq clusters mask key :
  heap_pure (label_eq clusters mask key).
Proof. unfold label_eq. heap_pure_tac. Qed.

Lemma heap_pure_find_watercloud E lcf lat line :
  heap_pure (find_watercloud E lcf lat line).
Proof. unfold find_watercloud. heap_pure_tac. Qed.

Lemma heap_pure_apply_rows E lcf rows line :
  heap_pure (apply_rows E lcf rows line).
Proof.
  revert line. induction rows as [|lat rows IH]; intros line; simpl.
  - heap_pure_tac.
  - apply heap_pure_bind; [apply heap_pure_find_watercloud|]. intros res.
    apply heap_pure_bind; [apply IH|]. intros rest. heap_pure_tac.
Qed.

Lemma heap_pure_get_cluster_mean clusters values exclude noneg :
  heap_pure (get_cluster_mean clusters values exclude noneg).
Proof. unfold get_cluster_mean. heap_pure_tac. Qed.

Lemma heap_pure_workinputs a b c d : heap_pure (workinputs a b c d).
Proof. unfold workinputs. heap_pure_tac. Qed.

Ltac pure_tac :=
  repeat first
    [ apply heap_pure_get_array
    | apply heap_pure_get_bool
    | apply heap_pure_get_labels
    | apply heap_pure_get_dict
    | apply heap_pure_get_time
    | apply heap_pure_require_entries
    | apply heap_pure_label_eq
    | apply heap_pure_apply_rows
    | apply heap_pure_get_cluster_mean
    | apply heap_pure_workinputs
    | apply heap_pure_ret
    | apply heap_pure_raise
    | apply heap_pure_logger
    | apply heap_pure_of_option
    | apply heap_pure_read
    | apply heap_pure_zip_grids
    | apply heap_pure_bind; [|intro]
    | match goal with
      | |- heap_pure (match ?x with _ => _ end) => destruct x
      end ].

Lemma allocates_alloc m : allocates (alloc m).
Proof. intros s l s' [= <- <-]. simpl. eauto. Qed.

Lemma allocates_bind {A} (c : M A) (k : A -> M loc) :
  heap_pure c -> (forall a, allocates (k a)) -> allocates (c ≫= k).
Proof.
  intros Hc Hk s l s' H. apply bind_Ok_inv in H as (a & s1 & H1 & H2).
  apply Hk in H2. rewrite (Hc _ _ _ H1) in H2. done.
Qed.

Ltac allocates_tac :=
  repeat first
    [ apply allocates_alloc
    | apply allocates_bind; [solve [pure_tac]|intro] ].

Lemma allocates_evolves c s l s' :
  allocates c -> c s = (Ok l, s') -> evolves l (heap s) (heap s').
Proof.
  intros Hc H. apply Hc in H as (-> & m & ->). apply evolves_alloc.
Qed.

Section StoreFacts.

Context (E : Externals).

Lemma BaseArrayFilter_mask_allocates self :
  allocates (BaseArrayFilter_mask self).
Proof. unfold BaseArrayFilter_mask. allocates_tac. Qed.

Lemma CloudFilter_mask_allocates self : allocates (CloudFilter_mask E self).
Proof. unfold CloudFilter_mask. allocates_tac. Qed.

Lemma SnowFilter_mask_allocates self : allocates (SnowFilter_mask self).
Proof. unfold SnowFilter_mask. allocates_tac. Qed.

Lemma IceCloudFilter_mask_allocates self :
  allocates (IceCloudFilter_mask self).
Proof. unfold IceCloudFilter_mask. allocates_tac. Qed.

Lemma CirrusCloudFilter_mask_allocates self :
  allocates (CirrusCloudFilter_mask E self).
Proof. unfold CirrusCloudFilter_mask. allocates_tac. Qed.

Lemma WaterCloudFilter_mask_allocates self :
  allocates (WaterCloudFilter_mask E self).
Proof. unfold WaterCloudFilter_mask. allocates_tac. Qed.

Lemma CloudPhysicsFilter_mask_allocates self :
  allocates (CloudPhysicsFilter_mask self).
Proof. unfold CloudPhysicsFilter_mask. allocates_tac. Qed.

End StoreFacts.

Lemma updates_pure {A} m (c : M A) : heap_pure c -> updates m c.
Proof. intros Hc s a s' H. apply evolves_eq. eauto. Qed.

Lemma updates_bind {A B} m (c : M A) (k : A -> M B) :
  updates m c -> (forall a, updates m (k a)) -> updates m (c ≫= k).
Proof.
  intros Hc Hk s b s' H. apply bind_Ok_inv in H as (a & s1 & H1 & H2).
  eapply evolves_trans; [eapply Hc|eapply Hk]; eauto.
Qed.

Lemma updates_for_each {A} m (l : list A) (body : A -> M unit) :
  (forall x, updates m (body x)) -> updates m (for_each l body).
Proof.
  intros Hb. induction l as [|x l IH]; simpl.
  - apply updates_pure, heap_pure_ret.
  - apply updates_bind; [apply Hb|]. intros _. apply IH.
Qed.

Lemma updates_mask_block clusters m key :
  updates m (cm ← read m;
             cond ← label_eq clusters cm key;
             write m (assign_where cond true cm)).
Proof.
  intros s a s' H.
  apply bind_Ok_inv in H as (cm & s1 & Hr & H).
  apply read_Ok_inv in Hr as (Hcm & ->).
  apply bind_Ok_inv in H as (cond & s1 & Hc & H).
  unfold label_eq in Hc. apply zip_grids_Ok_inv in Hc as (Hs & -> & ->).
  injection H as _ <-. simpl.
  eapply evolves_insert; [eassumption|]. apply grows_assign_true.
  rewrite shape_grid_zip_with; done.
Qed.

Lemma get_labels_Ok_inv self attr g l s s' :
  get_labels self attr s = (Ok (g, l), s') ->
  attrs self !! attr = Some (VLabels g l) /\ s' = s.
Proof.
  unfold get_labels, getattr. intros H.
  apply bind_Ok_inv in H as (v & s1 & Hv & H).
  apply of_option_Ok_inv in Hv as (Hv & ->).
  destruct v; try done. injection H as -> -> ->. done.
Qed.

Lemma SpatialCloudTopHeightFilter_mask_inv self s m s' :
  SpatialCloudTopHeightFilter_mask self s = (Ok m, s') ->
  (exists clusters, attrs self !! "clusters" = Some (VLabels clusters m)) /\
  evolves m (heap s) (heap s').
Proof.
  unfold SpatialCloudTopHeightFilter_mask. intros H.
  apply bind_Ok_inv in H as ([] & s1 & Hlog & H).
  injection Hlog as <-.
  apply bind_Ok_inv in H as ([clusters lm] & s2 & Hc & H).
  apply get_labels_Ok_inv in Hc as (Hc & ->).
  apply bind_Ok_inv in H as (cluster_z & s2 & Hz & H).
  apply heap_pure_get_dict in Hz.
  apply bind_Ok_inv in H as ([] & s3 & Hloop & H).
  injection H as <- <-. split; [eauto|].
  match type of Hloop with ?c _ = _ => assert (Hup : updates lm c) end.
  { apply updates_for_each. intros kv. destruct (too_high (snd kv)).
    - apply updates_mask_block.
    - apply updates_pure, heap_pure_ret. }
  apply Hup in Hloop. rewrite Hz in Hloop. done.
Qed.

Lemma returns_ret {A} (a : A) (Q : A -> Prop) : Q a -> returns (mret a) Q.
Proof. intros HQ s a' s' [= <- <-]. done. Qed.

Lemma returns_bind {A B} (c : M A) (k : A -> M B) (Q : B -> Prop) :
  (forall a, returns (k a) Q) -> returns (c ≫= k) Q.
Proof.
  intros Hk s b s' H. apply bind_Ok_inv in H as (a & s1 & H1 & H2).
  eapply Hk; eauto.
Qed.

Lemma updates_write_results self clusters m keys results :
  forall i cbh fbh,
    updates m (write_results self clusters m keys i results cbh fbh).
Proof.
  induction results as [|res results IH]; intros i cbh fbh.
  - apply updates_pure, heap_pure_ret.
  - intros s a s' H. cbn [write_results] in H.
    apply bind_Ok_inv in H as (key & s1 & Hk & H).
    apply of_option_Ok_inv in Hk as (_ & ->).
    apply bind_Ok_inv in H as (cm & s1 & Hr & H).
    apply read_Ok_inv in Hr as (Hcm & ->).
    apply bind_Ok_inv in H as (cond & s1 & Hc & H).
    unfold label_eq in Hc. apply zip_grids_Ok_inv in Hc as (Hs & -> & ->).
    apply bind_Ok_inv in H as (cbh' & s1 & Hc & H).
    apply zip_grids_Ok_inv in Hc as (_ & _ & ->).
    apply bind_Ok_inv in H as (fbh' & s1 & Hc & H).
    apply zip_grids_Ok_inv in Hc as (_ & _ & ->).
    apply bind_Ok_inv in H as (elev & s1 & He & H).
    assert (Hh := heap_pure_get_array _ _ _ _ _ He).
    apply bind_Ok_inv in H as (above & s2 & Hc & H).
    apply zip_grids_Ok_inv in Hc as (_ & _ & ->).
    apply bind_Ok_inv in H as (cond2 & s2 & Hc & H).
    apply zip_grids_Ok_inv in Hc as (Hs2 & -> & ->).
    apply bind_Ok_inv in H as ([] & s2 & Hw & H).
    injection Hw as <-. apply IH in H. simpl in H.
    eapply evolves_trans; [|exact H]. rewrite Hh.
    eapply evolves_insert; [eassumption|]. apply grows_assign_true.
    rewrite shape_grid_zip_with by done.
    rewrite shape_grid_zip_with by done. done.
Qed.

Section LowCloudStore.

Context (E : Externals).

Lemma LowCloudFilter_heights_inv self s cbh fbh m s' :
  LowCloudFilter_heights E self s = (Ok (cbh, fbh, m), s') ->
  (exists clusters, attrs self !! "clusters" = Some (VLabels clusters m)) /\
  evolves m (heap s) (heap s').
Proof.
  unfold LowCloudFilter_heights. intros H.
  apply bind_Ok_inv in H as ([] & s1 & Hlog & H).
  injection Hlog as <-.
  apply bind_Ok_inv in H as ([clusters lm] & s2 & Hc & H).
  apply get_labels_Ok_inv in Hc as (Hc & ->).
  match type of H with ?c _ = _ =>
    assert (Hup : updates lm c);
    [|assert (Hret : returns c (fun r => snd r = lm))]
  end.
  { repeat first
      [ apply updates_write_results
      | apply updates_bind; [|intro]
      | apply updates_pure; solve [pure_tac] ]. }
  { repeat (apply returns_bind; intro). apply returns_ret. done. }
  apply Hret in H as Hm. simpl in Hm. subst lm.
  apply Hup in H. split; [eauto|done].
Qed.

Lemma LowCloudFilter_mask_inv self s m s' :
  LowCloudFilter_mask E self s = (Ok m, s') ->
  (exists clusters, attrs self !! "clusters" = Some (VLabels clusters m)) /\
  evolves m (heap s) (heap s').
Proof.
  unfold LowCloudFilter_mask. intros H.
  apply bind_Ok_inv in H as ([[cbh fbh] lm] & s1 & Hh & H).
  injection H as <- <-. eapply LowCloudFilter_heights_inv; eauto.
Qed.

End LowCloudStore.

(** the loop of the homogeneity filter never unmasks a pixel that is
    masked in [im], the inbound mask the masked label array was built
    from *)
Lemma hom_loop_inv clusters mam im dict (li : loc) vals :
  shape mam = shape im ->
  (forall i j, pix im i j = Some true -> pix mam i j = Some true) ->
  forall s s' h0,
    for_each vals (fun val =>
      b ← of_option KeyError (dict_get Z.eqb val dict);
      cm ← read li;
      cond ← label_eq clusters mam val;
      write li (assign_where cond b cm)) s = (Ok tt, s') ->
    (length (heap s) = length h0 /\
     (forall l, l <> li -> heap s !! l = h0 !! l) /\
     exists cm, heap s !! li = Some cm /\ grows im cm) ->
    (length (heap s') = length h0 /\
     (forall l, l <> li -> heap s' !! l = h0 !! l) /\
     exists cm, heap s' !! li = Some cm /\ grows im cm).
Proof.
  intros Sm Hsub. induction vals as [|val vals IH]; intros s s' h0 H Inv.
  - injection H as <-. done.
  - cbn [for_each] in H.
    apply bind_Ok_inv in H as ([] & s1 & Hbody & H).
    apply (IH _ _ h0) in H; [done|]. clear IH H.
    apply bind_Ok_inv in Hbody as (b & s2 & Hb & Hbody).
    apply of_option_Ok_inv in Hb as (_ & ->).
    apply bind_Ok_inv in Hbody as (cm & s2 & Hr & Hbody).
    apply read_Ok_inv in Hr as (Hcm & ->).
    apply bind_Ok_inv in Hbody as (cond & s2 & Hc & Hbody).
    unfold label_eq in Hc. apply zip_grids_Ok_inv in Hc as (Hs & -> & ->).
    injection Hbody as <-. simpl.
    destruct Inv as (Hlen & Hoth & cm0 & Hcm0 & [Sg Hg]).
    assert (cm0 = cm) by congruence. subst cm0.
    split; [rewrite length_insert; done|]. split.
    + intros l Hne. rewrite list_lookup_insert_ne by done. auto.
    + eexists. split.
      * apply list_lookup_insert_eq. eapply lookup_lt_Some; eauto.
      * split.
        -- rewrite shape_assign_where; [done|].
           rewrite shape_grid_zip_with by done. congruence.
        -- intros i j Hb. unfold assign_where.
           assert (is_Some (pix clusters i j)) as [l Hl].
           { apply (pix_same_shape im); [congruence|eauto]. }
           assert (Hcond :
             pix (grid_zip_with (fun l m => negb m && Z.eqb l val)
                    clusters mam) i j = Some (negb true && Z.eqb l val))
             by (apply (pix_grid_zip_with
                          (fun l m => negb m && Z.eqb l val) clusters mam
                          i j l true); [done|apply Hsub; done]).
           rewrite (pix_grid_zip_with _ _ _ i j _ _ Hcond (Hg i j Hb)).
           done.
Qed.

Section HomogeneityStore.

Context (E : Externals).

Lemma SpatialHomogeneityFilter_mask_inv self s m s' :
  SpatialHomogeneityFilter_mask E self s = (Ok m, s') ->
  inmask self = Some m /\ evolves m (heap s) (heap s').
Proof.
  unfold SpatialHomogeneityFilter_mask. intros H.
  apply bind_Ok_inv in H as ([] & s1 & Hlog & H).
  injection Hlog as <-.
  apply bind_Ok_inv in H as (li & s2 & Hli & H).
  apply of_option_Ok_inv in Hli as (Hli & ->).
  apply bind_Ok_inv in H as ([clusters lc] & s2 & Hc & H).
  apply get_labels_Ok_inv in Hc as (Hc & ->).
  apply bind_Ok_inv in H as (clmask & s2 & Hr & H).
  apply read_Ok_inv in Hr as (Hcl & ->).
  apply bind_Ok_inv in H as (nlbl & s2 & Hn & H).
  apply of_option_Ok_inv in Hn as (_ & ->).
  apply bind_Ok_inv in H as (im & s2 & Hr & H).
  apply read_Ok_inv in Hr as (Him & ->).
  apply bind_Ok_inv in H as (mam & s2 & Hz & H).
  apply zip_grids_Ok_inv in Hz as (Hs & -> & ->).
  apply bind_Ok_inv in H as (ir108 & s2 & Hi & H).
  assert (Hh := heap_pure_get_array _ _ _ _ _ Hi).
  apply bind_Ok_inv in H as (cluster_sd & s3 & Hsd & H).
  apply of_option_Ok_inv in Hsd as (_ & ->).
  apply bind_Ok_inv in H as (dict & s3 & Hd & H).
  apply of_option_Ok_inv in Hd as (_ & ->).
  apply bind_Ok_inv in H as ([] & s3 & Hloop & H).
  injection H as <- <-. split; [done|].
  simpl in Him, Hcl.
  assert (Sm : shape (grid_zip_with orb im clmask) = shape im)
    by (rewrite shape_grid_zip_with; done).
  assert (Hsub : forall i j, pix im i j = Some true ->
            pix (grid_zip_with orb im clmask) i j = Some true).
  { intros i j Hb.
    assert (is_Some (pix clmask i j)) as [c Hcb]
      by (apply (pix_same_shape im); eauto).
    rewrite (pix_grid_zip_with orb im clmask i j true c Hb Hcb). done. }
  destruct (hom_loop_inv clusters _ im dict li _ Sm Hsub _ _ (heap s) Hloop)
    as (Hlen & Hoth & cm & Hcm & G).
  { rewrite Hh. simpl. split; [done|]. split; [done|].
    exists im. split; [done|apply grows_refl]. }
  split; [lia|]. split.
  - intros l g Hne Hl. rewrite Hoth by done. done.
  - intros g Hg. assert (g = im) by congruence. subst g. eauto.
Qed.

End HomogeneityStore.

(** ** The base class: [isapplicable], [check_results] and [apply] *)

Lemma heap_pure_isapplicable self : heap_pure (isapplicable self).
Proof.
  unfold isapplicable. apply heap_pure_bind; [apply heap_pure_of_option|].
  intros al. induction al as [|attr al IH]; simpl.
  - apply heap_pure_ret.
  - destruct (hasattr self attr); [done|]. pure_tac. done.
Qed.

Lemma heap_pure_filter_stats self mask : heap_pure (filter_stats self mask).
Proof. unfold filter_stats. pure_tac. Qed.

Lemma heap_pure_check_results E self mask :
  heap_pure (check_results E self mask).
Proof.
  unfold check_results.
  apply heap_pure_bind; [apply heap_pure_filter_stats|]. intros _.
  pure_tac.
Qed.

Section ApplyFacts.

Context (E : Externals).

Lemma filter_mask_evolves self s m s1 :
  filter_mask E self s = (Ok m, s1) -> evolves m (heap s) (heap s1).
Proof.
  unfold filter_mask. destruct (cls self); intros H.
  - eapply allocates_evolves; [apply BaseArrayFilter_mask_allocates|done].
  - eapply allocates_evolves; [apply CloudFilter_mask_allocates|done].
  - eapply allocates_evolves; [apply SnowFilter_mask_allocates|done].
  - eapply allocates_evolves; [apply IceCloudFilter_mask_allocates|done].
  - eapply allocates_evolves; [apply CirrusCloudFilter_mask_allocates|done].
  - eapply allocates_evolves; [apply WaterCloudFilter_mask_allocates|done].
  - apply SpatialCloudTopHeightFilter_mask_inv in H as (_ & H). done.
  - apply SpatialHomogeneityFilter_mask_inv in H as (_ & H). done.
  - eapply allocates_evolves; [apply CloudPhysicsFilter_mask_allocates|done].
  - apply LowCloudFilter_mask_inv in H as (_ & H). done.
Qed.

Lemma apply_Ok_inv self s r m s' :
  apply E self s = (Ok (r, m), s') ->
  exists s0 s1 s2,
    isapplicable self s = (Ok true, s0) /\
    filter_mask E self s0 = (Ok m, s1) /\
    set_result self m s1 = (Ok (r, m), s2) /\
    heap s0 = heap s /\ heap s' = heap s2.
Proof.
  unfold apply. intros H.
  apply bind_Ok_inv in H as (ok & s0 & Hok & H).
  destruct ok; [|done].
  apply bind_Ok_inv in H as ([r0 m0] & s2 & Hf & H).
  apply bind_Ok_inv in H as (b & s3 & Hc & H).
  injection H as -> -> ->.
  unfold filter_function in Hf.
  apply bind_Ok_inv in Hf as (mask & s1 & Hm & Hr).
  destruct (set_result_Ok_inv _ _ _ _ _ _ Hr) as (-> & _).
  exists s0, s1, s2. repeat split; try done.
  - eapply heap_pure_isapplicable; eauto.
  - eapply heap_pure_check_results; eauto.
Qed.

End ApplyFacts.

(** ** Mask accumulation: claim C1 *)

Section MaskClaim.

Context (E : Externals).

(** C1, as the code has it: for every filter class and every input on
    which [apply()] returns, the masked result array returned by [apply()]
    carries as its mask the logical OR of the filter's own mask and the
    inbound mask (the mask [arr] had when [apply()] was called), so that
    every pixel masked inbound is masked in the result and filters chained
    through their result arrays never unmask a pixel.  The mask returned
    next to it is the filter's own mask.  For a plain [arr] the mask of
    the result is the filter's mask itself. *)
Theorem apply_result_mask_is_union self s r m s' :
  apply E self s = (Ok (r, m), s') ->
  match inmask self with
  | None => ma_mask r = m
  | Some li =>
      forall im, heap s !! li = Some im ->
        exists rm fm,
          heap s' !! ma_mask r = Some rm /\
          heap s' !! m = Some fm /\
          shape rm = shape im /\
          (forall i j b, pix im i j = Some b ->
             exists c, pix fm i j = Some c /\ pix rm i j = Some (b || c)) /\
          (forall i j, pix im i j = Some true -> pix rm i j = Some true)
  end.
Proof.
  intros H.
  apply apply_Ok_inv in H as (s0 & s1 & s2 & _ & Hm & Hr & Hh0 & Hh').
  apply filter_mask_evolves in Hm. rewrite Hh0 in Hm.
  destruct Hm as (_ & Hoth & Hsame).
  destruct (set_result_Ok_inv _ _ _ _ _ _ Hr) as (_ & _ & _ & fm & Hfm & Sfm & Hin).
  destruct (inmask self) as [li|]; [|destruct Hin; done].
  intros im Him.
  destruct Hin as (im1 & Him1 & Sim1 & Hrm & Hh2).
  set (rm := grid_zip_with orb fm im1) in *.
  assert (Hlrm : heap s' !! ma_mask r = Some rm).
  { rewrite Hh', Hh2, Hrm, lookup_app_r, Nat.sub_diag by lia. done. }
  assert (Hlfm : heap s' !! m = Some fm).
  { rewrite Hh', Hh2. apply lookup_app_l_Some. done. }
  assert (Hpix : shape rm = shape im /\
    forall i j b, pix im i j = Some b ->
      exists c, pix fm i j = Some c /\ pix rm i j = Some (b || c)).
  { destruct (decide (li = m)) as [->|Hne].
    - destruct (Hsame im Him) as (g1 & Hg1 & [Sg Hg]).
      assert (g1 = fm) by congruence. assert (im1 = fm) by congruence.
      subst g1 im1. split.
      + unfold rm. rewrite shape_grid_zip_with; done.
      + intros i j b Hb.
        assert (is_Some (pix fm i j)) as [c Hc]
          by (apply (pix_same_shape im); eauto).
        exists c. split; [done|]. unfold rm.
        rewrite (pix_grid_zip_with orb fm fm i j c c Hc Hc). f_equal.
        destruct b; [|destruct c; done].
        rewrite (Hg i j Hb) in Hc. injection Hc as <-. done.
    - assert (im1 = im) by (apply (Hoth li im Hne) in Him; congruence).
      subst im1. split.
      + unfold rm. rewrite shape_grid_zip_with; congruence.
      + intros i j b Hb.
        assert (is_Some (pix fm i j)) as [c Hc]
          by (apply (pix_same_shape im); eauto).
        exists c. split; [done|]. unfold rm.
        rewrite (pix_grid_zip_with orb fm im i j c b Hc Hb).
        rewrite orb_comm. done. }
  destruct Hpix as (Srm & Hpix).
  exists rm, fm. repeat split; try done.
  intros i j Hb. destruct (Hpix i j true Hb) as (c & _ & Hc). done.
Qed.

End MaskClaim.

Lemma apply_result_mask_is_union_witness :
  exists r m s' rm,
    apply sample_externals sample_ice sample_ice_state = (Ok (r, m), s') /\
    heap s' !! ma_mask r = Some rm /\ pix rm 0 0 = Some true.
Proof.
  assert (Hrun : exists r m s',
    apply sample_externals sample_ice sample_ice_state = (Ok (r, m), s'))
    by (eexists _, _, _; vm_compute; reflexivity).
  destruct Hrun as (r & m & s' & Hrun).
  destruct (apply_result_mask_is_union sample_externals sample_ice
              sample_ice_state r m s' Hrun [[true]] eq_refl)
    as (rm & fm & Hrm & _ & _ & _ & Hkeep).
  exists r, m, s', rm. split; [exact Hrun|]. split; [exact Hrm|].
  apply Hkeep. reflexivity.
Defined.

(** The claim as the specification states it fails: the only pixel is
    masked inbound; it passes the ice cloud tests (12.0 um minus 8.7 um
    difference 10, temperature 280 K); the mask returned by [apply()] has
    the pixel unmasked, so it is not the OR with the inbound mask. *)
Lemma apply_returned_mask_counterexample :
  exists r m s' fm,
    apply sample_externals sample_ice sample_ice_state = (Ok (r, m), s') /\
    heap sample_ice_state !! 0 = Some [[true]] /\
    inmask sample_ice = Some 0 /\
    heap s' !! m = Some fm /\
    pix fm 0 0 = Some false.
Proof.
  eexists _, _, _, _. split; [vm_compute; reflexivity|].
  repeat split; reflexivity.
Qed.

(** ** Frame of the cluster filters: claim C9 *)

Section FrameClaim.

Context (E : Externals).


End FrameClaim.



(** ** Applicability: claim C8 *)

Lemma isapplicable_loop_run self al s :
  foldr (fun attr rest =>
           if hasattr self attr then rest
           else
             logger LWarning (MsgText ("Missing input attribute: " ++ attr));;
             r ← rest; mret false)
        (mret true) al s
  = (Ok (forallb (hasattr self) al),
     mkState (heap s) (log s ++ missing_warnings self al)).
Proof.
  revert s. induction al as [|attr al IH]; intros s.
  - destruct s. simpl. unfold missing_warnings. simpl.
    rewrite app_nil_r. done.
  - cbn [foldr forallb]. unfold missing_warnings.
    rewrite filter_cons.
    destruct (hasattr self attr) eqn:Hattr.
    + rewrite decide_False by done. simpl. apply IH.
    + rewrite decide_True by done. mstep.
      rewrite (bind_ok _ _ _ _ _ (IH _)). simpl.
      unfold missing_warnings. rewrite <- app_assoc. done.
Qed.

Section ApplicableClaim.

Context (E : Externals).

(** C8, as the code has it: for every filter class that declares a list
    of required inputs (all but the base class), [isapplicable()] returns
    true if and only if every attribute of the list is present on the
    object; no shape is compared.  It logs one warning for each missing
    attribute and does not raise.  [apply()] on a filter that is not
    applicable raises [NotApplicableError] with a message that names the
    class, and the algorithm of the filter is not run: the store is
    untouched and the log holds the warnings only. *)
Theorem isapplicable_iff_attributes_present self s al :
  attrlist (cls self) = Some al ->
  let s0 := mkState (heap s) (log s ++ missing_warnings self al) in
  exists b,
    isapplicable self s = (Ok b, s0) /\
    (b = true <-> forall attr, In attr al -> hasattr self attr = true) /\
    (forall attr, In attr al -> hasattr self attr = false ->
       In (LWarning, MsgText ("Missing input attribute: " ++ attr))
          (new_log s s0)) /\
    (b = false ->
     apply E self s
       = (Raise (NotApplicableError
                   ("Array filter <" ++ class_name (cls self)
                    ++ "> is not applicable")), s0)).
Proof.
  intros Hal s0. exists (forallb (hasattr self) al).
  assert (Hrun : isapplicable self s = (Ok (forallb (hasattr self) al), s0)).
  { unfold isapplicable. rewrite Hal. mstep. apply isapplicable_loop_run. }
  split; [done|]. split; [|split].
  - rewrite forallb_forall. done.
  - intros attr Hin Hmiss. unfold new_log, s0. simpl.
    rewrite drop_app_length. unfold missing_warnings.
    apply (in_map (fun attr : string =>
             (LWarning, MsgText ("Missing input attribute: " ++ attr)))).
    apply list_elem_of_In, list_elem_of_filter.
    split; [done|]. apply list_elem_of_In. done.
  - intros Hb. unfold apply. rewrite (bind_ok _ _ _ _ _ Hrun), Hb. done.
Qed.

End ApplicableClaim.

Lemma isapplicable_iff_attributes_present_witness :
  apply sample_externals sample_snow_missing (mkState [] [])
  = (Raise (NotApplicableError "Array filter <SnowFilter> is not applicable"),
     mkState []
       [(LWarning, MsgText "Missing input attribute: vis008");
        (LWarning, MsgText "Missing input attribute: nir016")]).
Proof.
  destruct (isapplicable_iff_attributes_present sample_externals
              sample_snow_missing (mkState [] [])
              ["vis006"; "vis008"; "nir016"; "ir108"] eq_refl)
    as (b & Hrun & _ & _ & Hraise).
  vm_compute in Hrun. injection Hrun as <-.
  rewrite (Hraise eq_refl). vm_compute. reflexivity.
Defined.

(** The claim as the specification states it fails: every required
    attribute is present, the arrays are of three different shapes, and
    [isapplicable()] returns true. *)
Lemma isapplicable_ignores_shape_counterexample :
  isapplicable sample_snow_mismatched (mkState [] [])
    = (Ok true, mkState [] []) /\
  attrs sample_snow_mismatched !! "vis006" = Some (VArray [[Fin 0.5]]) /\
  attrs sample_snow_mismatched !! "vis008"
    = Some (VArray [[Fin 20; Fin 30]]) /\
  shape [[Fin 0.5]] <> shape [[Fin 20; Fin 30]].
Proof.
  split; [vm_compute; reflexivity|]. split; [reflexivity|].
  split; [reflexivity|]. discriminate.
Qed.

(** the base class declares no list of required inputs: [isapplicable()]
    raises there *)
Lemma isapplicable_BaseArrayFilter self s :
  cls self = BaseArrayFilter ->
  isapplicable self s = (Raise (AttributeError "attrlist"), s).
Proof. intros H. unfold isapplicable. rewrite H. done. Qed.

(** ** The low cloud filter and the worker pool: claims C2 and C4 *)

Lemma omap_lookup_total {A B} (f : A -> option B) (l : list A) :
  (forall x, In x l -> is_Some (f x)) ->
  length (omap f l) = length l /\
  forall i x, l !! i = Some x -> omap f l !! i = f x.
Proof.
  induction l as [|a l IH]; intros H; [done|].
  destruct (H a (or_introl eq_refl)) as (b & Hb).
  destruct IH as (Hlen & Hlook); [intros x Hx; apply H; simpl; auto|].
  simpl. rewrite Hb. simpl. split; [f_equal; exact Hlen|].
  intros [|i] x Hx; simpl in Hx |- *; [congruence|exact (Hlook i x Hx)].
Qed.

Section PoolFacts.

Context (E : Externals).

(** a model whose calls raise gives the pair of not-a-numbers *)
Lemma get_fog_base_height_raises cwp cth ctt reff :
  lwc_new E cth ctt (fmul cwp lwp_corr) reff = true ->
  lwc_cloud_base_height E cth ctt (fmul cwp lwp_corr) reff = None \/
  lwc_fog_base_height E cth ctt (fmul cwp lwp_corr) reff = None ->
  get_fog_base_height E cwp cth ctt reff = Some (NaN, NaN).
Proof.
  intros Hnew H. unfold get_fog_base_height. rewrite Hnew.
  destruct H as [-> | ->]; [done|].
  destruct (lwc_cloud_base_height _ _ _ _ _); done.
Qed.

(** an undefined fog base height is never above the elevation *)
Lemma nan_height_not_above (elev : fval) :
  fgtb (fsub NaN elev) (Fin 0) = false.
Proof. destruct elev; reflexivity. Qed.

(** When building the model never raises and every submitted task
    completes, there are as many results as tasks, and result number [i]
    of [result_list] is the result of the task that completed as number
    [i]; [write_results] writes it to the pixels of [keys[i]]. *)
Lemma result_list_in_completion_order tasks :
  (forall cth ctt cwp reff, lwc_new E cth ctt cwp reff = true) ->
  Permutation (completion_order E (length tasks)) (seq 0 (length tasks)) ->
  length (result_list E tasks) = length tasks /\
  forall i j, completion_order E (length tasks) !! i = Some j ->
    exists lwp cth ctt reff,
      tasks !! j = Some (lwp, cth, ctt, reff) /\
      result_list E tasks !! i = get_fog_base_height E lwp cth ctt reff.
Proof.
  intros Hnew Hperm. unfold result_list.
  set (f := fun i : nat =>
    w ← tasks !! i;
    let '(lwp, cth, ctt, reff) := w in
    get_fog_base_height E lwp cth ctt reff).
  assert (Hin : forall j, In j (completion_order E (length tasks)) ->
            j < length tasks).
  { intros j Hj. apply (Permutation_in _ Hperm) in Hj.
    apply in_seq in Hj. lia. }
  destruct (omap_lookup_total f (completion_order E (length tasks)))
    as (Hlen & Hlook).
  { intros j Hj. unfold f.
    destruct (lookup_lt_is_Some_2 tasks j (Hin j Hj)) as ([[[lwp cth] ctt] reff] & ->).
    simpl. unfold get_fog_base_height. rewrite Hnew.
    destruct (lwc_cloud_base_height E _ _ _ _);
      [destruct (lwc_fog_base_height E _ _ _ _)|]; eauto. }
  split.
  - rewrite Hlen. apply Permutation_length in Hperm.
    rewrite Hperm, length_seq. done.
  - intros i j Hij.
    assert (Hj : j < length tasks).
    { apply Hin. apply list_elem_of_In. eapply list_elem_of_lookup_2; eauto. }
    destruct (lookup_lt_is_Some_2 tasks j Hj) as ([[[lwp cth] ctt] reff] & Hw).
    exists lwp, cth, ctt, reff. split; [done|].
    rewrite (Hlook i j Hij). unfold f. rewrite Hw. done.
Qed.

End PoolFacts.

(** C2 fails on the code: [log_result] appends the results in the order
    of completion, and the loop over [enumerate(self.result_list)] writes
    result number [i] to the pixels of [keys[i]].  With the two tasks
    completing in the order of submission the cloud base heights 300 and
    400, computed from the aggregates of labels 1 and 2, are written to
    the pixels of labels 1 and 2; with the task of label 2 completing
    first they are exchanged. *)
Theorem low_cloud_results_follow_completion_order :
  get_fog_base_height sample_externals (of_Z 100) (of_Z 300) (Fin 280)
    (Fin 1e-5) = Some (Fin 300, Fin 88.00) /\
  (exists cbh fbh m s',
     LowCloudFilter_heights sample_externals
       (sample_lowcloud [[Fin 0.1; Fin 0.2]]) sample_lowcloud_state
       = (Ok (cbh, fbh, m), s') /\
     heights_are cbh [[of_Z 300; of_Z 400]] = true /\
     heights_are fbh [[of_Z 88; of_Z 176]] = true) /\
  (exists cbh fbh m s',
     LowCloudFilter_heights reversed_externals
       (sample_lowcloud [[Fin 0.1; Fin 0.2]]) sample_lowcloud_state
       = (Ok (cbh, fbh, m), s') /\
     heights_are cbh [[of_Z 400; of_Z 300]] = true /\
     heights_are fbh [[of_Z 176; of_Z 88]] = true).
Proof.
  split; [reflexivity|]. split.
  - eexists _, _, _, _. split; [vm_compute; reflexivity|].
    split; reflexivity.
  - eexists _, _, _, _. split; [vm_compute; reflexivity|].
    split; reflexivity.
Qed.

(** C4 fails on the code, by the same defect: the cluster of label 1 has
    no valid water path, so that its model call raises and its result is
    the pair of not-a-numbers; the order of completion decides where that
    pair is written.  With the task of label 2 completing first, the pixel
    of label 1 gets the heights of label 2 and is masked (its fog base
    height 176 is above the elevation 50), and the pixel of label 2 gets
    the not-a-numbers. *)
Theorem low_cloud_failed_cluster_follows_completion_order :
  get_fog_base_height sample_externals NaN (of_Z 300) (Fin 280) (Fin 1e-5)
    = Some (NaN, NaN) /\
  (exists cbh fbh m s' fog_mask,
     LowCloudFilter_heights sample_externals
       (sample_lowcloud [[Fin 0; Fin 0.2]]) sample_lowcloud_state
       = (Ok (cbh, fbh, m), s') /\
     heights_are cbh [[NaN; of_Z 400]] = true /\
     heights_are fbh [[NaN; of_Z 176]] = true /\
     heap s' !! m = Some fog_mask /\ fog_mask = [[false; true]]) /\
  (exists cbh fbh m s' fog_mask,
     LowCloudFilter_heights reversed_externals
       (sample_lowcloud [[Fin 0; Fin 0.2]]) sample_lowcloud_state
       = (Ok (cbh, fbh, m), s') /\
     heights_are cbh [[of_Z 400; NaN]] = true /\
     heights_are fbh [[of_Z 176; NaN]] = true /\
     heap s' !! m = Some fog_mask /\ fog_mask = [[true; false]]).
Proof.
  split; [reflexivity|]. split.
  - eexists _, _, _, _, _. split; [vm_compute; reflexivity|].
    repeat split; reflexivity.
  - eexists _, _, _, _, _. split; [vm_compute; reflexivity|].
    repeat split; reflexivity.
Qed.
(** * Further properties of the filters *)

(** ** Running [apply] *)

Lemma isapplicable_true self s al :
  attrlist (cls self) = Some al ->
  (forall attr, In attr al -> hasattr self attr = true) ->
  isapplicable self s = (Ok true, s).
Proof.
  intros Hal Hall. unfold isapplicable. rewrite Hal. mstep.
  rewrite isapplicable_loop_run.
  assert (Hf : forallb (hasattr self) al = true)
    by (apply forallb_forall; done).
  assert (Hw : missing_warnings self al = []).
  { unfold missing_warnings. clear Hal Hf.
    induction al as [|a al IH]; [done|].
    rewrite filter_cons, (Hall a (or_introl eq_refl)).
    rewrite decide_False by done. apply IH.
    intros attr Hin. apply Hall. right. done. }
  rewrite Hf, Hw, app_nil_r. destruct s. done.
Qed.

(** the three counts of [filter_stats] for a filter mask [m] and an
    inbound mask [im] *)
Lemma count_true_app (a b : list bool) :
  length (filter (fun x => x = true) (a ++ b))
  = length (filter (fun x => x = true) a)
    + length (filter (fun x => x = true) b).
Proof. rewrite filter_app, length_app. done. Qed.

Lemma count_true_le (m : grid bool) : count_true m <= grid_size m.
Proof. unfold count_true, grid_size. apply length_filter. Qed.

Lemma row_counts_partition (im m : list bool) :
  length im = length m ->
  length (filter (fun x => x = true) im)
  + length (filter (fun x => x = true)
              (zip_with (fun i k => negb i && k) im m))
  + length (filter (fun x => x = true)
              (zip_with (fun k i => negb k && negb i) m im))
  = length m.
Proof.
  revert m. induction im as [|i im IH]; intros [|k m] H; simpl in *; try done.
  injection H as H. specialize (IH m H).
  rewrite !filter_cons.
  destruct i, k; simpl; lia.
Qed.

Lemma grid_counts_partition (im m : grid bool) :
  shape im = shape m ->
  count_true im
  + count_true (grid_zip_with (fun i k => negb i && k) im m)
  + count_true (grid_zip_with (fun k i => negb k && negb i) m im)
  = grid_size m.
Proof.
  unfold count_true, grid_size, grid_zip_with, shape. revert m.
  induction im as [|r im IH]; intros [|r' m] H; simpl in *; try done.
  injection H as Hr H. specialize (IH m H).
  rewrite !count_true_app, length_app.
  pose proof (row_counts_partition r r' Hr). lia.
Qed.

(** X1: the statistics reported by [filter_stats] count every pixel once:
    the pixels masked inbound, the pixels newly masked by the filter and the
    pixels that remain unmasked add up to the size of the array.  For a
    plain [arr] no pixel counts as masked inbound and every pixel of the
    filter mask counts as new. *)
Theorem filter_stats_counts_partition self mask s m :
  heap s !! mask = Some m ->
  (forall li, inmask self = Some li ->
     exists im, heap s !! li = Some im /\ shape im = shape m) ->
  exists inmask_num new_masked remain,
    filter_stats self mask s
      = (Ok tt,
         mkState (heap s)
           (log s ++ [(LInfo, MsgStats (class_name (cls self)) (grid_size m)
                                (count_true m) inmask_num new_masked remain)]))
    /\ inmask_num + new_masked + remain = grid_size m
    /\ (inmask self = None -> inmask_num = 0 /\ new_masked = count_true m)
    /\ (forall li im, inmask self = Some li -> heap s !! li = Some im ->
          inmask_num = count_true im).
Proof.
  intros Hm Hin. unfold filter_stats.
  destruct (inmask self) as [li|] eqn:Hli.
  - destruct (Hin li eq_refl) as (im & Him & Sim).
    eexists _, _, _. split; [|split; [|split]].
    + do 4 mstep. reflexivity.
    + apply grid_counts_partition. done.
    + done.
    + intros li' im' [= <-] Him'. congruence.
  - eexists _, _, _. split; [|split; [|split]].
    + mstep. reflexivity.
    + pose proof (count_true_le m). lia.
    + done.
    + done.
Qed.

Lemma filter_stats_counts_partition_witness :
  exists inmask_num new_masked remain,
    filter_stats sample_ice 0 sample_ice_state
      = (Ok tt,
         mkState [[[true]]]
           [(LInfo, MsgStats "IceCloudFilter" 1 1 inmask_num new_masked remain)])
    /\ inmask_num + new_masked + remain = 1.
Proof.
  destruct (filter_stats_counts_partition sample_ice 0 sample_ice_state
              [[true]] eq_refl) as (a & b & c & Hrun & Hsum & _).
  - intros li [= <-]. exists [[true]]. split; reflexivity.
  - exists a, b, c. split; [exact Hrun|exact Hsum].
Defined.

Lemma hasattr_Some self attr v :
  attrs self !! attr = Some v -> hasattr self attr = true.
Proof.
  intros H. unfold hasattr. rewrite H.
  rewrite bool_decide_eq_true_2 by eauto. done.
Qed.

Section ApplyRun.

Context (E : Externals).

Lemma check_results_run self mask s m :
  heap s !! mask = Some m ->
  (forall li, inmask self = Some li ->
     exists im, heap s !! li = Some im /\ shape im = shape m) ->
  plot self = false \/ plot_filter E = true ->
  exists s', check_results E self mask s = (Ok true, s') /\ heap s' = heap s.
Proof.
  intros Hm Hin Hplot. unfold check_results, filter_stats.
  assert (Hp : forall s0 : state,
    (if plot self then if plot_filter E then mret () else raise PlotError
     else mret ()) s0 = (Ok tt, s0)).
  { intros s0. destruct Hplot as [-> | Hp]; [done|].
    rewrite Hp. destruct (plot self); done. }
  destruct (inmask self) as [li|] eqn:Hli.
  - destruct (Hin li eq_refl) as (im & Him & Sim).
    eexists. split.
    + erewrite bind_ok.
      2:{ do 4 mstep. reflexivity. }
      cbv beta iota. erewrite bind_ok by apply Hp. reflexivity.
    + reflexivity.
  - eexists. split.
    + erewrite bind_ok.
      2:{ mstep. reflexivity. }
      cbv beta iota. erewrite bind_ok by apply Hp. reflexivity.
    + reflexivity.
Qed.

(** [apply()] returns when the required attributes are present and the
    filter function computes a mask of the shape of [arr] *)
Lemma apply_run self s al mask s1 m :
  attrlist (cls self) = Some al ->
  (forall attr, In attr al -> hasattr self attr = true) ->
  filter_mask E self s = (Ok mask, s1) ->
  heap s1 !! mask = Some m ->
  shape m = shape (arr self) ->
  inmask_ok self (heap s1) ->
  plot self = false \/ plot_filter E = true ->
  exists r s',
    apply E self s = (Ok (r, mask), s') /\
    forall l g, heap s1 !! l = Some g -> heap s' !! l = Some g.
Proof.
  intros Hal Hall Hmask Hm Sm Hin Hplot.
  destruct (set_result_run self mask s1 m Hm Sm Hin)
    as (r & s2 & Hres & _ & Hkeep).
  destruct (check_results_run self mask s2 m (Hkeep _ _ Hm)) as (s' & Hc & Hh);
    [|done|].
  { intros li Hli. destruct (Hin li Hli) as (im & Him & Sim).
    exists im. split; [auto|congruence]. }
  exists r, s'. split.
  - unfold apply. rewrite (bind_ok _ _ _ _ _ (isapplicable_true self s al Hal Hall)).
    unfold filter_function. cbv beta iota.
    erewrite bind_ok.
    2:{ rewrite (bind_ok _ _ _ _ _ Hmask). exact Hres. }
    cbv beta iota. simpl snd. rewrite (bind_ok _ _ _ _ _ Hc). reflexivity.
  - intros l g Hl. rewrite Hh. auto.
Qed.

End ApplyRun.

Ltac attr_tac :=
  simpl; intros ? Hattr;
  repeat (destruct Hattr as [<- | Hattr];
          [eapply hasattr_Some; eassumption|]);
  destruct Hattr.

Lemma inmask_ok_app self h x : inmask_ok self h -> inmask_ok self (h ++ [x]).
Proof.
  intros H li Hli. destruct (H li Hli) as (im & Him & Sim).
  exists im. split; [apply lookup_app_l_Some; done|done].
Qed.

Lemma lookup_app_new {A} (h : list A) (x : A) : (h ++ [x]) !! length h = Some x.
Proof. rewrite lookup_app_r, Nat.sub_diag by lia. done. Qed.

(** ** The snow, ice cloud and cloud physics filters *)

Section ThresholdFilters.

Context (E : Externals).


(** X3: the ice cloud filter returns a new mask array in which a pixel is
    masked exactly when the 12.0 um minus 8.7 um difference is below 2.5 or
    the 10.8 um temperature is below 250; a pixel whose values are
    not-a-number is not masked.  The arrays of the store are left as they
    were. *)
Theorem ice_cloud_filter_mask self s ir120 ir087 ir108 :
  cls self = IceCloudFilter ->
  attrs self !! "ir120" = Some (VArray ir120) ->
  attrs self !! "ir087" = Some (VArray ir087) ->
  attrs self !! "ir108" = Some (VArray ir108) ->
  shape ir120 = shape (arr self) ->
  shape ir087 = shape (arr self) ->
  shape ir108 = shape (arr self) ->
  inmask_ok self (heap s) ->
  plot self = false ->
  exists r s' m,
    apply E self s = (Ok (r, length (heap s)), s') /\
    heap s' !! length (heap s) = Some m /\
    (forall l g, heap s !! l = Some g -> heap s' !! l = Some g) /\
    shape m = shape (arr self) /\
    (forall i j a b c,
       pix ir120 i j = Some a -> pix ir087 i j = Some b ->
       pix ir108 i j = Some c ->
       pix m i j = Some (fltb (fsub a b) (Fin 2.5) || fltb c (of_Z 250))) /\
    (forall i j b,
       pix ir120 i j = Some NaN -> pix ir087 i j = Some b ->
       pix ir108 i j = Some NaN ->
       pix m i j = Some false).
Proof.
  intros Hcls H120 H087 H108 S120 S087 S108 Hin Hplot.
  eassert (Hrun : IceCloudFilter_mask self s = (Ok (length (heap s)), _)).
  { unfold IceCloudFilter_mask. do 6 mstep. reflexivity. }
  match type of Hrun with
  | _ = (_, mkState (_ ++ [?m0]) _) => set (m := m0) in *
  end.
  simpl in Hrun.
  assert (Hpix : forall i j a b c,
    pix ir120 i j = Some a -> pix ir087 i j = Some b ->
    pix ir108 i j = Some c ->
    pix m i j = Some (fltb (fsub a b) (Fin 2.5) || fltb c (of_Z 250))).
  { intros i j a b c Ha Hb Hc. unfold m.
    erewrite pix_grid_zip_with; [reflexivity| |].
    - rewrite pix_grid_map.
      erewrite pix_grid_zip_with; [reflexivity|eassumption|eassumption].
    - rewrite pix_grid_map, Hc. reflexivity. }
  match type of Hrun with
  | _ = (_, ?s1) =>
      destruct (apply_run E self s ["ir120"; "ir087"; "ir108"]
                  (length (heap s)) s1 m) as (r & s' & Happ & Hkeep)
  end.
  - rewrite Hcls. reflexivity.
  - attr_tac.
  - unfold filter_mask. rewrite Hcls. exact Hrun.
  - apply lookup_app_new.
  - unfold m. shape_tac.
  - apply inmask_ok_app. done.
  - left. done.
  - exists r, s', m. split; [done|]. split; [|split; [|split; [|split]]].
    + apply Hkeep. apply lookup_app_new.
    + intros l g Hl. apply Hkeep. apply lookup_app_l_Some. done.
    + unfold m. shape_tac.
    + exact Hpix.
    + intros i j b Ha Hb Hc. rewrite (Hpix i j _ _ _ Ha Hb Hc).
      rewrite fsub_nan_l. reflexivity.
Qed.


End ThresholdFilters.

Lemma inmask_ok_plain self h : inmask self = None -> inmask_ok self h.
Proof. intros H li Hli. congruence. Qed.


Lemma ice_cloud_filter_mask_witness :
  exists r s' m,
    apply sample_externals sample_ice sample_ice_state = (Ok (r, 1), s') /\
    heap s' !! 1 = Some m /\
    pix m 0 0 = Some false.
Proof.
  destruct (ice_cloud_filter_mask sample_externals sample_ice sample_ice_state
              [[Fin 10]] [[Fin 0]] [[Fin 280]])
    as (r & s' & m & Happ & Hm & _ & _ & Hpix & _); try reflexivity.
  - intros li [= <-]. exists [[true]]. split; reflexivity.
  - exists r, s', m. split; [exact Happ|]. split; [exact Hm|].
    rewrite (Hpix 0 0 (Fin 10) (Fin 0) (Fin 280)); reflexivity.
Defined.


(** ** The nearest keys of the cirrus lookup table *)











(** X7: an input that is not a finite number (either infinity or
    not-a-number) is at distance infinity or not-a-number from every key,
    and [argmin] returns the first index: both functions return their first
    key, 1.0 and 260, also for plus infinity, and the threshold of such a
    pixel is 0.55. *)
Theorem nearest_key_of_non_finite_input (x : fval) :
  (forall q, x <> Fin q) ->
  find_nearest_lut_sza x = Some 1.0%Q /\
  find_nearest_lut_bt x = Some 260%Z /\
  bt_thres_at x x = Some 0.55%Q.
Proof.
  intros H. destruct x as [q| | |]; [destruct (H q eq_refl)| | |];
    repeat split; reflexivity.
Qed.

Lemma nearest_key_of_non_finite_input_witness :
  find_nearest_lut_sza PInf = Some 1.0%Q /\
  find_nearest_lut_bt PInf = Some 260%Z /\
  bt_thres_at PInf PInf = Some 0.55%Q.
Proof.
  apply (nearest_key_of_non_finite_input PInf). intros q. discriminate.
Defined.

(** X8: every threshold taken from the lookup table lies between 0.55 and
    13.39, whatever the secant and the brightness temperature. *)
Theorem cirrus_threshold_bounds (x a : fval) (t : Q) :
  bt_thres_at x a = Some t -> (0.55 <= t)%Q /\ (t <= 13.39)%Q.
Proof.
  intros H.
  destruct (find_nearest_lut_sza_total x) as (ks & Hks & Hins).
  destruct (find_nearest_lut_bt_total a) as (kb & Hkb & Hinb).
  unfold bt_thres_at in H. rewrite Hks, Hkb in H. simpl in H.
  clear Hks Hkb. unfold sza_opt, bt_opt in *. simpl in Hins, Hinb.
  repeat (destruct Hins as [<-|Hins]; [|]); try done;
    repeat (destruct Hinb as [<-|Hinb]; [|]); try done;
    vm_compute in H; injection H as <-; split; unfold Qle; simpl; lia.
Qed.

Lemma cirrus_threshold_bounds_witness :
  (0.55 <= 13.39)%Q /\ (13.39 <= 13.39)%Q.
Proof.
  apply (cirrus_threshold_bounds (Fin 5) (Fin 400) 13.39). reflexivity.
Defined.



(** ** The local minima of the histogram and the failures of the cloud
    filter *)

Lemma nonzero_spec (l : list bool) (k : nat) :
  k ∈ nonzero l <-> l !! k = Some true.
Proof.
  unfold nonzero. rewrite list_elem_of_omap. split.
  - intros ([i b] & Hin & Hf). apply list_elem_of_lookup in Hin as (j & Hj).
    apply lookup_zip_with_Some in Hj as (i' & b' & [= <- <-] & Hs & Hl).
    apply lookup_seq in Hs as (-> & _). simpl in *.
    destruct b; [|done]. injection Hf as <-. done.
  - intros H. exists (k, true). split; [|done].
    apply list_elem_of_lookup. exists k.
    apply lookup_zip_with_Some. exists k, true. split; [done|]. split; [|done].
    apply lookup_seq. split; [done|]. eapply lookup_lt_Some; eauto.
Qed.

Lemma lookup_diff (l : list Z) (k : nat) :
  diff l !! k = (b ← l !! S k; a ← l !! k; Some (b - a)%Z).
Proof. unfold diff. rewrite lookup_zip_with, lookup_tail. done. Qed.

(** [localmin] holds exactly the interior indices at which the sign of the
    slope of the counts increases *)
Lemma localmin_spec (counts : list Z) (i : nat) :
  In i (localmin counts) <->
  exists k a b c,
    i = S k /\ counts !! k = Some a /\ counts !! S k = Some b /\
    counts !! S (S k) = Some c /\ (Z.sgn (b - a) < Z.sgn (c - b))%Z.
Proof.
  unfold localmin. rewrite in_map_iff. split.
  - intros (k & <- & Hk). apply list_elem_of_In, nonzero_spec in Hk.
    rewrite lookup_map, lookup_diff, !lookup_map, !lookup_diff in Hk.
    destruct (counts !! S (S k)) as [c|] eqn:Hc; [|done].
    destruct (counts !! S k) as [b|] eqn:Hb; [|done].
    destruct (counts !! k) as [a|] eqn:Ha; [|done].
    cbn [fmap option_fmap option_map mbind option_bind] in Hk.
    injection Hk as Hk. apply Z.ltb_lt in Hk.
    exists k, a, b, c. repeat split; try done. lia.
  - intros (k & a & b & c & -> & Ha & Hb & Hc & Hlt).
    exists k. split; [done|]. apply list_elem_of_In, nonzero_spec.
    rewrite lookup_map, lookup_diff, !lookup_map, !lookup_diff.
    rewrite Hc, Hb, Ha.
    cbn [fmap option_fmap option_map mbind option_bind].
    f_equal. apply Z.ltb_lt. lia.
Qed.

(** X10: the local minima taken from the histogram are interior bins at
    which the count does not exceed either neighbour and is below at least
    one of them; every bin strictly below both neighbours is among them;
    and the indices are valid for any array of bin edges at least as long
    as the counts, so that indexing the edges with them does not fail. *)
Theorem localmin_are_interior_dips (counts : list Z) :
  (forall i, In i (localmin counts) ->
     1 <= i /\ S i < length counts /\
     exists a b c,
       counts !! (i - 1) = Some a /\ counts !! i = Some b /\
       counts !! S i = Some c /\
       (b <= a)%Z /\ (b <= c)%Z /\ ((b < a)%Z \/ (b < c)%Z)) /\
  (forall i a b c,
     counts !! i = Some a -> counts !! S i = Some b ->
     counts !! S (S i) = Some c -> (b < a)%Z -> (b < c)%Z ->
     In (S i) (localmin counts)) /\
  (forall edges : list Q,
     length counts <= length edges ->
     is_Some (take_idx edges (localmin counts))).
Proof.
  split; [|split].
  - intros i Hi. apply localmin_spec in Hi
      as (k & a & b & c & -> & Ha & Hb & Hc & Hlt).
    split; [lia|]. split; [apply lookup_lt_Some in Hc; lia|].
    exists a, b, c. simpl. rewrite Nat.sub_0_r.
    repeat split; try done; lia.
  - intros i a b c Ha Hb Hc H1 H2. apply localmin_spec.
    exists i, a, b, c. repeat split; try done. lia.
  - intros edges Hlen. unfold take_idx. apply mapM_is_Some_2.
    apply Forall_forall. intros i Hi.
    apply list_elem_of_In, localmin_spec in Hi
      as (k & a & b & c & -> & _ & _ & Hc & _).
    apply lookup_lt_is_Some_2. apply lookup_lt_Some in Hc. lia.
Qed.

Lemma localmin_are_interior_dips_witness :
  In 1 (localmin [5; 3; 4; 2; 1; 6]%Z) /\
  In 4 (localmin [5; 3; 4; 2; 1; 6]%Z).
Proof.
  split.
  - apply (proj1 (proj2 (localmin_are_interior_dips [5; 3; 4; 2; 1; 6]%Z))
             0 5%Z 3%Z 4%Z); try reflexivity; lia.
  - apply (proj1 (proj2 (localmin_are_interior_dips [5; 3; 4; 2; 1; 6]%Z))
             3 2%Z 1%Z 6%Z); try reflexivity; lia.
Defined.

Lemma bind_raise {A B} (m : M A) (k : A -> M B) (s s' : state) (e : exn) :
  m s = (Raise e, s') -> (m ≫= k) s = (Raise e, s').
Proof. intros H. rewrite bind_unfold, H. done. Qed.

Section CloudFailures.

Context (E : Externals).

(** X11: when no peak of the histogram lies in [-10, 10), or no local
    minimum lies between the peaks and below 0.5, the reduction over an
    empty array raises: [apply()] of the cloud filter raises [ValueError],
    and no mask array has been created. *)
Theorem cloud_filter_without_candidate_raises self s ir108 ir039 hist :
  cls self = CloudFilter ->
  attrs self !! "ir108" = Some (VArray ir108) ->
  attrs self !! "ir039" = Some (VArray ir039) ->
  shape ir039 = shape ir108 ->
  histogram E (concat (grid_zip_with fsub ir108 ir039)) = Some hist ->
  peakrange E (fst hist) (snd hist) = Some [] \/
  candidates E (fst hist) (snd hist) = Some [] ->
  exists s',
    apply E self s = (Raise ValueError, s') /\ heap s' = heap s.
Proof.
  intros Hcls H108 H039 Hs Hhist Hno.
  assert (Happ : forall s1,
    CloudFilter_mask E self s = (Raise ValueError, s1) ->
    apply E self s = (Raise ValueError, s1)).
  { intros s1 H. unfold apply.
    rewrite (bind_ok _ _ _ _ _
               (isapplicable_true self s ["ir108"; "ir039"]
                  ltac:(rewrite Hcls; reflexivity) ltac:(attr_tac))).
    cbv beta iota. apply bind_raise. unfold filter_function.
    apply bind_raise. unfold filter_mask. rewrite Hcls. exact H. }
  destruct Hno as [Hpr|Hc].
  - eexists. split.
    + apply Happ. unfold CloudFilter_mask. do 4 mstep.
      rewrite Hhist. mstep. rewrite Hpr. mstep. reflexivity.
    + reflexivity.
  - destruct (candidates_spec E _ _ _ Hc)
      as (pr & minpeak & maxpeak & ti & Hpr & Hmin & Hmax & Hti & Htk & _).
    eexists. split.
    + apply Happ. unfold CloudFilter_mask. do 4 mstep.
      rewrite Hhist. mstep. rewrite Hpr. mstep. rewrite Hmin. mstep.
      rewrite Hmax. do 2 mstep. rewrite Hti. mstep. rewrite Htk. mstep.
      reflexivity.
    + reflexivity.
Qed.

End CloudFailures.

Lemma cloud_filter_without_candidate_raises_witness :
  exists s',
    apply sample_externals sample_cloud (mkState [] [])
      = (Raise ValueError, s') /\ heap s' = [].
Proof.
  apply (cloud_filter_without_candidate_raises sample_externals sample_cloud
           (mkState [] []) [[Fin 270; Fin 280]] [[Fin 273; Fin 279]] ([], []));
    try reflexivity.
  left. reflexivity.
Defined.

(** ** The cluster means of the low cloud filter *)

Lemma dict_append_keys key v d :
  map fst (dict_append key v d)
  = if bool_decide (key ∈ map fst d) then map fst d else map fst d ++ [key].
Proof.
  induction d as [|[k vs] d IH]; cbn [dict_append map fst].
  - rewrite bool_decide_eq_false_2 by apply not_elem_of_nil. done.
  - destruct (Z.eqb k key) eqn:Hk.
    + apply Z.eqb_eq in Hk. subst k.
      rewrite bool_decide_eq_true_2 by apply list_elem_of_here. done.
    + apply Z.eqb_neq in Hk. cbn [map fst]. rewrite IH.
      destruct (bool_decide (key ∈ map fst d)) eqn:Hin.
      * apply bool_decide_eq_true in Hin.
        rewrite bool_decide_eq_true_2 by (apply list_elem_of_further; done).
        done.
      * apply bool_decide_eq_false in Hin.
        rewrite bool_decide_eq_false_2; [done|].
        intros H. apply elem_of_cons in H as [H|H]; [congruence|done].
Qed.

Lemma cluster_entry_keys exclude noneg acc e :
  map fst (cluster_entry exclude noneg acc e) = add_key (map fst acc) (fst e).
Proof.
  destruct e as [key val]. unfold cluster_entry, add_key. simpl.
  destruct (Z.eqb key 0); [done|]. apply dict_append_keys.
Qed.

Lemma foldl_cluster_entry_keys exclude noneg es acc :
  map fst (foldl (cluster_entry exclude noneg) acc es)
  = foldl add_key (map fst acc) (map fst es).
Proof.
  revert acc. induction es as [|e es IH]; intros acc; simpl; [done|].
  rewrite IH, cluster_entry_keys. done.
Qed.

Lemma foldl_add_key_elem (l acc : list Z) (k : Z) :
  k ∈ foldl add_key acc l <-> k ∈ acc \/ (k <> 0%Z /\ k ∈ l).
Proof.
  revert acc. induction l as [|x l IH]; intros acc; simpl.
  - split; [auto|]. intros [H|[_ H]]; [done|]. by apply not_elem_of_nil in H.
  - rewrite IH. unfold add_key.
    destruct (Z.eqb x 0) eqn:Hx.
    + apply Z.eqb_eq in Hx. subst x. rewrite elem_of_cons.
      split; [tauto|]. intros [H|[H0 [H|H]]]; auto. congruence.
    + apply Z.eqb_neq in Hx.
      destruct (bool_decide (x ∈ acc)) eqn:Hin.
      * apply bool_decide_eq_true in Hin. rewrite elem_of_cons.
        split; [tauto|]. intros [H|[H0 [H|H]]]; auto. subst. auto.
      * rewrite elem_of_app, list_elem_of_singleton, elem_of_cons.
        split; [|tauto]. intros [[H|H]|[H0 H]]; auto. subst. auto.
Qed.


Lemma dict_get_append key v d k :
  dict_get Z.eqb k (dict_append key v d)
  = if Z.eqb key k then Some (default [] (dict_get Z.eqb k d) ++ [v])
    else dict_get Z.eqb k d.
Proof.
  induction d as [|[k0 vs] d IH]; simpl.
  - destruct (Z.eqb key k); done.
  - destruct (Z.eqb k0 key) eqn:Hk.
    + apply Z.eqb_eq in Hk. subst k0. simpl.
      destruct (Z.eqb key k); done.
    + simpl. rewrite IH. apply Z.eqb_neq in Hk.
      destruct (Z.eqb k0 k) eqn:Hk0; [|done].
      apply Z.eqb_eq in Hk0. subst k0.
      rewrite (proj2 (Z.eqb_neq key k)) by congruence. done.
Qed.

Lemma foldl_cluster_entry_values exclude noneg es acc k :
  default [] (dict_get Z.eqb k (foldl (cluster_entry exclude noneg) acc es))
  = default [] (dict_get Z.eqb k acc)
    ++ (if Z.eqb k 0 then []
        else map (cleaned exclude noneg)
               (map snd (filter (fun e : Z * fval => fst e = k) es))).
Proof.
  revert acc. induction es as [|[key val] es IH]; intros acc; simpl.
  - destruct (Z.eqb k 0); rewrite app_nil_r; done.
  - rewrite IH. rewrite filter_cons. simpl.
    destruct (Z.eqb key 0) eqn:Hk0.
    + apply Z.eqb_eq in Hk0. subst key.
      destruct (decide (0%Z = k)) as [<-|Hne]; [done|done].
    + apply Z.eqb_neq in Hk0. rewrite dict_get_append.
      fold (cleaned exclude noneg val).
      destruct (decide (key = k)) as [->|Hne].
      * rewrite Z.eqb_refl. rewrite (proj2 (Z.eqb_neq k 0)) by done.
        simpl. rewrite <- app_assoc. done.
      * rewrite (proj2 (Z.eqb_neq key k)) by done. done.
Qed.

Lemma dict_get_is_Some {V} (k : Z) (d : list (Z * V)) :
  is_Some (dict_get Z.eqb k d) <-> k ∈ map fst d.
Proof.
  induction d as [|[k0 v] d IH]; simpl.
  - split; [intros [? ?]; done|]. intros H. by apply not_elem_of_nil in H.
  - rewrite elem_of_cons. destruct (Z.eqb k0 k) eqn:Hk.
    + apply Z.eqb_eq in Hk. split; eauto.
    + apply Z.eqb_neq in Hk. rewrite IH. split; [auto|].
      intros [H|H]; [congruence|done].
Qed.

Lemma dict_get_map_snd {V W} (f : V -> W) (k : Z) (d : list (Z * V)) :
  dict_get Z.eqb k (map (fun kv => (fst kv, f (snd kv))) d)
  = f <$> dict_get Z.eqb k d.
Proof.
  induction d as [|[k0 v] d IH]; simpl; [done|].
  destruct (Z.eqb k0 k); done.
Qed.

Lemma map_fst_concat_zip {A B} (a : grid A) (b : grid B) :
  shape a = shape b ->
  map fst (concat (grid_zip_with pair a b)) = concat a.
Proof.
  unfold shape, grid_zip_with. revert b.
  induction a as [|r a IH]; intros [|r' b] H; simpl in *; try done.
  injection H as Hr H. rewrite map_app, (IH b H). f_equal.
  clear -Hr. revert r' Hr.
  induction r as [|x r IHr]; intros [|y r'] Hr; simpl in *; try done.
  injection Hr as Hr. rewrite (IHr r' Hr). done.
Qed.

(** the dict returned by [get_cluster_mean] *)
Lemma get_cluster_mean_run clusters values exclude noneg s :
  shape clusters = shape values ->
  exists d,
    get_cluster_mean clusters values exclude noneg s = (Ok d, s) /\
    map fst d = first_labels (concat clusters) /\
    forall k vs,
      dict_get Z.eqb k d = Some vs <->
      k ∈ first_labels (concat clusters) /\
      vs = nanmean (map (cleaned exclude noneg)
                      (cluster_values clusters values k)).
Proof.
  intros Hs. unfold get_cluster_mean.
  set (es := concat (grid_zip_with pair clusters values)).
  set (result := foldl (cluster_entry exclude noneg) [] es).
  assert (Hkeys : map fst result = first_labels (concat clusters)).
  { unfold result. rewrite foldl_cluster_entry_keys. unfold es.
    rewrite map_fst_concat_zip by done. done. }
  exists (map (fun kv => (fst kv, nanmean (snd kv))) result).
  split; [|split].
  - mstep. reflexivity.
  - rewrite map_map. simpl. exact Hkeys.
  - intros k vs. rewrite dict_get_map_snd.
    pose proof (foldl_cluster_entry_values exclude noneg es [] k) as Hv.
    fold result in Hv. simpl in Hv.
    pose proof (dict_get_is_Some k result) as Hsome. rewrite Hkeys in Hsome.
    destruct (dict_get Z.eqb k result) as [l|] eqn:Hl; simpl in *.
    + assert (Hin : k ∈ first_labels (concat clusters))
        by (apply Hsome; eauto).
      assert (Hk0 : k <> 0%Z).
      { unfold first_labels in Hin. apply foldl_add_key_elem in Hin
          as [Hin|[Hk0 _]]; [by apply not_elem_of_nil in Hin|done]. }
      rewrite (proj2 (Z.eqb_neq k 0)) in Hv by done. subst l.
      unfold cluster_values. fold es.
      split; [intros [= <-]; done|]. intros [_ ->]. done.
    + split; [done|]. intros [Hin _]. apply Hsome in Hin as [? ?]. done.
Qed.




(** X13: the four dicts of cluster means of the low cloud filter are
    computed over one label array and have the same keys, so that the
    lookups of [lwp_cluster]'s keys in the other three never raise
    [KeyError]: there is one unit of work for every key, in the order of
    the keys, made of the four means of that cluster. *)
Theorem low_cloud_workinputs_total clusters lwp cth ctt reff s :
  shape clusters = shape lwp ->
  shape clusters = shape cth ->
  shape clusters = shape ctt ->
  shape clusters = shape reff ->
  exists d1 d2 d3 d4 tasks,
    get_cluster_mean clusters lwp [of_Z 0] true s = (Ok d1, s) /\
    get_cluster_mean clusters cth [of_Z 0] true s = (Ok d2, s) /\
    get_cluster_mean clusters ctt [of_Z 0] true s = (Ok d3, s) /\
    get_cluster_mean clusters reff [] false s = (Ok d4, s) /\
    workinputs d1 d2 d3 d4 s = (Ok tasks, s) /\
    length tasks = length d1 /\
    forall i k, map fst d1 !! i = Some k ->
      exists a b c d,
        dict_get Z.eqb k d1 = Some a /\ dict_get Z.eqb k d2 = Some b /\
        dict_get Z.eqb k d3 = Some c /\ dict_get Z.eqb k d4 = Some d /\
        tasks !! i = Some (a, b, c, d).
Proof.
  intros S1 S2 S3 S4.
  destruct (get_cluster_mean_run clusters lwp [of_Z 0] true s S1)
    as (d1 & R1 & K1 & G1).
  destruct (get_cluster_mean_run clusters cth [of_Z 0] true s S2)
    as (d2 & R2 & K2 & G2).
  destruct (get_cluster_mean_run clusters ctt [of_Z 0] true s S3)
    as (d3 & R3 & K3 & G3).
  destruct (get_cluster_mean_run clusters reff [] false s S4)
    as (d4 & R4 & K4 & G4).
  set (m := fun (values : grid fval) exclude noneg (k : Z) =>
    nanmean (map (cleaned exclude noneg) (cluster_values clusters values k))).
  set (task := fun k : Z =>
    (m lwp [of_Z 0] true k, m cth [of_Z 0] true k, m ctt [of_Z 0] true k,
     m reff [] false k)).
  assert (Hk : forall k, In k (map fst d1) ->
    dict_get Z.eqb k d1 = Some (m lwp [of_Z 0] true k) /\
    dict_get Z.eqb k d2 = Some (m cth [of_Z 0] true k) /\
    dict_get Z.eqb k d3 = Some (m ctt [of_Z 0] true k) /\
    dict_get Z.eqb k d4 = Some (m reff [] false k)).
  { intros k Hin. rewrite K1 in Hin. apply list_elem_of_In in Hin.
    repeat split; [apply G1|apply G2|apply G3|apply G4]; done. }
  exists d1, d2, d3, d4, (map task (map fst d1)).
  do 4 (split; [done|]). split; [|split].
  - unfold workinputs. rewrite (mapM_map _ task); [done|].
    intros k Hin. destruct (Hk k Hin) as (-> & -> & -> & ->). done.
  - rewrite !length_map. done.
  - intros i k Hi.
    assert (Hin : In k (map fst d1))
      by (apply list_elem_of_In; eapply list_elem_of_lookup_2; eauto).
    destruct (Hk k Hin) as (H1 & H2 & H3 & H4).
    eexists _, _, _, _. do 4 (split; [eassumption|]).
    rewrite lookup_map, Hi. done.
Qed.

Lemma low_cloud_workinputs_total_witness :
  exists d1 d2 d3 d4 tasks,
    get_cluster_mean [[1; 2]]%Z [[Fin 100; Fin 200]] [of_Z 0] true
      (mkState [] []) = (Ok d1, mkState [] []) /\
    workinputs d1 d2 d3 d4 (mkState [] []) = (Ok tasks, mkState [] []) /\
    length tasks = length d1.
Proof.
  destruct (low_cloud_workinputs_total [[1; 2]]%Z [[Fin 100; Fin 200]]
              [[of_Z 300; of_Z 400]] [[Fin 280; Fin 281]]
              [[Fin 1e-5; Fin 1e-5]] (mkState [] [])
              eq_refl eq_refl eq_refl eq_refl)
    as (d1 & d2 & d3 & d4 & tasks & H1 & _ & _ & _ & Hw & Hlen & _).
  exists d1, d2, d3, d4, tasks. split; [exact H1|]. split; [exact Hw|exact Hlen].
Defined.

(** ** The worker pool of the low cloud filter *)

Section PoolResults.

Context (E : Externals).

(** X14: when building the cloud model never raises and every submitted
    task completes, the pool delivers as many results as there are tasks;
    the result at position [i] of [result_list] is the one computed from
    the task that completed as number [i], and it is the pair of
    not-a-numbers when a call of that task's model raises.  When the tasks
    complete in the order of submission, result [i] belongs to task [i]. *)
Theorem pool_results_by_completion tasks :
  (forall cth ctt cwp reff, lwc_new E cth ctt cwp reff = true) ->
  Permutation (completion_order E (length tasks)) (seq 0 (length tasks)) ->
  length (result_list E tasks) = length tasks /\
  (forall i j lwp cth ctt reff,
     completion_order E (length tasks) !! i = Some j ->
     tasks !! j = Some (lwp, cth, ctt, reff) ->
     result_list E tasks !! i = get_fog_base_height E lwp cth ctt reff /\
     (lwc_cloud_base_height E cth ctt (fmul lwp lwp_corr) reff = None \/
      lwc_fog_base_height E cth ctt (fmul lwp lwp_corr) reff = None ->
      result_list E tasks !! i = Some (NaN, NaN))) /\
  (completion_order E (length tasks) = seq 0 (length tasks) ->
   forall i lwp cth ctt reff,
     tasks !! i = Some (lwp, cth, ctt, reff) ->
     result_list E tasks !! i = get_fog_base_height E lwp cth ctt reff).
Proof.
  intros Hnew Hperm.
  destruct (result_list_in_completion_order E tasks Hnew Hperm)
    as (Hlen & Hres).
  split; [done|]. split.
  - intros i j lwp cth ctt reff Hij Hj.
    destruct (Hres i j Hij) as (lwp' & cth' & ctt' & reff' & Hj' & Hr).
    assert (Heq : (lwp', cth', ctt', reff') = (lwp, cth, ctt, reff))
      by congruence.
    injection Heq as -> -> -> ->. split; [done|].
    intros Hfail. rewrite Hr.
    apply get_fog_base_height_raises; [apply Hnew|done].
  - intros Hord i lwp cth ctt reff Hi.
    assert (Hii : completion_order E (length tasks) !! i = Some i).
    { rewrite Hord. apply lookup_seq. split; [done|].
      eapply lookup_lt_Some; eauto. }
    destruct (Hres i i Hii) as (lwp' & cth' & ctt' & reff' & Hj' & Hr).
    assert (Heq : (lwp', cth', ctt', reff') = (lwp, cth, ctt, reff))
      by congruence.
    injection Heq as -> -> -> ->. done.
Qed.

End PoolResults.

Lemma pool_results_by_completion_witness :
  length (result_list reversed_externals
            [(of_Z 100, of_Z 300, Fin 280, Fin 1e-5);
             (of_Z 200, of_Z 400, Fin 281, Fin 1e-5)]) = 2.
Proof.
  apply (pool_results_by_completion reversed_externals
           [(of_Z 100, of_Z 300, Fin 280, Fin 1e-5);
            (of_Z 200, of_Z 400, Fin 281, Fin 1e-5)]).
  - reflexivity.
  - simpl. apply perm_swap.
Defined.

(** ** The loop over the results of the low cloud filter *)













(** ** The low cloud filter as a whole *)




Section LowCloudWhole.

Context (E : Externals).




End LowCloudWhole.


(** ** Not-a-number pixels in the cirrus filter *)

Section CirrusNan.

Context (E : Externals).

(** X17: [apply()] of the cirrus filter returns a new mask array in which
    a pixel whose 10.8 um brightness temperature is not-a-number is not
    masked, whatever its other channels: both differences are
    not-a-number and both comparisons false.  The same holds for a pixel
    whose 12.0 um and 8.7 um values are both not-a-number. *)
Theorem cirrus_filter_leaves_nan_pixels self s ir108 ir120 ir087 lon lat t
    sza :
  cls self = CirrusCloudFilter ->
  attrs self !! "ir108" = Some (VArray ir108) ->
  attrs self !! "ir120" = Some (VArray ir120) ->
  attrs self !! "ir087" = Some (VArray ir087) ->
  attrs self !! "lon" = Some (VArray lon) ->
  attrs self !! "lat" = Some (VArray lat) ->
  (attrs self !! "time" = Some (VTime t) \/
   (attrs self !! "time" = None /\ t = now E)) ->
  shape ir120 = shape ir108 ->
  shape ir087 = shape ir108 ->
  sun_zenith_angle E t lon lat = Some sza ->
  shape sza = shape ir108 ->
  shape (arr self) = shape ir108 ->
  concat ir108 <> [] ->
  inmask_ok self (heap s) ->
  plot self = false ->
  exists r s' m,
    apply E self s = (Ok (r, length (heap s)), s') /\
    heap s' !! length (heap s) = Some m /\
    (forall i j, pix ir108 i j = Some NaN -> pix m i j = Some false) /\
    (forall i j, pix ir120 i j = Some NaN -> pix ir087 i j = Some NaN ->
       pix m i j = Some false).
Proof.
  intros Hcls H108 H120 H087 Hlon Hlat Htime S120 S087 Hsza Ssza Sarr Hne
    Hin Hplot.
  destruct (CirrusCloudFilter_mask_run E self s _ _ _ _ _ _ _
              H108 H120 H087 Hlon Hlat Htime S120 S087 Hsza Ssza Hne)
    as (m & s1 & Hrun & Hheap & Sm & Hpix).
  destruct (apply_run E self s
              ["ir120"; "ir087"; "ir108"; "lat"; "lon"; "time"]
              (length (heap s)) s1 m) as (r & s' & Happ & Hkeep).
  - rewrite Hcls. reflexivity.
  - simpl. intros attr Hattr.
    repeat (destruct Hattr as [<- | Hattr];
            [solve [eapply hasattr_Some; eassumption]|]).
    destruct Hattr as [<- | []].
    unfold hasattr. rewrite orb_true_iff. right.
    apply bool_decide_eq_true. unfold init_attrs.
    repeat first [apply list_elem_of_here | apply list_elem_of_further].
  - unfold filter_mask. rewrite Hcls. exact Hrun.
  - rewrite Hheap. apply lookup_app_new.
  - congruence.
  - rewrite Hheap. apply inmask_ok_app. done.
  - left. done.
  - assert (Hall : forall i j a, pix ir108 i j = Some a ->
      exists b c (thr : Q),
        pix ir120 i j = Some b /\ pix ir087 i j = Some c /\
        pix m i j = Some (fgtb (fsub a b) (Fin thr) || fgtb (fsub c a) (Fin 0))).
    { intros i j a Ha.
      assert (is_Some (pix ir120 i j)) as [b Hb]
        by (apply (pix_same_shape ir108); eauto).
      assert (is_Some (pix ir087 i j)) as [c Hc]
        by (apply (pix_same_shape ir108); eauto).
      assert (is_Some (pix sza i j)) as [z Hz]
        by (apply (pix_same_shape ir108); eauto).
      destruct (Hpix i j a b c z Ha Hb Hc Hz) as (thr & _ & Hm).
      exists b, c, thr. done. }
    exists r, s', m. split; [done|]. split; [|split].
    + apply Hkeep. rewrite Hheap. apply lookup_app_new.
    + intros i j Ha.
      destruct (Hall i j NaN Ha) as (b & c & thr & _ & _ & ->).
      rewrite fsub_nan_l. destruct c; reflexivity.
    + intros i j Hb Hc.
      assert (is_Some (pix ir108 i j)) as [a Ha]
        by (apply (pix_same_shape ir120); eauto).
      destruct (Hall i j a Ha) as (b & c & thr & Hb' & Hc' & ->).
      assert (b = NaN) by congruence. assert (c = NaN) by congruence.
      subst b c. rewrite fsub_nan_l. destruct a; reflexivity.
Qed.

End CirrusNan.

(** one pixel whose 10.8 um temperature is not-a-number *)
Lemma cirrus_filter_leaves_nan_pixels_witness :
  exists r s' m,
    apply sample_externals
      (new_filter CirrusCloudFilter [[NaN]] None
         [("ir108", VArray [[NaN]]); ("ir120", VArray [[Fin 259]]);
          ("ir087", VArray [[Fin 255]]); ("lon", VArray [[Fin 10]]);
          ("lat", VArray [[Fin 1.0]]); ("time", VTime 0)])
      (mkState [] []) = (Ok (r, 0), s') /\
    heap s' !! 0 = Some m /\ pix m 0 0 = Some false.
Proof.
  destruct (cirrus_filter_leaves_nan_pixels sample_externals
              (new_filter CirrusCloudFilter [[NaN]] None
                 [("ir108", VArray [[NaN]]); ("ir120", VArray [[Fin 259]]);
                  ("ir087", VArray [[Fin 255]]); ("lon", VArray [[Fin 10]]);
                  ("lat", VArray [[Fin 1.0]]); ("time", VTime 0)])
              (mkState [] []) [[NaN]] [[Fin 259]] [[Fin 255]] [[Fin 10]]
              [[Fin 1.0]] 0%Z [[Fin 1.0]])
    as (r & s' & m & Happ & Hm & Hnan & _); try reflexivity.
  - left. reflexivity.
  - discriminate.
  - apply inmask_ok_plain. reflexivity.
  - exists r, s', m. split; [exact Happ|]. split; [exact Hm|].
    apply Hnan. reflexivity.
Defined.

(** ** The homogeneity filter and the base class at the edges *)


Section EdgeCases.

Context (E : Externals).




(** X20: the base class declares no list of required inputs, so [apply()]
    called on a [BaseArrayFilter] itself raises [AttributeError] for
    [attrlist] before anything is computed or logged; its filter function,
    called on its own, masks every pixel of [arr]. *)
Theorem base_filter_apply_raises self s :
  cls self = BaseArrayFilter ->
  apply E self s = (Raise (AttributeError "attrlist"), s) /\
  (inmask self = None ->
   exists r,
     filter_function E self s
     = (Ok (r, length (heap s)),
        mkState (heap s ++ [grid_map (fun _ => true) (arr self)]) (log s)) /\
     ma_data r = arr self /\ ma_mask r = length (heap s)).
Proof.
  intros Hcls. split.
  - unfold apply. apply bind_raise. apply isapplicable_BaseArrayFilter. done.
  - intros Hin. eexists. split; [|split].
    + unfold filter_function, filter_mask. rewrite Hcls.
      unfold BaseArrayFilter_mask, set_result, ma_array.
      erewrite bind_ok by reflexivity. cbv beta.
      erewrite bind_ok.
      2:{ erewrite bind_ok by (apply read_ok; simpl; apply lookup_app_new).
          cbv beta. rewrite decide_True by (rewrite shape_grid_map; done).
          rewrite Hin. reflexivity. }
      reflexivity.
    + reflexivity.
    + reflexivity.
Qed.

End EdgeCases.



Lemma base_filter_apply_raises_witness :
  apply sample_externals (new_filter BaseArrayFilter [[Fin 1; Fin 2]] None [])
    (mkState [] [])
  = (Raise (AttributeError "attrlist"), mkState [] []).
Proof.
  apply (base_filter_apply_raises sample_externals
           (new_filter BaseArrayFilter [[Fin 1; Fin 2]] None [])
           (mkState [] [])). reflexivity.
Defined.

(** * The satellite algorithms *)

Section AlgorithmMonad.

Import Algorithms.

Lemma abind_unfold {A B} (m : MA A) (k : A -> MA B) (s : state) :
  (m ≫= k) s =
  match m s with
  | (AOk a, s') => k a s'
  | (ARaise e, s') => (ARaise e, s')
  end.
Proof. reflexivity. Qed.

Lemma abind_ok {A B} (m : MA A) (k : A -> MA B) (s s' : state) (a : A) :
  m s = (AOk a, s') -> (m ≫= k) s = k a s'.
Proof. intros H. rewrite abind_unfold, H. done. Qed.

Lemma abind_raise {A B} (m : MA A) (k : A -> MA B) (s s' : state) e :
  m s = (ARaise e, s') -> (m ≫= k) s = (ARaise e, s').
Proof. intros H. rewrite abind_unfold, H. done. Qed.

Lemma abind_AOk_inv {A B} (m : MA A) (k : A -> MA B) (s s' : state) (b : B) :
  (m ≫= k) s = (AOk b, s') ->
  exists a s1, m s = (AOk a, s1) /\ k a s1 = (AOk b, s').
Proof.
  rewrite abind_unfold. destruct (m s) as [[a|e] s1]; [eauto|done].
Qed.

Lemma lift_ok {A} (m : M A) (s s' : state) (a : A) :
  m s = (Ok a, s') -> lift m s = (AOk a, s').
Proof. intros H. unfold lift. rewrite H. done. Qed.

Lemma lift_raise {A} (m : M A) (s s' : state) e :
  m s = (Raise e, s') -> lift m s = (ARaise (Exn e), s').
Proof. intros H. unfold lift. rewrite H. done. Qed.

Lemma lift_AOk_inv {A} (m : M A) (s s' : state) (a : A) :
  lift m s = (AOk a, s') -> m s = (Ok a, s').
Proof.
  unfold lift. destruct (m s) as [[a'|e] s1]; [|done].
  intros [= -> ->]. done.
Qed.

Lemma of_opt_AOk_inv {A} e (o : option A) (a : A) (s s' : state) :
  of_opt e o s = (AOk a, s') -> o = Some a /\ s' = s.
Proof. destruct o; simpl; [intros [= -> ->]; done|done]. Qed.

End AlgorithmMonad.

(** ** [isprocessible] and [run] *)

Section Processible.

Import Algorithms.

Context (E : Externals).

Lemma isprocessible_loop_run self al s :
  foldr (fun attr rest =>
           if hasattr self attr then rest
           else
             logger LWarning (MsgText ("Missing input attribute: " ++ attr));;
             r ← rest; mret false)
        (mret true) al s
  = (Ok (forallb (hasattr self) al),
     mkState (heap s)
       (log s ++ map (fun attr =>
                        (LWarning, MsgText ("Missing input attribute: " ++ attr)))
                     (missing_inputs self al))).
Proof.
  revert s. induction al as [|attr al IH]; intros s.
  - destruct s. simpl. rewrite app_nil_r. done.
  - cbn [foldr forallb]. unfold missing_inputs. rewrite filter_cons.
    destruct (hasattr self attr) eqn:Hattr.
    + rewrite decide_False by done. simpl. apply IH.
    + rewrite decide_True by done. mstep.
      rewrite (bind_ok _ _ _ _ _ (IH _)). simpl.
      unfold missing_inputs. rewrite <- app_assoc. done.
Qed.

(** X21: [isprocessible()] of the fog and low stratus algorithm returns
    true exactly when each of its ten inputs is an attribute of the
    object, logs one warning for every missing input and does not raise;
    [run()] on an object that lacks an input raises [NotProcessibleError]
    with a message that names the class, and no filter has been run: the
    store is untouched and the log holds the warnings only.  The base
    class is always processible. *)
Theorem fls_run_requires_inputs self s :
  let warnings :=
    map (fun attr => (LWarning, MsgText ("Missing input attribute: " ++ attr)))
        (missing_inputs self fls_attrlist) in
  let s0 := mkState (heap s) (log s ++ warnings) in
  (acls self = FogLowStratusAlgorithm ->
   exists b,
     isprocessible self s = (Ok b, s0) /\
     (b = true <->
      forall attr, In attr fls_attrlist -> hasattr self attr = true) /\
     (b = false ->
      run E self s
      = (ARaise (NotProcessibleError
                   "Satellite algorithm <FogLowStratusAlgorithm> is not processible"),
         s0))) /\
  (acls self = BaseSatelliteAlgorithm ->
   isprocessible self s = (Ok true, s)).
Proof.
  intros warnings s0. split.
  - intros Hcls. exists (forallb (hasattr self) fls_attrlist).
    assert (Hrun : isprocessible self s
                   = (Ok (forallb (hasattr self) fls_attrlist), s0)).
    { unfold isprocessible. rewrite Hcls. apply isprocessible_loop_run. }
    split; [done|]. split.
    + rewrite forallb_forall. done.
    + intros Hb. unfold run.
      rewrite (abind_ok _ _ _ _ _ (lift_ok _ _ _ _ Hrun)), Hb, Hcls. done.
  - intros Hcls. unfold isprocessible. rewrite Hcls. done.
Qed.

End Processible.

Lemma fls_run_requires_inputs_witness :
  exists obj,
    Algorithms.init Algorithms.FogLowStratusAlgorithm
      [("ir108", VArray [[Fin 270]]); ("time", VTime 0)] (mkState [] [])
    = (Ok obj, mkState [] []) /\
    Algorithms.run sample_externals obj (mkState [] [])
    = (Algorithms.ARaise
         (Algorithms.NotProcessibleError
            "Satellite algorithm <FogLowStratusAlgorithm> is not processible"),
       mkState []
         (map (fun attr =>
                 (LWarning, MsgText ("Missing input attribute: " ++ attr)))
              ["ir039"; "vis008"; "nir016"; "vis006"; "ir087"; "ir120";
               "lat"; "lon"])).
Proof.
  eexists. split; [reflexivity|].
  match goal with
  | |- Algorithms.run _ ?obj _ = _ =>
      destruct (proj1 (fls_run_requires_inputs sample_externals obj
                         (mkState [] [])) eq_refl) as (b & Hrun & _ & Hraise)
  end.
  vm_compute in Hrun. injection Hrun as <-.
  rewrite (Hraise eq_refl). vm_compute. reflexivity.
Defined.

(** ** Building an algorithm object *)

Lemma pix_zip_orb_true (a b : grid bool) i j :
  shape a = shape b ->
  (pix (grid_zip_with orb a b) i j = Some true <->
   pix a i j = Some true \/ pix b i j = Some true).
Proof.
  intros Hs. split.
  - intros H. apply pix_grid_zip_with_inv in H as (x & y & Hx & Hy & Hxy).
    symmetry in Hxy. apply orb_true_iff in Hxy as [-> | ->]; auto.
  - intros [H|H].
    + assert (is_Some (pix b i j)) as [y Hy]
        by (apply (pix_same_shape a); eauto).
      rewrite (pix_grid_zip_with orb a b i j true y H Hy). done.
    + assert (is_Some (pix a i j)) as [x Hx]
        by (apply (pix_same_shape b); eauto).
      rewrite (pix_grid_zip_with orb a b i j x true Hx H).
      rewrite orb_true_r. done.
Qed.

Lemma mask_union_spec (gs : list (grid bool)) (g0 : grid bool) :
  Forall (fun g => shape g = shape g0) gs ->
  shape (mask_union g0 gs) = shape g0 /\
  forall i j,
    pix (mask_union g0 gs) i j = Some true <->
    exists g, In g (g0 :: gs) /\ pix g i j = Some true.
Proof.
  revert g0. induction gs as [|g gs IH]; intros g0 Hall.
  - split; [done|]. intros i j. simpl. split; [eauto|].
    intros (g & [<-|[]] & H). done.
  - apply Forall_cons in Hall as (Hg & Hall).
    unfold mask_union. cbn [foldl]. fold (mask_union (grid_zip_with orb g0 g) gs).
    assert (Hs : shape (grid_zip_with orb g0 g) = shape g0)
      by (apply shape_grid_zip_with; done).
    destruct (IH (grid_zip_with orb g0 g)) as (Hshape & Hpix).
    { eapply Forall_impl; [exact Hall|]. intros x Hx. simpl in Hx. congruence. }
    split; [congruence|]. intros i j. rewrite Hpix. split.
    + intros (x & [<-|Hin] & Hx).
      * apply (pix_zip_orb_true g0 g i j (eq_sym Hg)) in Hx.
        destruct Hx as [Hx|Hx]; eexists; (split; [|exact Hx]); simpl; auto.
      * exists x. split; [simpl; auto|done].
    + intros (x & [<-|[<-|Hin]] & Hx).
      * eexists. split; [left; reflexivity|].
        apply (pix_zip_orb_true g0 g i j (eq_sym Hg)). auto.
      * eexists. split; [left; reflexivity|].
        apply (pix_zip_orb_true g0 g i j (eq_sym Hg)). auto.
      * exists x. split; [right; done|done].
Qed.

Section Init.

Import Algorithms.

Lemma set_mask_Some_inv self (mask lc : loc) s obj s' :
  ainmask self = Some lc ->
  set_mask self mask s = (Ok obj, s') ->
  exists gc gm,
    heap s !! lc = Some gc /\ heap s !! mask = Some gm /\
    shape gc = shape gm /\
    obj = mkAlgorithm (acls self) (Some (length (heap s))) (ashape self)
            (attributes self) (aattrs self) /\
    s' = mkState (heap s ++ [grid_zip_with orb gc gm]) (log s).
Proof.
  intros Hin. unfold set_mask. rewrite Hin. intros H.
  apply bind_Ok_inv in H as (gc & s1 & Hr & H).
  apply read_Ok_inv in Hr as (Hgc & ->).
  apply bind_Ok_inv in H as (gm & s1 & Hr & H).
  apply read_Ok_inv in Hr as (Hgm & ->).
  apply bind_Ok_inv in H as (c & s1 & Hz & H).
  apply zip_grids_Ok_inv in Hz as (Hs & -> & ->).
  apply bind_Ok_inv in H as (l & s1 & Ha & H).
  injection Ha as <- <-. injection H as <- <-.
  exists gc, gm. done.
Qed.

(** what one keyword argument does to the object and to the store *)
Lemma init_step_inv self kv s obj s' :
  init_step self kv s = (Ok obj, s') ->
  acls obj = acls self /\
  attributes obj = attributes self ++ [fst kv] /\
  aattrs obj = <[fst kv := snd kv]> (aattrs self) /\
  ashape obj = match value_shape (snd kv) with
               | Some sh => Some sh
               | None => ashape self
               end /\
  log s' = log s /\
  match value_mask (snd kv), ainmask self with
  | None, _ => ainmask obj = ainmask self /\ heap s' = heap s
  | Some m, None => ainmask obj = Some m /\ heap s' = heap s
  | Some m, Some lc =>
      exists gc gm,
        heap s !! lc = Some gc /\ heap s !! m = Some gm /\
        shape gc = shape gm /\
        ainmask obj = Some (length (heap s)) /\
        heap s' = heap s ++ [grid_zip_with orb gc gm]
  end.
Proof.
  unfold init_step. intros H.
  apply bind_Ok_inv in H as (self2 & s1 & H2 & H).
  injection H as <- <-.
  destruct kv as [key v]. cbn [fst snd] in *.
  destruct v as [g|g|g m|d|t|]; cbn [value_shape value_mask];
    try (injection H2 as <- <-; simpl; done).
  destruct (ainmask self) as [lc|] eqn:Hin.
  - apply (set_mask_Some_inv _ m lc) in H2
      as (gc & gm & Hgc & Hgm & Hs & -> & ->); [|done].
    simpl. repeat split; try done. exists gc, gm. done.
  - unfold set_mask, with_shape in H2. cbn [ainmask] in H2.
    injection H2 as <- <-. simpl. done.
Qed.

Lemma init_loop_inv kwargs self s obj s' :
  init_loop self kwargs s = (Ok obj, s') ->
  acls obj = acls self /\
  attributes obj = attributes self ++ map fst kwargs /\
  aattrs obj = foldl (fun m kv => <[fst kv := snd kv]> m) (aattrs self) kwargs /\
  ashape obj = foldl final_shape (ashape self) kwargs /\
  log s' = log s /\
  exists new, heap s' = heap s ++ new.
Proof.
  revert self s. induction kwargs as [|kv kwargs IH]; intros self s H.
  - injection H as <- <-. simpl. rewrite app_nil_r.
    repeat split; try done. exists []. rewrite app_nil_r. done.
  - cbn [init_loop] in H.
    apply bind_Ok_inv in H as (self1 & s1 & Hstep & H).
    apply init_step_inv in Hstep as (Hc & Ha & Hat & Hsh & Hlog & Hm).
    apply IH in H as (Hc' & Ha' & Hat' & Hsh' & Hlog' & new & Hnew).
    cbn [map foldl]. rewrite Hc', Hc, Ha', Ha, Hat', Hat, Hsh', Hsh, Hlog', Hlog.
    rewrite <- app_assoc. repeat split; try done.
    destruct (value_mask (snd kv)) as [m|]; [destruct (ainmask self)|].
    + destruct Hm as (gc & gm & _ & _ & _ & _ & Hh). rewrite Hnew, Hh.
      rewrite <- app_assoc. eauto.
    + destruct Hm as (_ & Hh). rewrite Hnew, Hh. eauto.
    + destruct Hm as (_ & Hh). rewrite Hnew, Hh. eauto.
Qed.

End Init.

(** ** The keyword arguments kept by the object *)

Lemma foldl_insert_notin (kwargs : list (string * value))
    (m : gmap string value) (k : string) :
  ~ In k (map fst kwargs) ->
  foldl (fun m kv => <[fst kv := snd kv]> m) m kwargs !! k = m !! k.
Proof.
  revert m. induction kwargs as [|kv kwargs IH]; intros m Hk; [done|].
  cbn [foldl]. rewrite IH by (intros H; apply Hk; simpl; auto).
  apply lookup_insert_ne. intros Heq. apply Hk. simpl. auto.
Qed.

Lemma foldl_insert_lookup (kwargs : list (string * value))
    (m : gmap string value) (k : string) (v : value) :
  NoDup (map fst kwargs) -> In (k, v) kwargs ->
  foldl (fun m kv => <[fst kv := snd kv]> m) m kwargs !! k = Some v.
Proof.
  revert m. induction kwargs as [|kv kwargs IH]; intros m Hnd Hin; [done|].
  cbn [map] in Hnd. apply NoDup_cons in Hnd as (Hk & Hnd).
  cbn [foldl]. destruct Hin as [->|Hin].
  - rewrite foldl_insert_notin by (rewrite <- list_elem_of_In; done).
    apply lookup_insert_eq.
  - apply IH; done.
Qed.

Lemma map_filter_keys (keys : list string) (g : string -> string * value)
    (l : list (string * value)) :
  (forall kv, In kv l -> g (fst kv) = kv) ->
  map g (filter (fun k => k ∈ keys) (map fst l))
  = filter (fun kv => fst kv ∈ keys) l.
Proof.
  induction l as [|kv l IH]; intros Hg; [done|].
  cbn [map]. rewrite !filter_cons.
  destruct (decide (fst kv ∈ keys)).
  - cbn [map]. rewrite (Hg kv) by (simpl; auto).
    rewrite IH by (intros x Hx; apply Hg; simpl; auto). done.
  - apply IH. intros x Hx. apply Hg. simpl. auto.
Qed.

Lemma in_fst_filter {A B} (P : A * B -> Prop) `{!forall x, Decision (P x)}
    (l : list (A * B)) (k : A) :
  In k (map fst (filter P l)) -> In k (map fst l).
Proof.
  intros Hk. apply in_map_iff in Hk as (kv & <- & Hkv).
  apply list_elem_of_In, list_elem_of_filter in Hkv as (_ & Hkv).
  apply in_map, list_elem_of_In. done.
Qed.

Lemma NoDup_fst_filter {A B} (P : A * B -> Prop) `{!forall x, Decision (P x)}
    (l : list (A * B)) :
  NoDup (map fst l) -> NoDup (map fst (filter P l)).
Proof.
  induction l as [|kv l IH]; intros Hnd; [done|].
  cbn [map] in Hnd. apply NoDup_cons in Hnd as (Hk & Hnd).
  rewrite filter_cons. destruct (decide (P kv)); [|auto].
  cbn [map]. apply NoDup_cons. split; [|auto].
  intros Hin. apply Hk. apply list_elem_of_In in Hin.
  apply list_elem_of_In. eapply in_fst_filter; eauto.
Qed.

Section KeptInputs.

Import Algorithms.

(** X22: [get_kwargs(keys)] of an object built from keyword arguments
    returns exactly the arguments whose name is in [keys], with the values
    they were given: a name of [keys] that was not given is left out
    without an error, and a name that was given but is not in [keys] is
    not returned. *)
Theorem get_kwargs_selects_given_inputs c kwargs s obj s' keys :
  NoDup (map fst kwargs) ->
  init c kwargs s = (Ok obj, s') ->
  attributes obj = map fst kwargs /\
  exists d,
    get_kwargs obj keys = Some d /\
    d = filter (fun kv => fst kv ∈ keys) kwargs /\
    (forall k v, dict_lookup k d = Some v <-> k ∈ keys /\ In (k, v) kwargs) /\
    (forall k, ~ In k (map fst kwargs) -> dict_lookup k d = None).
Proof.
  intros Hnd H. unfold init in H.
  apply init_loop_inv in H as (_ & Ha & Hat & _). simpl in Ha, Hat.
  split; [done|].
  assert (Hlook : forall k v, In (k, v) kwargs -> aattrs obj !! k = Some v).
  { intros k v Hin. rewrite Hat. apply foldl_insert_lookup; done. }
  set (d := filter (fun kv : string * value => fst kv ∈ keys) kwargs).
  assert (Hd : forall k v, (k, v) ∈ d <-> k ∈ keys /\ In (k, v) kwargs).
  { intros k v. unfold d. rewrite list_elem_of_filter, <- list_elem_of_In.
    done. }
  assert (Hndd : NoDup (d.*1)) by (apply NoDup_fst_filter; done).
  exists d. split; [|split; [done|split]].
  - unfold get_kwargs. rewrite Ha.
    rewrite (mapM_map _ (fun key => (key, default VOther (aattrs obj !! key)))).
    + f_equal. unfold d.
      apply (map_filter_keys keys
               (fun key => (key, default VOther (aattrs obj !! key))) kwargs).
      intros [k v] Hin. simpl. rewrite (Hlook k v Hin). done.
    + intros k Hin.
      apply list_elem_of_In, list_elem_of_filter in Hin as (_ & Hin).
      apply list_elem_of_In, in_map_iff in Hin as ([k' v] & <- & Hin).
      simpl. rewrite (Hlook k' v Hin). done.
  - intros k v. unfold dict_lookup.
    rewrite <- (elem_of_list_to_map d k v Hndd). apply Hd.
  - intros k Hk. unfold dict_lookup. apply not_elem_of_list_to_map_1.
    intros Hin. apply Hk. apply list_elem_of_In in Hin.
    eapply in_fst_filter; eauto.
Qed.

End KeptInputs.

Lemma get_kwargs_selects_given_inputs_witness :
  exists obj d,
    Algorithms.init Algorithms.FogLowStratusAlgorithm sample_scene
      (mkState [] []) = (Ok obj, mkState [] []) /\
    Algorithms.get_kwargs obj ["ir108"; "ir039"; "cot"] = Some d /\
    d = [("ir108", VArray [[Fin 270; Fin 280]]);
         ("ir039", VArray [[Fin 273; Fin 279]])].
Proof.
  assert (Hinit : exists obj,
    Algorithms.init Algorithms.FogLowStratusAlgorithm sample_scene
      (mkState [] []) = (Ok obj, mkState [] []))
    by (eexists; vm_compute; reflexivity).
  destruct Hinit as (obj & Hinit).
  destruct (get_kwargs_selects_given_inputs
              Algorithms.FogLowStratusAlgorithm sample_scene (mkState [] [])
              obj (mkState [] []) ["ir108"; "ir039"; "cot"])
    as (_ & d & Hget & Hd & _).
  - apply (bool_decide_unpack (NoDup (map fst sample_scene))).
    vm_compute. exact I.
  - exact Hinit.
  - exists obj, d. split; [exact Hinit|]. split; [exact Hget|].
    rewrite Hd. vm_compute. reflexivity.
Defined.

(** ** The shape and the mask kept by the object *)

Lemma foldl_final_shape (kwargs : list (string * value))
    (acc : option (list nat)) :
  foldl final_shape acc kwargs
  = match last (kwargs_shapes kwargs) with
    | Some sh => Some sh
    | None => acc
    end.
Proof.
  revert acc. induction kwargs as [|kv kwargs IH]; intros acc; [done|].
  cbn [foldl]. rewrite IH. unfold kwargs_shapes. cbn [omap list_omap].
  fold (kwargs_shapes kwargs). unfold final_shape.
  destruct (value_shape (snd kv)) as [sh|]; [|done].
  rewrite last_cons. destruct (last (kwargs_shapes kwargs)); done.
Qed.

Lemma shape_np_ones sh : shape (Algorithms.np_ones sh) = sh.
Proof.
  unfold shape, Algorithms.np_ones. rewrite map_map.
  induction sh as [|n sh IH]; simpl; [done|].
  rewrite length_replicate, IH. done.
Qed.

Lemma shape_all_true sh : shape (Algorithms.all_true sh) = sh.
Proof.
  unfold shape, Algorithms.all_true. rewrite map_map.
  induction sh as [|n sh IH]; simpl; [done|].
  rewrite length_replicate, IH. done.
Qed.

Lemma pix_all_true sh i j b :
  pix (Algorithms.all_true sh) i j = Some b -> b = true.
Proof.
  unfold pix, Algorithms.all_true. rewrite lookup_map.
  destruct (sh !! i) as [n|]; simpl; [|done].
  intros H. apply lookup_replicate in H as (-> & _). done.
Qed.

Section BaseRun.

Import Algorithms.

Context (E : Externals).

(** X23: [run()] of the base class on an object built from keyword
    arguments.  When no argument is an array, the object has no attribute
    [shape] and [run()] raises [AttributeError].  Otherwise it returns an
    array of ones of the shape of the last array among the arguments, every
    pixel of which is masked; the mask returned with it is the mask of that
    array, one new array. *)
Theorem base_algorithm_masks_everything kwargs s obj s1 :
  init BaseSatelliteAlgorithm kwargs s = (Ok obj, s1) ->
  match last (kwargs_shapes kwargs) with
  | None => run E obj s1 = (ARaise (Exn (AttributeError "shape")), s1)
  | Some sh =>
      exists r m g,
        run E obj s1
        = (AOk (r, m), mkState (heap s1 ++ [g]) (log s1)) /\
        ma_mask r = m /\ m = length (heap s1) /\
        shape (ma_data r) = sh /\ shape g = sh /\
        forall i j b, pix g i j = Some b -> b = true
  end.
Proof.
  intros H. unfold init in H.
  apply init_loop_inv in H as (Hc & _ & _ & Hsh & _).
  rewrite foldl_final_shape in Hsh. simpl in Hc, Hsh.
  unfold run, isprocessible, procedure. rewrite Hc.
  erewrite abind_ok by (apply lift_ok; reflexivity). cbv beta iota.
  unfold base_procedure. rewrite Hsh.
  destruct (last (kwargs_shapes kwargs)) as [sh|]; [|done].
  exists (mkMarray (np_ones sh) (length (heap s1))), (length (heap s1)),
    (all_true sh).
  split; [reflexivity|]. repeat split.
  - apply shape_np_ones.
  - apply shape_all_true.
  - apply pix_all_true.
Qed.

End BaseRun.

Lemma base_algorithm_masks_everything_witness :
  exists obj r g,
    Algorithms.init Algorithms.BaseSatelliteAlgorithm
      [("ir108", VArray [[Fin 270; Fin 280]]); ("time", VTime 0)]
      (mkState [] []) = (Ok obj, mkState [] []) /\
    Algorithms.run sample_externals obj (mkState [] [])
    = (Algorithms.AOk (r, 0), mkState [g] []) /\
    shape g = [2].
Proof.
  assert (Hinit : exists obj,
    Algorithms.init Algorithms.BaseSatelliteAlgorithm
      [("ir108", VArray [[Fin 270; Fin 280]]); ("time", VTime 0)]
      (mkState [] []) = (Ok obj, mkState [] []))
    by (eexists; vm_compute; reflexivity).
  destruct Hinit as (obj & Hinit).
  destruct (base_algorithm_masks_everything sample_externals
              [("ir108", VArray [[Fin 270; Fin 280]]); ("time", VTime 0)]
              (mkState [] []) obj (mkState [] []) Hinit)
    as (r & m & g & Hrun & _ & -> & _ & Hg & _).
  exists obj, r, g. split; [exact Hinit|]. split; [exact Hrun|exact Hg].
Defined.

Section MaskUnion.

Import Algorithms.

Lemma init_loop_union kwargs :
  forall self s obj s' (lc : loc) gc,
    ainmask self = Some lc -> heap s !! lc = Some gc ->
    Forall (fun l => l < length (heap s)) (kwargs_masks kwargs) ->
    init_loop self kwargs s = (Ok obj, s') ->
    exists gs li,
      Forall2 (fun l g => heap s !! l = Some g) (kwargs_masks kwargs) gs /\
      Forall (fun g => shape g = shape gc) gs /\
      ainmask obj = Some li /\
      heap s' !! li = Some (mask_union gc gs) /\
      (kwargs_masks kwargs = [] -> li = lc) /\
      (kwargs_masks kwargs <> [] -> length (heap s) <= li).
Proof.
  induction kwargs as [|kv kwargs IH];
    intros self s obj s' lc gc Hin Hgc Hlt H.
  - injection H as <- <-. exists [], lc.
    repeat split; try done; try apply Forall2_nil_2.
  - cbn [init_loop] in H.
    apply bind_Ok_inv in H as (self1 & s1 & Hstep & H).
    apply init_step_inv in Hstep as (_ & _ & _ & _ & _ & Hm).
    rewrite Hin in Hm. unfold kwargs_masks in *. cbn [omap list_omap] in *.
    destruct (value_mask (snd kv)) as [m|].
    + destruct Hm as (gc' & gm & Hgc' & Hgm & Hs & Hin1 & Hh1).
      assert (gc' = gc) by congruence. subst gc'.
      apply Forall_cons in Hlt as (Hm & Hlt).
      destruct (IH self1 s1 obj s' (length (heap s))
                  (grid_zip_with orb gc gm) Hin1) as
        (gs & li & Hf2 & Hsh & Hli & Hu & Heq & Hfresh); [| |done|].
      { rewrite Hh1. apply lookup_app_new. }
      { eapply Forall_impl; [exact Hlt|]. intros l Hl. simpl in Hl.
        rewrite Hh1, length_app. simpl. lia. }
      exists (gm :: gs), li. split; [|split; [|split; [|split; [|split]]]].
      * apply Forall2_cons. split; [done|].
        clear -Hf2 Hlt Hh1. revert gs Hf2.
        induction Hlt as [|l ls Hl Hlt IHl]; intros gs Hf2.
        -- apply Forall2_nil_inv_l in Hf2 as ->. apply Forall2_nil_2.
        -- apply Forall2_cons_inv_l in Hf2 as (g & gs' & Hg & Hf2 & ->).
           apply Forall2_cons. split; [|auto].
           rewrite Hh1, lookup_app_l in Hg by done. done.
      * apply Forall_cons. split; [done|].
        eapply Forall_impl; [exact Hsh|]. intros g Hg. simpl in Hg.
        rewrite Hg. apply shape_grid_zip_with. done.
      * done.
      * exact Hu.
      * done.
      * intros _.
        destruct (decide (omap (fun kv0 : string * value =>
                                  value_mask (snd kv0)) kwargs = []))
          as [Hnil|Hne].
        -- rewrite (Heq Hnil). done.
        -- specialize (Hfresh Hne). rewrite Hh1, length_app in Hfresh. lia.
    + destruct Hm as (Hin1 & Hh1).
      destruct (IH self1 s1 obj s' lc gc Hin1) as
        (gs & li & Hf2 & Hsh & Hli & Hu & Heq & Hfresh); [| |done|].
      { rewrite Hh1. done. }
      { rewrite Hh1. done. }
      rewrite Hh1 in Hf2, Hfresh. exists gs, li. done.
Qed.

End MaskUnion.

Section MaskUnionClaim.

Import Algorithms.

(** X24: the mask kept by an algorithm object is the union of the masks of
    the masked arrays among its keyword arguments: a pixel is masked in
    [self.inmask] exactly when it is masked in one of them.  Without a
    masked array [self.inmask] is [None].  With exactly one, [self.inmask]
    is the mask array of that argument itself, not a copy; with more than
    one it is a new array.  The arrays of the store are left as they
    were. *)
Theorem init_inmask_is_union c kwargs s obj s' :
  Forall (fun l => l < length (heap s)) (kwargs_masks kwargs) ->
  init c kwargs s = (Ok obj, s') ->
  (forall l g, heap s !! l = Some g -> heap s' !! l = Some g) /\
  match kwargs_masks kwargs with
  | [] => ainmask obj = None /\ heap s' = heap s
  | l0 :: ls =>
      exists g0 gs li u,
        heap s !! l0 = Some g0 /\
        Forall2 (fun l g => heap s !! l = Some g) ls gs /\
        ainmask obj = Some li /\ heap s' !! li = Some u /\
        u = mask_union g0 gs /\
        (ls = [] -> li = l0) /\
        (ls <> [] -> length (heap s) <= li) /\
        shape u = shape g0 /\
        forall i j,
          pix u i j = Some true <->
          exists g, In g (g0 :: gs) /\ pix g i j = Some true
  end.
Proof.
  intros Hlt H. split.
  { apply init_loop_inv in H as (_ & _ & _ & _ & _ & new & ->).
    intros l g Hl. apply lookup_app_l_Some. done. }
  unfold init in H.
  remember (mkAlgorithm c None None [] ∅) as self eqn:Hself.
  assert (Hin : ainmask self = None) by (subst self; done).
  clear Hself. revert self s Hin Hlt H.
  induction kwargs as [|kv kwargs IH]; intros self s Hin Hlt H.
  - injection H as <- <-. done.
  - cbn [init_loop] in H.
    apply bind_Ok_inv in H as (self1 & s1 & Hstep & H).
    apply init_step_inv in Hstep as (_ & _ & _ & _ & _ & Hm).
    rewrite Hin in Hm. unfold kwargs_masks in *. cbn [omap list_omap] in *.
    destruct (value_mask (snd kv)) as [m|].
    + destruct Hm as (Hin1 & Hh1).
      apply Forall_cons in Hlt as (Hm & Hlt).
      destruct (lookup_lt_is_Some_2 _ _ Hm) as (g0 & Hg0).
      destruct (init_loop_union kwargs self1 s1 obj s' m g0 Hin1)
        as (gs & li & Hf2 & Hsh & Hli & Hu & Heq & Hfresh); [| |done|].
      { rewrite Hh1. done. }
      { rewrite Hh1. done. }
      rewrite Hh1 in Hf2, Hfresh.
      destruct (mask_union_spec gs g0 Hsh) as (Hshape & Hpix).
      exists g0, gs, li, (mask_union g0 gs).
      split; [exact Hg0|]. split; [exact Hf2|]. split; [exact Hli|].
      split; [exact Hu|]. split; [reflexivity|]. split; [exact Heq|].
      split; [exact Hfresh|]. split; [exact Hshape|exact Hpix].
    + destruct Hm as (Hin1 & Hh1).
      specialize (IH self1 s1 Hin1). rewrite Hh1 in IH.
      apply IH; done.
Qed.

End MaskUnionClaim.

Lemma init_inmask_is_union_witness :
  exists obj s' li u,
    Algorithms.init Algorithms.BaseSatelliteAlgorithm
      [("clusters", VLabels [[1; 2]]%Z 0); ("ir108", VArray [[Fin 270; Fin 280]]);
       ("labels", VLabels [[3; 4]]%Z 1)]
      (mkState [[[true; false]]; [[false; false]]] []) = (Ok obj, s') /\
    Algorithms.ainmask obj = Some li /\ heap s' !! li = Some u /\
    2 <= li /\ pix u 0 0 = Some true.
Proof.
  assert (Hinit : exists obj s',
    Algorithms.init Algorithms.BaseSatelliteAlgorithm
      [("clusters", VLabels [[1; 2]]%Z 0); ("ir108", VArray [[Fin 270; Fin 280]]);
       ("labels", VLabels [[3; 4]]%Z 1)]
      (mkState [[[true; false]]; [[false; false]]] []) = (Ok obj, s'))
    by (eexists _, _; vm_compute; reflexivity).
  destruct Hinit as (obj & s' & Hinit).
  assert (Hlt : Forall (fun l => l < 2) [0; 1]) by (repeat constructor).
  destruct (init_inmask_is_union Algorithms.BaseSatelliteAlgorithm
              [("clusters", VLabels [[1; 2]]%Z 0);
               ("ir108", VArray [[Fin 270; Fin 280]]);
               ("labels", VLabels [[3; 4]]%Z 1)]
              (mkState [[[true; false]]; [[false; false]]] []) obj s'
              Hlt Hinit)
    as (_ & g0 & gs & li & u & Hg0 & _ & Hli & Hu & _ & _ & Hfresh & _ & Hpix).
  exists obj, s', li, u. split; [exact Hinit|]. split; [exact Hli|].
  split; [exact Hu|]. split.
  - apply Hfresh. discriminate.
  - apply Hpix. exists g0. split; [left; reflexivity|].
    vm_compute in Hg0. injection Hg0 as <-. reflexivity.
Defined.
(** ** The chain of filters of the fog and low stratus algorithm *)

Lemma get_kwargs_lookup self keys d k v :
  Algorithms.get_kwargs self keys = Some d ->
  Algorithms.dict_lookup k d = Some v ->
  Algorithms.aattrs self !! k = Some v.
Proof.
  unfold Algorithms.get_kwargs, Algorithms.dict_lookup. intros Hd Hk.
  apply elem_of_list_to_map_2 in Hk.
  apply mapM_Some in Hd.
  revert Hk. induction Hd as [|key kv l l' Hf _ IH]; intros Hk.
  - apply elem_of_nil in Hk. done.
  - apply elem_of_cons in Hk as [<-|Hk]; [|auto].
    destruct (Algorithms.aattrs self !! key) eqn:Hkey; simpl in Hf; [|done].
    injection Hf as ? ?; subst. done.
Qed.

Section Chain.

Import Algorithms.

Context (E : Externals).

Lemma apply_allocating_inv f s r m s' :
  allocates (filter_mask E f) ->
  apply E f s = (Ok (r, m), s') ->
  exists g s0 s1,
    heap s0 = heap s /\
    filter_mask E f s0 = (Ok (length (heap s)), s1) /\
    heap s1 = heap s ++ [g] /\
    m = length (heap s) /\ ma_data r = arr f /\ shape g = shape (arr f) /\
    match inmask f with
    | None => ma_mask r = length (heap s) /\ heap s' = heap s ++ [g]
    | Some li =>
        exists im,
          (heap s ++ [g]) !! li = Some im /\ shape g = shape im /\
          ma_mask r = S (length (heap s)) /\
          heap s' = heap s ++ [g; grid_zip_with orb g im]
    end.
Proof.
  intros Hal H.
  apply apply_Ok_inv in H as (s0 & s1 & s2 & _ & Hm & Hr & Hs0 & Hs').
  destruct (Hal _ _ _ Hm) as (-> & g & Hs1).
  rewrite Hs0 in Hs1.
  apply set_result_Ok_inv in Hr as (_ & Hd & _ & g' & Hg' & Hsh & Hr).
  rewrite Hs1, Hs0, lookup_app_new in Hg'. injection Hg' as <-.
  rewrite Hs0 in Hm, Hr.
  exists g, s0, s1.
  split; [exact Hs0|]. split; [exact Hm|]. split; [exact Hs1|].
  split; [rewrite Hs0; reflexivity|]. split; [exact Hd|].
  split; [exact Hsh|].
  destruct (inmask f) as [li|].
  - destruct Hr as (im & Him & Hsi & Hmr & Hh).
    exists im. rewrite Hs1 in Him, Hmr, Hh.
    split; [done|]. split; [done|]. split.
    + rewrite Hmr, length_app. simpl. lia.
    + rewrite Hs', Hh, <- app_assoc. done.
  - destruct Hr as (Hmr & Hh). split; [congruence|]. congruence.
Qed.

Lemma init_filter_inv c a inm kwargs s f s' :
  init_filter c a inm kwargs s = (Ok f, s') ->
  f = new_filter c a inm kwargs /\ heap s' = heap s.
Proof.
  unfold init_filter. intros H.
  apply bind_Ok_inv in H as ([] & s1 & H1 & H).
  injection H as <- <-. split; [done|].
  destruct (bool_decide _); injection H1 as <-; done.
Qed.

Lemma chain_allocates c a inm kwargs :
  c = CloudFilter \/ c = SnowFilter \/ c = IceCloudFilter
  \/ c = CirrusCloudFilter ->
  allocates (filter_mask E (new_filter c a inm kwargs)).
Proof.
  unfold filter_mask. intros [-> | [-> | [-> | ->]]]; simpl.
  - apply CloudFilter_mask_allocates.
  - apply SnowFilter_mask_allocates.
  - apply IceCloudFilter_mask_allocates.
  - apply CirrusCloudFilter_mask_allocates.
Qed.

(** one filter of the chain, built on a masked array *)
Lemma next_filter_inv self c keys prev inputs s r m s' im :
  c = CloudFilter \/ c = SnowFilter \/ c = IceCloudFilter
  \/ c = CirrusCloudFilter ->
  get_kwargs self keys = Some inputs ->
  heap s !! ma_mask prev = Some im ->
  next_filter E c prev inputs s = (AOk (r, m), s') ->
  exists g,
    computes_mask E self c keys (ma_data prev) (Some (ma_mask prev))
      (heap s) g /\
    shape g = shape (ma_data prev) /\ shape g = shape im /\
    m = length (heap s) /\ ma_data r = ma_data prev /\
    ma_mask r = S (length (heap s)) /\
    heap s' = heap s ++ [g; grid_zip_with orb g im].
Proof.
  intros Hc Hget Him H. unfold next_filter in H.
  apply abind_AOk_inv in H as (f & s1 & Hf & H).
  apply lift_AOk_inv in Hf. apply init_filter_inv in Hf as (-> & Hs1).
  apply lift_AOk_inv in H.
  apply apply_allocating_inv in H
    as (g & s0 & s2 & Hs0 & Hm & Hs2 & -> & Hd & Hsh & Hr);
    [|apply chain_allocates; done].
  simpl in Hr, Hd, Hsh. destruct Hr as (im' & Him' & Hsi & Hmr & Hh).
  rewrite Hs1 in *.
  rewrite (lookup_app_l_Some _ _ _ _ Him) in Him'. injection Him' as <-.
  exists g. split; [|done].
  exists inputs, s0, s2. done.
Qed.

(** X25: when [run()] of the fog and low stratus algorithm returns on a
    plain 10.8 um array, the store has gained seven mask arrays and lost
    or changed none: the own masks of the cloud, snow, ice cloud and cirrus
    filters, each computed by the filter function of a filter built on the
    10.8 um data, and after each of the last three the mask of its result
    array.  The result array holds the 10.8 um data under the pixelwise OR
    of the four own masks, while the mask that is returned with it is the
    own mask of the cirrus filter alone. *)
Theorem fls_result_mask_is_union self s r m s' ir108 :
  acls self = FogLowStratusAlgorithm ->
  aattrs self !! "ir108" = Some (VArray ir108) ->
  run E self s = (AOk (r, m), s') ->
  let h := heap s in
  let n := length h in
  exists g1 g2 g3 g4 : grid bool,
    let r2 := grid_zip_with orb g2 g1 in
    let r3 := grid_zip_with orb g3 r2 in
    let r4 := grid_zip_with orb g4 r3 in
    computes_mask E self CloudFilter ["ir108"; "ir039"] ir108 None h g1 /\
    computes_mask E self SnowFilter ["ir108"; "vis008"; "nir016"; "vis006"]
      ir108 (Some n) (h ++ [g1]) g2 /\
    computes_mask E self IceCloudFilter ["ir120"; "ir087"; "ir108"]
      ir108 (Some (n + 2)) (h ++ [g1; g2; r2]) g3 /\
    computes_mask E self CirrusCloudFilter
      ["ir120"; "ir087"; "ir108"; "lat"; "lon"; "time"]
      ir108 (Some (n + 4)) (h ++ [g1; g2; r2; g3; r3]) g4 /\
    Forall (fun g => shape g = shape ir108) [g1; g2; g3; g4] /\
    heap s' = h ++ [g1; g2; r2; g3; r3; g4; r4] /\
    ma_data r = ir108 /\
    ma_mask r = n + 6 /\
    m = n + 5.
Proof.
  intros Hcls H108 H h n. unfold run in H.
  apply abind_AOk_inv in H as (ok & s0 & Hok & H).
  apply lift_AOk_inv in Hok.
  assert (Hs0 : heap s0 = heap s).
  { unfold isprocessible in Hok. rewrite Hcls in Hok.
    rewrite isprocessible_loop_run in Hok. injection Hok as _ <-. done. }
  destruct ok; [|done].
  unfold procedure in H. rewrite Hcls in H. unfold fls_procedure in H.
  apply abind_AOk_inv in H as ([] & sa & Hlog & H).
  apply lift_AOk_inv in Hlog. injection Hlog as <-.
  apply abind_AOk_inv in H as (cloud_input & sb & Hci & H).
  apply of_opt_AOk_inv in Hci as (Hci & ->).
  apply abind_AOk_inv in H as (v & sb & Hv & H).
  apply of_opt_AOk_inv in Hv as (Hv & ->).
  rewrite (get_kwargs_lookup _ _ _ _ _ Hci Hv) in H108. injection H108 as ->.
  apply abind_AOk_inv in H as (a & sb & Ha & H).
  apply of_opt_AOk_inv in Ha as (Ha & ->). injection Ha as <-.
  apply abind_AOk_inv in H as (f1 & sb & Hf1 & H).
  apply lift_AOk_inv in Hf1. apply init_filter_inv in Hf1 as (-> & Hsb).
  simpl in Hsb. cbn [fst snd] in H.
  apply abind_AOk_inv in H as ([r1 m1] & s1 & H1 & H).
  apply lift_AOk_inv in H1.
  apply apply_allocating_inv in H1
    as (g1 & sa1 & sb1 & Hsa1 & Hm1 & Hsb1 & -> & Hd1 & Hsh1 & Hr1);
    [|apply chain_allocates; auto].
  simpl in Hr1, Hd1, Hsh1. destruct Hr1 as (Hmr1 & Hh1).
  rewrite Hsb, Hs0 in *. fold h in Hsa1, Hm1, Hsb1, Hmr1, Hh1. fold n in Hm1, Hmr1.
  apply abind_AOk_inv in H as (snow_input & sc & Hsi & H).
  apply of_opt_AOk_inv in Hsi as (Hsi & ->).
  apply abind_AOk_inv in H as ([r2 m2] & s2 & H2 & H).
  cbn [fst snd] in H2, H.
  assert (Him1 : heap s1 !! ma_mask r1 = Some g1).
  { rewrite Hmr1, Hh1. apply lookup_app_new. }
  destruct (next_filter_inv self SnowFilter _ r1 snow_input s1 r2 m2 s2 g1
              ltac:(auto) Hsi Him1 H2)
    as (g2 & Hc2 & Hsh2 & _ & -> & Hd2 & Hmr2 & Hh2).
  set (x2 := grid_zip_with orb g2 g1) in *.
  apply abind_AOk_inv in H as (ice_input & sc & Hii & H).
  apply of_opt_AOk_inv in Hii as (Hii & ->).
  apply abind_AOk_inv in H as ([r3 m3] & s3 & H3 & H).
  cbn [fst snd] in H3, H.
  assert (Him2 : heap s2 !! ma_mask r2 = Some x2).
  { rewrite Hmr2, Hh2. rewrite (lookup_app_r (heap s1)) by lia.
    replace (S (length (heap s1)) - length (heap s1)) with 1 by lia. done. }
  destruct (next_filter_inv self IceCloudFilter _ r2 ice_input s2 r3 m3 s3 x2
              ltac:(auto) Hii Him2 H3)
    as (g3 & Hc3 & Hsh3 & _ & -> & Hd3 & Hmr3 & Hh3).
  set (x3 := grid_zip_with orb g3 x2) in *.
  apply abind_AOk_inv in H as (cirrus_input & sc & Hri & H).
  apply of_opt_AOk_inv in Hri as (Hri & ->).
  apply abind_AOk_inv in H as ([r4 m4] & s4 & H4 & H).
  cbn [fst snd] in H4, H.
  assert (Him3 : heap s3 !! ma_mask r3 = Some x3).
  { rewrite Hmr3, Hh3. rewrite (lookup_app_r (heap s2)) by lia.
    replace (S (length (heap s2)) - length (heap s2)) with 1 by lia. done. }
  destruct (next_filter_inv self CirrusCloudFilter _ r3 cirrus_input s3 r4 m4
              s4 x3 ltac:(auto 6) Hri Him3 H4)
    as (g4 & Hc4 & Hsh4 & _ & -> & Hd4 & Hmr4 & Hh4).
  set (x4 := grid_zip_with orb g4 x3) in *.
  injection H as <- <- <-.
  assert (L1 : length (heap s1) = n + 1).
  { rewrite Hh1, length_app. done. }
  assert (E2 : heap s2 = h ++ [g1; g2; x2]).
  { rewrite Hh2, Hh1, <- app_assoc. done. }
  assert (L2 : length (heap s2) = n + 3).
  { rewrite E2, length_app. done. }
  assert (E3 : heap s3 = h ++ [g1; g2; x2; g3; x3]).
  { rewrite Hh3, E2, <- app_assoc. done. }
  assert (L3 : length (heap s3) = n + 5).
  { rewrite E3, length_app. done. }
  assert (E4 : heap s4 = h ++ [g1; g2; x2; g3; x3; g4; x4]).
  { rewrite Hh4, E3, <- app_assoc. done. }
  exists g1, g2, g3, g4. cbv zeta. fold x2 x3 x4.
  rewrite Hd1 in Hc2, Hsh2. rewrite Hmr1, Hh1 in Hc2.
  rewrite Hd2, Hd1 in Hc3, Hsh3.
  rewrite Hmr2, E2, L1 in Hc3.
  replace (S (n + 1)) with (n + 2) in Hc3 by lia.
  rewrite Hd3, Hd2, Hd1 in Hc4, Hsh4.
  rewrite Hmr3, E3, L2 in Hc4.
  replace (S (n + 3)) with (n + 4) in Hc4 by lia.
  split.
  { exists cloud_input, sa1, sb1. done. }
  split; [exact Hc2|]. split; [exact Hc3|]. split; [exact Hc4|].
  split; [repeat constructor; done|].
  split; [exact E4|].
  split; [congruence|].
  split; [rewrite Hmr4, L3; lia|].
  exact L3.
Qed.

End Chain.

Lemma fls_result_mask_is_union_witness :
  exists r s',
    Algorithms.run sample_cloud_externals sample_algorithm (mkState [] [])
    = (Algorithms.AOk (r, 5), s') /\
    ma_data r = [[Fin 270; Fin 280]] /\ ma_mask r = 6 /\
    heap s' !! 5 = Some [[true; false]] /\
    heap s' !! 6 = Some [[true; true]].
Proof.
  assert (Hrun : exists r s',
    Algorithms.run sample_cloud_externals sample_algorithm (mkState [] [])
    = (Algorithms.AOk (r, 5), s') /\
    heap s' !! 5 = Some [[true; false]] /\
    heap s' !! 6 = Some [[true; true]]).
  { eexists _, _. split; [vm_compute; reflexivity|].
    split; vm_compute; reflexivity. }
  destruct Hrun as (r & s' & Hrun & H5 & H6).
  assert (Hcls : Algorithms.acls sample_algorithm
                 = Algorithms.FogLowStratusAlgorithm)
    by (vm_compute; reflexivity).
  assert (H108 : Algorithms.aattrs sample_algorithm !! "ir108"
                 = Some (VArray [[Fin 270; Fin 280]]))
    by (vm_compute; reflexivity).
  destruct (fls_result_mask_is_union sample_cloud_externals sample_algorithm
              (mkState [] []) r 5 s' [[Fin 270; Fin 280]] Hcls H108 Hrun)
    as (g1 & g2 & g3 & g4 & _ & _ & _ & _ & _ & _ & Hd & Hmr & _).
  exists r, s'. split; [exact Hrun|]. split; [exact Hd|].
  split; [exact Hmr|]. split; [exact H5|exact H6].
Defined.
